(** * The code analyzer of [app/services/code_analyzer.py]

    A shallow embedding of [CodeAnalyzer] and of the [Suggestion] model,
    together with the properties of the analysis that the specification
    states.

    Conventions of the embedding.
    - Python [str] values are Rocq strings.  The character tables used by
      [re] and by the [str] methods are those of CPython for code points
      below 128, and the length of a text is its number of characters:
      the embedding is about ASCII text, and the properties that rest on
      character classes, case or length are stated for texts that
      satisfy [isascii].
    - Python [int] values are [Z]; [Optional[...]] fields are [option].
    - [ast.parse] is library code: it is a parameter of the development.
    - The analyzer keeps its findings in a list object that it mutates in
      place; list objects live in an explicit store and are referred to by
      address. *)

From Stdlib Require Import String Ascii List ZArith Lia Bool Arith DecimalString.
From Stdlib Require DecimalPos DecimalZ.
Import ListNotations.
Open Scope list_scope.
Open Scope string_scope.

Set Implicit Arguments.

(* ================================================================== *)
(** * Part I.  Definitions *)
(* ================================================================== *)

(** ** Characters and the [str] methods the analyzer calls

    The tables below are those of Python on ASCII characters.  On other
    characters Python knows more letters, more white space and more
    cased characters than these tables, and a text has as many
    characters as it has code points: the functions of this section
    stand for those of Python on ASCII texts only. *)

Definition ord (c : ascii) : nat := nat_of_ascii c.

Definition between (lo hi : nat) (c : ascii) : bool :=
  (lo <=? ord c)%nat && (ord c <=? hi)%nat.

(** [[a-z]], [[A-Z]] and [[0-9]]. *)
Definition is_az (c : ascii) : bool := between 97 122 c.
Definition is_AZ (c : ascii) : bool := between 65 90 c.
Definition is_09 (c : ascii) : bool := between 48 57 c.
Definition is_underscore (c : ascii) : bool := Ascii.eqb c "_".

(** [\w] of [re], on ASCII characters. *)
Definition is_word (c : ascii) : bool :=
  is_az c || is_AZ c || is_09 c || is_underscore c.

(** [\s] of [re] on ASCII characters, which is also the set [str.strip]
    removes among them: TAB, LF, VT, FF, CR, FS, GS, RS, US and the
    space. *)
Definition is_space (c : ascii) : bool := between 9 13 c || between 28 32 c.

Definition lower_char (c : ascii) : ascii :=
  if is_AZ c then ascii_of_nat (ord c + 32) else c.

Definition upper_char (c : ascii) : ascii :=
  if is_az c then ascii_of_nat (ord c - 32) else c.

(** [s.lower()], for an ASCII text. *)
Fixpoint lower (s : string) : string :=
  match s with
  | EmptyString => EmptyString
  | String c r => String (lower_char c) (lower r)
  end.

(** [s.capitalize()], for an ASCII text. *)
Definition capitalize (s : string) : string :=
  match s with
  | EmptyString => EmptyString
  | String c r => String (upper_char c) (lower r)
  end.

(** [len(s)], for an ASCII text. *)
Definition len (s : string) : Z := Z.of_nat (String.length s).

(** [s.startswith(p)]. *)
Definition startswith (p s : string) : bool := String.prefix p s.

(** [sub in s]. *)
Fixpoint contains (sub s : string) : bool :=
  String.prefix sub s ||
  match s with
  | EmptyString => false
  | String _ r => contains sub r
  end.

(** [s.endswith(c)] for a one-character suffix. *)
Fixpoint endswith_char (c : ascii) (s : string) : bool :=
  match s with
  | EmptyString => false
  | String d EmptyString => Ascii.eqb d c
  | String _ r => endswith_char c r
  end.

(** [s.lstrip()], [s.rstrip()], [s.strip()], for an ASCII text. *)
Fixpoint lstrip (s : string) : string :=
  match s with
  | EmptyString => EmptyString
  | String c r => if is_space c then lstrip r else s
  end.

Fixpoint rstrip (s : string) : string :=
  match s with
  | EmptyString => EmptyString
  | String c r =>
      match rstrip r with
      | EmptyString => if is_space c then EmptyString else String c EmptyString
      | r' => String c r'
      end
  end.

Definition strip (s : string) : string := rstrip (lstrip s).

(** [s.split(sep)] for a one-character separator: the pieces between the
    occurrences of [sep], empty pieces included. *)
Fixpoint split_on (sep : ascii) (cur : string) (s : string) : list string :=
  match s with
  | EmptyString => [cur]
  | String c r =>
      if Ascii.eqb c sep then cur :: split_on sep "" r
      else split_on sep (cur ++ String c "") r
  end.

Definition split (sep : ascii) (s : string) : list string := split_on sep "" s.

(** [sep.join(parts)]. *)
Definition join (sep : string) (parts : list string) : string :=
  String.concat sep parts.

(** [s.isupper()] and [s.islower()]: some cased character, and every cased
    character in the wanted case. *)
Fixpoint any_char (p : ascii -> bool) (s : string) : bool :=
  match s with
  | EmptyString => false
  | String c r => p c || any_char p r
  end.

Definition isupper (s : string) : bool := any_char is_AZ s && negb (any_char is_az s).
Definition islower (s : string) : bool := any_char is_az s && negb (any_char is_AZ s).

(** [str(n)] for an [int]. *)
Definition str_of_int (n : Z) : string := NilZero.string_of_int (Z.to_int n).

(** [enumerate(xs, start)]. *)
Fixpoint enumerate {A : Type} (xs : list A) (start : Z) : list (Z * A) :=
  match xs with
  | [] => []
  | x :: r => (start, x) :: enumerate r (start + 1)
  end.

(** ** The regular expressions of the analyzer

    Each pattern of the source is embedded as the function that [re]
    computes for it. *)

(** The longest prefix of characters of a class is skipped: the greedy
    [[...]*]. *)
Fixpoint skip_while (p : ascii -> bool) (s : string) : string :=
  match s with
  | EmptyString => EmptyString
  | String c r => if p c then skip_while p r else s
  end.

(** [$] without [re.MULTILINE]: the end of the text, or the position just
    before a newline that ends the text. *)
Definition at_dollar (s : string) : bool :=
  String.eqb s "" || String.eqb s (String "010" "").

(** [re.match(r'^[a-z_][a-z0-9_]*$', name)]. *)
Definition re_match_snake (name : string) : bool :=
  match name with
  | EmptyString => false
  | String c r =>
      (is_az c || is_underscore c) &&
      at_dollar (skip_while (fun d => is_az d || is_09 d || is_underscore d) r)
  end.

(** [re.match(r'^[A-Z][a-zA-Z0-9]*$', name)]. *)
Definition re_match_pascal (name : string) : bool :=
  match name with
  | EmptyString => false
  | String c r =>
      is_AZ c && at_dollar (skip_while (fun d => is_az d || is_AZ d || is_09 d) r)
  end.

(** [re.sub(r'(?<!^)(?=[A-Z])', '_', name)]: the pattern matches the empty
    text at every position other than 0 that stands before a character of
    [[A-Z]]; [pos] is the position of the head of [s] in the name. *)
Fixpoint re_sub_boundary (pos : nat) (s : string) : string :=
  match s with
  | EmptyString => EmptyString
  | String c r =>
      if negb (pos =? 0)%nat && is_AZ c
      then String "_" (String c (re_sub_boundary (S pos) r))
      else String c (re_sub_boundary (S pos) r)
  end.

(** [re.split(r'[_\s]+', name)]: [cur] is the piece being read and
    [in_sep] tells whether the previous character belonged to a separator
    run. *)
Fixpoint re_split_words (in_sep : bool) (cur : string) (s : string) : list string :=
  match s with
  | EmptyString => [cur]
  | String c r =>
      if is_underscore c || is_space c
      then if in_sep then re_split_words true cur r
           else cur :: re_split_words true "" r
      else re_split_words false (cur ++ String c "") r
  end.

(** [[^=\s]]. *)
Definition is_eq_sign (c : ascii) : bool := Ascii.eqb c "=".
Definition not_eq_space (c : ascii) : bool := negb (is_eq_sign c) && negb (is_space c).

(** [re.search(r'\w=[^=\s]|[^=\s]=\w', line)]: some window of three
    characters matches one of the two alternatives. *)
Fixpoint re_search_assign (s : string) : bool :=
  match s with
  | String a ((String e (String b _)) as r) =>
      (is_eq_sign e && ((is_word a && not_eq_space b) || (not_eq_space a && is_word b)))
      || re_search_assign r
  | _ => false
  end.

(** [re.sub(pattern, r'\1 = \2', line)] for a pattern [(L)=(R)] of three
    characters with classes [L] and [R]: matches are taken from left to
    right and do not overlap, the scan resumes after the third character
    of a match. *)
Fixpoint re_sub_spaces (L R : ascii -> bool) (s : string) : string :=
  match s with
  | EmptyString => EmptyString
  | String a r =>
      match r with
      | String e (String b r') =>
          if L a && is_eq_sign e && R b
          then String a (" = " ++ String b (re_sub_spaces L R r'))
          else String a (re_sub_spaces L R r)
      | _ => String a (re_sub_spaces L R r)
      end
  end.

(** ** The [Suggestion] model ([app/models/suggestion.py]) *)

Record Suggestion : Type := mkSuggestion {
  type : string;
  severity : string;
  message : string;
  line : option Z;
  suggested_fix : option string
}.

(** ** Syntax trees

    The node classes of Python's [ast] that the analyzer tells apart, with
    their fields in the order of [_fields] (CPython 3.8 to 3.11), and
    [AsyncFunctionDef], the node of [async def], with the fields of
    [FunctionDef]: it is not an instance of [ast.FunctionDef], and the
    analyzer treats it like any other node.  Every other node class,
    [IfExp] or [AsyncFor] for instance, is an [Other] node that keeps the
    name of its class and its child nodes in field order.  Only the
    attributes that the analyzer reads are kept ([lineno], and [end_lineno]
    of a function definition, which is [None] when the interpreter does
    not provide the attribute). *)

Record arguments_of (A : Type) : Type := mk_arguments {
  posonlyargs : list A;
  args : list A;
  vararg : option A;
  kwonlyargs : list A;
  kw_defaults : list (option A);
  kwarg : option A;
  defaults : list A
}.

#[warning="-register-all"]
Inductive ast : Type :=
| Module_ (body : list ast)
| FunctionDef (name : string) (fargs : arguments_of ast) (body decorator_list : list ast)
    (returns : option ast) (lineno : Z) (end_lineno : option Z)
| AsyncFunctionDef (name : string) (fargs : arguments_of ast)
    (body decorator_list : list ast) (returns : option ast) (lineno : Z)
    (end_lineno : option Z)
| arguments (a : arguments_of ast)
| ClassDef (name : string) (bases keywords body decorator_list : list ast) (lineno : Z)
| Assign (targets : list ast) (value : ast) (lineno : Z)
| AugAssign (target op value : ast)
| For (target iter : ast) (body orelse : list ast) (lineno : Z)
| While (test : ast) (body orelse : list ast) (lineno : Z)
| If (test : ast) (body orelse : list ast)
| ExceptHandler (exc_type : option ast) (body : list ast) (lineno : Z)
| Global (names : list string) (lineno : Z)
| BoolOp (op : ast) (values : list ast)
| Name (id : string) (ctx : ast)
| List_ (elts : list ast) (ctx : ast)
| Dict (keys : list (option ast)) (values : list ast)
| Set_ (elts : list ast)
| Add
| Other (cls : string) (children : list ast).

Definition opt_node (o : option ast) : list ast :=
  match o with
  | Some x => [x]
  | None => []
  end.

Definition opt_nodes (l : list (option ast)) : list ast := flat_map opt_node l.

Definition arguments_children (a : arguments_of ast) : list ast :=
  (posonlyargs a ++ args a ++ opt_node (vararg a) ++ kwonlyargs a ++
   opt_nodes (kw_defaults a) ++ opt_node (kwarg a) ++ defaults a)%list.

(** [ast.iter_child_nodes(node)]: the fields that are nodes and the nodes
    of the fields that are lists, in field order. *)
Definition iter_child_nodes (node : ast) : list ast :=
  (match node with
  | Module_ body => body
  | FunctionDef _ a body decorator_list returns _ _
  | AsyncFunctionDef _ a body decorator_list returns _ _ =>
      arguments a :: body ++ decorator_list ++ opt_node returns
  | arguments a => arguments_children a
  | ClassDef _ bases keywords body decorator_list _ =>
      bases ++ keywords ++ body ++ decorator_list
  | Assign targets value _ => targets ++ [value]
  | AugAssign target op value => [target; op; value]
  | For target iter body orelse _ => target :: iter :: body ++ orelse
  | While test body orelse _ => test :: body ++ orelse
  | If test body orelse => test :: body ++ orelse
  | ExceptHandler exc_type body _ => opt_node exc_type ++ body
  | Global _ _ => []
  | BoolOp op values => op :: values
  | Name _ ctx => [ctx]
  | List_ elts ctx => elts ++ [ctx]
  | Dict keys values => opt_nodes keys ++ values
  | Set_ elts => elts
  | Add => []
  | Other _ children => children
  end)%list.

Definition sumZ (l : list Z) : Z := fold_right Z.add 0%Z l.

(** The sum of a weight over a node and everything below it. *)
Fixpoint subtree_sum (w : ast -> Z) (node : ast) {struct node} : Z :=
  let many := fix many (l : list ast) : Z :=
    match l with
    | [] => 0%Z
    | x :: r => (subtree_sum w x + many r)%Z
    end in
  let opt := fun o : option ast =>
    match o with
    | Some x => subtree_sum w x
    | None => 0%Z
    end in
  let many_opt := fix many_opt (l : list (option ast)) : Z :=
    match l with
    | [] => 0%Z
    | o :: r => (opt o + many_opt r)%Z
    end in
  let below_arguments := fun a : arguments_of ast =>
    match a with
    | mk_arguments p ar v ko kd kw d =>
        (many p + (many ar + (opt v + (many ko + (many_opt kd + (opt kw + many d))))))%Z
    end in
  (w node +
   match node with
   | Module_ body => many body
   | FunctionDef _ a body decorator_list returns _ _
   | AsyncFunctionDef _ a body decorator_list returns _ _ =>
       (w (arguments a) + below_arguments a) +
       (many body + (many decorator_list + opt returns))
   | arguments a => below_arguments a
   | ClassDef _ bases keywords body decorator_list _ =>
       many bases + (many keywords + (many body + many decorator_list))
   | Assign targets value _ => many targets + subtree_sum w value
   | AugAssign target op value =>
       subtree_sum w target + (subtree_sum w op + subtree_sum w value)
   | For target iter body orelse _ =>
       subtree_sum w target + (subtree_sum w iter + (many body + many orelse))
   | While test body orelse _ => subtree_sum w test + (many body + many orelse)
   | If test body orelse => subtree_sum w test + (many body + many orelse)
   | ExceptHandler exc_type body _ => opt exc_type + many body
   | Global _ _ => 0
   | BoolOp op values => subtree_sum w op + many values
   | Name _ ctx => subtree_sum w ctx
   | List_ elts ctx => many elts + subtree_sum w ctx
   | Dict keys values => many_opt keys + many values
   | Set_ elts => many elts
   | Add => 0
   | Other _ children => many children
   end)%Z.

(** The number of nodes of a tree. *)
Definition size (node : ast) : nat := Z.to_nat (subtree_sum (fun _ => 1%Z) node).

(** [ast.walk(node)]: the nodes are taken from the left end of a queue that
    starts with [node], and the children of each node taken are added at
    its right end.  [fuel] bounds the number of nodes taken. *)
Fixpoint walk_queue (fuel : nat) (todo : list ast) : list ast :=
  match fuel, todo with
  | S fuel', node :: rest => node :: walk_queue fuel' (rest ++ iter_child_nodes node)%list
  | _, _ => []
  end.

Definition walk (node : ast) : list ast := walk_queue (size node) [node].

(** [x] is [node] or lies below it. *)
Inductive in_subtree (x : ast) : ast -> Prop :=
| in_subtree_here : in_subtree x x
| in_subtree_below : forall node child,
    In child (iter_child_nodes node) -> in_subtree x child -> in_subtree x node.

(** ** Exceptions, the object store and the monad of analyzer methods *)

(** A raised exception: an instance of [SyntaxError] (or of a subclass)
    with its text [str(e)] and its [lineno] attribute, or an instance of a
    class that does not derive from [SyntaxError]. *)
Inductive PyException : Type :=
| SyntaxError (text : string) (lineno : option Z)
| OtherException (cls : string) (text : string).

Inductive outcome (A : Type) : Type :=
| Returns (a : A)
| Raises (e : PyException).

Arguments Returns {A} a.
Arguments Raises {A} e.

(** List objects are kept in a store and named by their address; [self]
    holds the address bound to [self.suggestions]. *)
Definition address := nat.

Record World : Type := mkWorld {
  store : list (list Suggestion);
  self_suggestions : address
}.

Definition Py (A : Type) : Type := World -> outcome A * World.

Definition ret {A : Type} (a : A) : Py A := fun w => (Returns a, w).

Definition bind {A B : Type} (c : Py A) (k : A -> Py B) : Py B :=
  fun w =>
    match c w with
    | (Returns a, w') => k a w'
    | (Raises e, w') => (Raises e, w')
    end.

Notation "x <- c ;; k" := (bind c (fun x => k))
  (at level 61, c at next level, right associativity).
Notation "c ;; k" := (bind c (fun _ => k))
  (at level 61, right associativity).

Definition pass : Py unit := ret tt.

(** [try: c except SyntaxError as e: ...]: an exception of that class is
    handed to the handler, any other one goes on to the caller. *)
Definition try_except_SyntaxError {A : Type} (c : Py A)
    (handler : string -> option Z -> Py A) : Py A :=
  fun w =>
    match c w with
    | (Raises (SyntaxError text lineno), w') => handler text lineno w'
    | r => r
    end.

Fixpoint alter_at {A : Type} (i : nat) (f : A -> A) (l : list A) : list A :=
  match l, i with
  | [], _ => []
  | x :: r, O => f x :: r
  | x :: r, S j => x :: alter_at j f r
  end.

(** [[]]: a new list object. *)
Definition new_list : Py address :=
  fun w => (Returns (List.length (store w)),
            mkWorld (store w ++ [[]])%list (self_suggestions w)).

(** [self.suggestions = l]. *)
Definition set_self_suggestions (l : address) : Py unit :=
  fun w => (Returns tt, mkWorld (store w) l).

(** [self.suggestions]. *)
Definition get_self_suggestions : Py address :=
  fun w => (Returns (self_suggestions w), w).

(** [self.suggestions.append(s)]: the list object is changed in place. *)
Definition self_suggestions_append (s : Suggestion) : Py unit :=
  fun w => (Returns tt,
            mkWorld (alter_at (self_suggestions w) (fun l => (l ++ [s])%list) (store w))
                    (self_suggestions w)).

(** [for x in xs: body]. *)
Fixpoint for_ {A : Type} (xs : list A) (body : A -> Py unit) : Py unit :=
  match xs with
  | [] => pass
  | x :: r => body x ;; for_ r body
  end.

(** [for x in xs: body], where the body answers [true] when it ends with
    [break]. *)
Fixpoint for_break {A : Type} (xs : list A) (body : A -> Py bool) : Py unit :=
  match xs with
  | [] => pass
  | x :: r => stop <- body x ;; if stop then pass else for_break r body
  end.

(** [if b: c]. *)
Definition when (b : bool) (c : Py unit) : Py unit := if b then c else pass.

(** The list object a call has returned, when it has returned one. *)
Definition returned_list (r : outcome address * World) : option (list Suggestion) :=
  match r with
  | (Returns a, w) => nth_error (store w) a
  | (Raises _, _) => None
  end.

(** ** [CodeAnalyzer] *)

Definition isinstance_mutable_literal (node : ast) : bool :=
  match node with
  | List_ _ _ | Dict _ _ | Set_ _ => true
  | _ => false
  end.

Definition isinstance_loop (node : ast) : bool :=
  match node with
  | For _ _ _ _ _ | While _ _ _ _ => true
  | _ => false
  end.

(** [isinstance(child, ast.AugAssign) and isinstance(child.op, ast.Add)]
    and [isinstance(child.target, ast.Name)]. *)
Definition is_augmented_add_to_name (child : ast) : bool :=
  match child with
  | AugAssign (Name _ _) Add _ => true
  | _ => false
  end.

(** The body of the loop of [_check_naming_conventions]. *)
Definition naming_visit (node : ast) : Py unit :=
  (match node with
   | FunctionDef name _ _ _ _ lineno _ =>
       when (negb (re_match_snake name) && negb (startswith "__" name))
         (let snake_case_name := lower (re_sub_boundary 0 name) in
          self_suggestions_append
            (mkSuggestion "style" "medium"
               ("Function '" ++ name ++ "' should use snake_case naming (PEP 8)")
               (Some lineno)
               (Some ("def " ++ snake_case_name ++ "("))))
   | _ => pass
   end) ;;
  (match node with
   | ClassDef name _ _ _ _ lineno =>
       when (negb (re_match_pascal name))
         (let pascal_case_name :=
            join "" (map capitalize (re_split_words false "" name)) in
          self_suggestions_append
            (mkSuggestion "style" "medium"
               ("Class '" ++ name ++ "' should use PascalCase naming (PEP 8)")
               (Some lineno)
               (Some ("class " ++ pascal_case_name ++ ":"))))
   | _ => pass
   end) ;;
  (match node with
   | Assign targets _ lineno =>
       for_ targets (fun target =>
         match target with
         | Name name _ =>
             if isupper name && (1 <? len name)%Z then pass
             else if negb (contains "_" name) && islower name && (len name =? 1)%Z
             then self_suggestions_append
                    (mkSuggestion "readability" "low"
                       ("Consider using a more descriptive name instead of '" ++ name ++ "'")
                       (Some lineno)
                       (Some "descriptive_name = ..."))
             else pass
         | _ => pass
         end)
   | _ => pass
   end).

Definition _check_naming_conventions (tree : ast) (code : string) : Py unit :=
  for_ (walk tree) naming_visit.

(** The weight of a node in [_calculate_complexity]. *)
Definition complexity_step (child : ast) : Z :=
  match child with
  | If _ _ _ | While _ _ _ _ | For _ _ _ _ _ | ExceptHandler _ _ _ => 1
  | BoolOp _ values => Z.of_nat (List.length values) - 1
  | _ => 0
  end.

Definition _calculate_complexity (node : ast) : Z :=
  fold_left (fun complexity child => (complexity + complexity_step child)%Z)
            (walk node) 1%Z.

(** The body of the loop of [_check_code_complexity]. *)
Definition complexity_visit (node : ast) : Py unit :=
  match node with
  | FunctionDef name _ _ _ _ lineno end_lineno =>
      let complexity := _calculate_complexity node in
      when (10 <? complexity)%Z
        (self_suggestions_append
           (mkSuggestion "complexity" "high"
              ("Function '" ++ name ++ "' has high complexity (" ++
               str_of_int complexity ++ "). Consider refactoring.")
              (Some lineno) None)) ;;
      match end_lineno with
      | Some end_lineno =>
          let length := (end_lineno - lineno)%Z in
          when (50 <? length)%Z
            (self_suggestions_append
               (mkSuggestion "complexity" "medium"
                  ("Function '" ++ name ++ "' is too long (" ++
                   str_of_int length ++ " lines). Consider breaking it down.")
                  (Some lineno) None))
      | None => pass
      end
  | _ => pass
  end.

Definition _check_code_complexity (tree : ast) : Py unit :=
  for_ (walk tree) complexity_visit.

(** The body of the loop of [_check_best_practices]. *)
Definition best_practices_visit (node : ast) : Py unit :=
  (match node with
   | ExceptHandler None _ lineno =>
       self_suggestions_append
         (mkSuggestion "best_practice" "high"
            "Avoid bare 'except:' clauses. Specify exception types."
            (Some lineno)
            (Some "except Exception as e:"))
   | _ => pass
   end) ;;
  (match node with
   | FunctionDef name a _ _ _ lineno _ =>
       for_ (defaults a) (fun default =>
         when (isinstance_mutable_literal default)
           (self_suggestions_append
              (mkSuggestion "best_practice" "high"
                 ("Avoid mutable default arguments in function '" ++ name ++
                  "'. Use None instead.")
                 (Some lineno)
                 (Some (join (String "010" "")
                          ["def function_name(param=None):";
                           "    if param is None:";
                           "        param = []"])))))
   | _ => pass
   end) ;;
  (match node with
   | Global _ lineno =>
       self_suggestions_append
         (mkSuggestion "best_practice" "medium"
            "Avoid using 'global'. Consider using function parameters or class attributes."
            (Some lineno)
            (Some (join (String "010" "")
                     ["# Pass value as parameter instead:";
                      "def function(parameter):";
                      "    return parameter"])))
   | _ => pass
   end).

Definition _check_best_practices (tree : ast) (code : string) : Py unit :=
  for_ (walk tree) best_practices_visit.

(** The body of the loop of [_check_performance_issues].  Its second test,
    on calls of an [append] attribute, has an empty body in the source. *)
Definition performance_visit (node : ast) : Py unit :=
  match node with
  | For _ _ _ _ lineno | While _ _ _ lineno =>
      for_break (walk node) (fun child =>
        if is_augmented_add_to_name child
        then self_suggestions_append
               (mkSuggestion "performance" "medium"
                  "String concatenation in loop detected. Consider using join() or list comprehension."
                  (Some lineno)
                  (Some (join (String "010" "")
                           ["# Use join instead:";
                            "result = ''.join(items)";
                            "# or list comprehension:";
                            "result = ''.join([str(item) for item in items])"]))) ;;
             ret true
        else ret false)
  | _ => pass
  end.

Definition _check_performance_issues (tree : ast) (code : string) : Py unit :=
  for_ (walk tree) performance_visit.

(** The operators whose presence anywhere on a line silences the test on
    assignment spacing. *)
Definition compound_operators : list string :=
  ["=="; "!="; "<="; ">="; "+="; "-="; "*="; "/="].

(** The body of the loop of [_check_style_issues], for line number [i]. *)
Definition style_visit (il : Z * string) : Py unit :=
  let (i, line) := il in
  when (120 <? len line)%Z
    (self_suggestions_append
       (mkSuggestion "style" "low"
          "Line exceeds 120 characters (PEP 8 recommends max 79-120)"
          (Some i) None)) ;;
  when (endswith_char " " line || endswith_char "009" line)
    (self_suggestions_append
       (mkSuggestion "style" "low" "Trailing whitespace detected"
          (Some i) (Some (rstrip line)))) ;;
  when (contains "=" line && negb (existsb (fun x => contains x line) compound_operators))
    (when (re_search_assign line)
       (let fixed_line := re_sub_spaces is_word not_eq_space line in
        let fixed_line := re_sub_spaces not_eq_space is_word fixed_line in
        self_suggestions_append
          (mkSuggestion "style" "low"
             "Missing spaces around assignment operator (PEP 8)"
             (Some i) (Some (strip fixed_line))))) ;;
  when (contains ";" line && negb (startswith "#" (strip line)))
    (let statements := split ";" line in
     let fixed :=
       join (String "010" "")
            (map strip (filter (fun s => negb (String.eqb (strip s) "")) statements)) in
     self_suggestions_append
       (mkSuggestion "style" "medium"
          "Avoid multiple statements on one line (PEP 8)"
          (Some i) (Some fixed))).

Definition _check_style_issues (code : string) : Py unit :=
  let lines := split "010" code in
  for_ (enumerate lines 1) style_visit.

(** The checks [analyze] runs on a parsed snippet, in its order. *)
Definition run_checks (tree : ast) (code_snippet : string) : Py unit :=
  _check_naming_conventions tree code_snippet ;;
  _check_code_complexity tree ;;
  _check_best_practices tree code_snippet ;;
  _check_performance_issues tree code_snippet ;;
  _check_style_issues code_snippet.

Definition syntax_suggestion (text : string) (lineno : option Z) : Suggestion :=
  mkSuggestion "syntax" "high" ("Syntax error: " ++ text) lineno None.

Section Analyzer.

(** [ast.parse]: what it returns or raises on each text. *)
Variable ast_parse : string -> outcome ast.

Definition call_ast_parse (code_snippet : string) : Py ast :=
  fun w => (ast_parse code_snippet, w).

(** [CodeAnalyzer.analyze].  Both [return] statements give back the
    object bound to [self.suggestions]; an instance of [SyntaxError]
    always has the attribute [lineno]. *)
Definition analyze (code_snippet : string) : Py address :=
  fresh <- new_list ;;
  set_self_suggestions fresh ;;
  parsed <- try_except_SyntaxError
              (tree <- call_ast_parse code_snippet ;; ret (Some tree))
              (fun text lineno =>
                 self_suggestions_append (syntax_suggestion text lineno) ;;
                 ret None) ;;
  match parsed with
  | None => get_self_suggestions
  | Some tree =>
      run_checks tree code_snippet ;;
      get_self_suggestions
  end.

End Analyzer.

(** Induction on trees: a property that holds of a node as soon as it holds
    of its children holds of every node. *)
Section TreeInduction.

Variable P : ast -> Prop.
Hypothesis step : forall node, Forall P (iter_child_nodes node) -> P node.

Let app_all (l1 l2 : list ast) (H1 : Forall P l1) (H2 : Forall P l2) :
  Forall P (l1 ++ l2) := proj2 (Forall_app P l1 l2) (conj H1 H2).

Fixpoint ast_children_ind (node : ast) {struct node} : P node :=
  let many := fix many (l : list ast) : Forall P l :=
    match l with
    | [] => Forall_nil P
    | x :: r => Forall_cons x (ast_children_ind x) (many r)
    end in
  let one := fun x : ast => Forall_cons x (ast_children_ind x) (Forall_nil P) in
  let opt := fun o : option ast =>
    match o return Forall P (opt_node o) with
    | Some x => one x
    | None => Forall_nil P
    end in
  let many_opt := fix many_opt (l : list (option ast)) : Forall P (opt_nodes l) :=
    match l return Forall P (opt_nodes l) with
    | [] => Forall_nil P
    | o :: r => app_all (opt o) (many_opt r)
    end in
  let below := fun a : arguments_of ast =>
    match a return Forall P (arguments_children a) with
    | mk_arguments p ar v ko kd kw d =>
        app_all (many p) (app_all (many ar) (app_all (opt v) (app_all (many ko)
          (app_all (many_opt kd) (app_all (opt kw) (many d))))))
    end in
  step node
    (match node return Forall P (iter_child_nodes node) with
     | Module_ body => many body
     | FunctionDef _ a body decorator_list returns _ _
     | AsyncFunctionDef _ a body decorator_list returns _ _ =>
         Forall_cons (arguments a) (step (arguments a) (below a))
           (app_all (many body) (app_all (many decorator_list) (opt returns)))
     | arguments a => below a
     | ClassDef _ bases keywords body decorator_list _ =>
         app_all (many bases) (app_all (many keywords)
           (app_all (many body) (many decorator_list)))
     | Assign targets value _ => app_all (many targets) (one value)
     | AugAssign target op value =>
         Forall_cons target (ast_children_ind target)
           (Forall_cons op (ast_children_ind op) (one value))
     | For target iter body orelse _ =>
         Forall_cons target (ast_children_ind target)
           (Forall_cons iter (ast_children_ind iter)
              (app_all (many body) (many orelse)))
     | While test body orelse _ =>
         Forall_cons test (ast_children_ind test) (app_all (many body) (many orelse))
     | If test body orelse =>
         Forall_cons test (ast_children_ind test) (app_all (many body) (many orelse))
     | ExceptHandler exc_type body _ => app_all (opt exc_type) (many body)
     | Global _ _ => Forall_nil P
     | BoolOp op values => Forall_cons op (ast_children_ind op) (many values)
     | Name _ ctx => one ctx
     | List_ elts ctx => app_all (many elts) (one ctx)
     | Dict keys values => app_all (many_opt keys) (many values)
     | Set_ elts => many elts
     | Add => Forall_nil P
     | Other _ children => many children
     end).

End TreeInduction.

(** The number of nodes in a queue of trees. *)
Definition total (todo : list ast) : nat := list_sum (map size todo).

(** ** What a method appends

    [appends c l]: whatever the world, running [c] returns normally and
    changes nothing but the list bound to [self.suggestions], at whose end
    it has put the items of [l]. *)
Definition push_all (l : list Suggestion) (w : World) : World :=
  mkWorld (alter_at (self_suggestions w) (fun old => (old ++ l)%list) (store w))
          (self_suggestions w).

Definition appends (c : Py unit) (l : list Suggestion) : Prop :=
  forall w, c w = (Returns tt, push_all l w).

(** The items [c] appends when it is run on an empty list. *)
Definition emitted (c : Py unit) : list Suggestion :=
  nth 0 (store (snd (c (mkWorld [[]] 0)))) [].

(** The findings of the five checks on a parsed snippet, in the order in
    which [analyze] runs them. *)
Definition findings (tree : ast) (code_snippet : string) : list Suggestion :=
  (flat_map (fun node => emitted (naming_visit node)) (walk tree) ++
   flat_map (fun node => emitted (complexity_visit node)) (walk tree) ++
   flat_map (fun node => emitted (best_practices_visit node)) (walk tree) ++
   flat_map (fun node => emitted (performance_visit node)) (walk tree) ++
   flat_map (fun il => emitted (style_visit il)) (enumerate (split "010" code_snippet) 1))%list.

(** [emits_only P c]: [c] does nothing but append items that satisfy [P]. *)
Definition emits_only (P : Suggestion -> Prop) (c : Py unit) : Prop :=
  exists l, appends c l /\ Forall P l.

(** A finding of a check: its type is one of [types] and it has a line. *)
Definition finding_of (types : list string) (s : Suggestion) : Prop :=
  In (type s) types /\ line s <> None.

(** ** Sample snippets

    Some snippets, several of them from [tests/test_analyzer.py], with the
    trees that CPython's parser builds for them. *)

Definition nl : string := String "010" "".

Definition Load : ast := Other "Load" [].
Definition Store : ast := Other "Store" [].
Definition Pass : ast := Other "Pass" [].
Definition Constant : ast := Other "Constant" [].
Definition arg : ast := Other "arg" [].

Definition no_arguments : arguments_of ast := mk_arguments [] [] None [] [] None [].

Definition positional (params defaults : list ast) : arguments_of ast :=
  mk_arguments [] params None [] [] None defaults.

(** [def BadFunctionName(): pass], on two lines. *)
Definition bad_name_code : string := "def BadFunctionName():" ++ nl ++ "    pass".
Definition bad_name_tree : ast :=
  Module_ [FunctionDef "BadFunctionName" no_arguments [Pass] [] None 1 (Some 2%Z)].

(** The broken snippet of the tests. *)
Definition broken_code : string := "def broken(" ++ nl ++ "    pass".
Definition broken_error : PyException :=
  SyntaxError "'(' was never closed (<unknown>, line 1)" (Some 1%Z).

(** A function that returns a conjunction of eleven operands. *)
Definition conjunction_code : string :=
  "def f(a):" ++ nl ++
  "    return a and a and a and a and a and a and a and a and a and a and a".
Definition conjunction_def : ast :=
  FunctionDef "f" (positional [arg] [])
    [Other "Return" [BoolOp (Other "And" []) (repeat (Name "a" Load) 11)]]
    [] None 1 (Some 2%Z).
Definition conjunction_tree : ast := Module_ [conjunction_def].

(** The function of [test_analyzer_complexity], with six nested [if]. *)
Definition nested_code : string :=
  nl ++ "def complex_function(x, y, z):" ++ nl ++
  "    if x > 0:" ++ nl ++
  "        if y > 0:" ++ nl ++
  "            if z > 0:" ++ nl ++
  "                if x > y:" ++ nl ++
  "                    if y > z:" ++ nl ++
  "                        if z > 1:" ++ nl ++
  "                            return True" ++ nl ++
  "    return False" ++ nl.
Definition compare (l : string) (r : ast) : ast :=
  Other "Compare" [Name l Load; Other "Gt" []; r].
Definition nested_def : ast :=
  FunctionDef "complex_function" (positional [arg; arg; arg] [])
    [If (compare "x" Constant)
       [If (compare "y" Constant)
          [If (compare "z" Constant)
             [If (compare "x" (Name "y" Load))
                [If (compare "y" (Name "z" Load))
                   [If (compare "z" Constant) [Other "Return" [Constant]] []] []] []] []] []] [];
     Other "Return" [Constant]]
    [] None 2 (Some 10%Z).
Definition nested_tree : ast := Module_ [nested_def].

(** The function of [test_analyzer_valid_code]. *)
Definition sum_code : string :=
  nl ++ "def calculate_sum(numbers):" ++ nl ++
  "    total = 0" ++ nl ++
  "    for num in numbers:" ++ nl ++
  "        total += num" ++ nl ++
  "    return total" ++ nl.
Definition sum_loop : ast :=
  For (Name "num" Store) (Name "numbers" Load)
    [AugAssign (Name "total" Store) Add (Name "num" Load)] [] 4.
Definition sum_def : ast :=
  FunctionDef "calculate_sum" (positional [arg] [])
    [Assign [Name "total" Store] Constant 3; sum_loop;
     Other "Return" [Name "total" Load]]
    [] None 2 (Some 6%Z).
Definition sum_tree : ast := Module_ [sum_def].

(** A mutable default of a positional parameter, and one of a keyword-only
    parameter. *)
Definition mutable_default_code : string := "def f(x=[]):" ++ nl ++ "    pass".
Definition mutable_default_def : ast :=
  FunctionDef "f" (positional [arg] [List_ [] Load]) [Pass] [] None 1 (Some 2%Z).
Definition mutable_default_tree : ast := Module_ [mutable_default_def].

Definition keyword_default_code : string := "def f(*, x=[]):" ++ nl ++ "    pass".
Definition keyword_default_def : ast :=
  FunctionDef "f" (mk_arguments [] [] None [arg] [Some (List_ [] Load)] None [])
    [Pass] [] None 1 (Some 2%Z).
Definition keyword_default_tree : ast := Module_ [keyword_default_def].

(** Assignments without spaces around [=]. *)
Definition tight_code : string := "total=1".
Definition tight_tree : ast := Module_ [Assign [Name "total" Store] Constant 1].

Definition conditional_code : string := "x=1 if a==b else 2".
Definition conditional_tree : ast :=
  Module_ [Assign [Name "x" Store]
             (Other "IfExp" [Other "Compare" [Name "a" Load; Other "Eq" []; Name "b" Load];
                             Constant; Constant]) 1].

Definition keywords_code : string := "f(a=1,b=2)".
Definition keywords_tree : ast :=
  Module_ [Other "Expr" [Other "Call" [Name "f" Load;
                                       Other "keyword" [Constant];
                                       Other "keyword" [Constant]]]].

Definition indented_code : string := "if a:" ++ nl ++ "    total=1".
Definition indented_tree : ast :=
  Module_ [If (Name "a" Load) [Assign [Name "total" Store] Constant 2] []].

(** A function whose body is [n] lines of [pass]: it stands on [n + 1]
    lines. *)
Definition long_code (n : nat) : string :=
  "def f():" ++ String.concat "" (repeat (nl ++ "    pass") n).
Definition long_def (n : nat) : ast :=
  FunctionDef "f" no_arguments (repeat Pass n) [] None 1 (Some (Z.of_nat n + 1)%Z).
Definition long_tree (n : nat) : ast := Module_ [long_def n].

(** A parser that knows the snippets above and the empty program, and
    that answers any other text with a [SyntaxError]. *)
Definition sample_table : list (string * outcome ast) :=
  [ ("", Returns (Module_ []));
    (bad_name_code, Returns bad_name_tree);
    (broken_code, Raises broken_error);
    (conjunction_code, Returns conjunction_tree);
    (nested_code, Returns nested_tree);
    (sum_code, Returns sum_tree);
    (mutable_default_code, Returns mutable_default_tree);
    (keyword_default_code, Returns keyword_default_tree);
    (tight_code, Returns tight_tree);
    (conditional_code, Returns conditional_tree);
    (keywords_code, Returns keywords_tree);
    (indented_code, Returns indented_tree);
    (long_code 50, Returns (long_tree 50));
    (long_code 51, Returns (long_tree 51)) ].

Fixpoint lookup (table : list (string * outcome ast)) (code : string) : outcome ast :=
  match table with
  | [] => Raises (SyntaxError "invalid syntax (<unknown>, line 1)" (Some 1%Z))
  | (text, answer) :: rest => if String.eqb code text then answer else lookup rest code
  end.

Definition sample_parse (code : string) : outcome ast := lookup sample_table code.

(** An analyzer that has not been used yet: [__init__] has bound
    [self.suggestions] to an empty list. *)
Definition new_analyzer : World := mkWorld [[]] 0.

(** ** The specification's words *)

(** The snake_case conversion of a name: an underscore is put before each
    upper-case letter other than the first character, and the whole is
    lower-cased. *)
Fixpoint underscore_uppercase (s : string) : string :=
  match s with
  | EmptyString => EmptyString
  | String c r =>
      if is_AZ c then String "_" (String c (underscore_uppercase r))
      else String c (underscore_uppercase r)
  end.

Definition snake_case_conversion (name : string) : string :=
  lower (match name with
         | EmptyString => EmptyString
         | String c r => String c (underscore_uppercase r)
         end).







Definition high_complexity_suggestion (name : string) (complexity lineno : Z) : Suggestion :=
  mkSuggestion "complexity" "high"
    ("Function '" ++ name ++ "' has high complexity (" ++ str_of_int complexity ++
     "). Consider refactoring.")
    (Some lineno) None.

(** The subtree of a loop holds an augmented addition to a plain name. *)
Definition accumulates (loop : ast) : Prop :=
  exists x, in_subtree x loop /\ is_augmented_add_to_name x = true.

Definition loop_lineno (loop : ast) : Z :=
  match loop with
  | For _ _ _ _ lineno | While _ _ _ lineno => lineno
  | _ => 0
  end.

Definition performance_suggestion (lineno : Z) : Suggestion :=
  mkSuggestion "performance" "medium"
    "String concatenation in loop detected. Consider using join() or list comprehension."
    (Some lineno)
    (Some ("# Use join instead:" ++ nl ++ "result = ''.join(items)" ++ nl ++
           "# or list comprehension:" ++ nl ++
           "result = ''.join([str(item) for item in items])")).

Definition is_performance (s : Suggestion) : bool := String.eqb (type s) "performance".

(** The lines of a text with their numbers, from 1. *)
Definition numbered_lines (code : string) : list (Z * string) :=
  enumerate (split "010" code) 1.

(** A loop whose walk meets an augmented addition to a plain name. *)
Definition accumulating_loop (node : ast) : bool :=
  isinstance_loop node && existsb is_augmented_add_to_name (walk node).





(** The claim that no call raises, as the specification states it. *)
Definition stated_never_raises (parse : string -> outcome ast) : Prop :=
  forall code w, exists a w', analyze parse code w = (Returns a, w').

(** [ast.parse] of CPython up to 3.11 answers a text that holds a null
    character with [ValueError]; on other texts this parser is the sample
    parser. *)
Definition null_byte : string := String "000" "".

Definition parse_311 (code : string) : outcome ast :=
  if contains null_byte code
  then Raises (OtherException "ValueError" "source code string cannot contain null bytes")
  else sample_parse code.

(** The claim on syntax suggestions, as the specification states it:
    whatever the input, the result holds a suggestion of type [syntax]
    exactly when the input fails to parse, that is, when the parser
    raises. *)
Definition stated_syntax_claim (parse : string -> outcome ast) : Prop :=
  forall code w,
    (exists e, parse code = Raises e) <->
    (exists l s, returned_list (analyze parse code w) = Some l /\ In s l /\
                 type s = "syntax").











(** ** More words for the properties of the checks *)

(** Every character of a text satisfies [p]. *)
Fixpoint all_char (p : ascii -> bool) (s : string) : bool :=
  match s with
  | EmptyString => true
  | String c r => p c && all_char p r
  end.

(** [s.isascii()]: every character of the text has a code point below
    128.  On such a text [is_word], [is_space], [lower], [capitalize],
    [isupper], [islower] and [len] are what [re] and the [str] methods of
    Python compute. *)
Definition isascii (s : string) : bool := all_char (fun c => (ord c <? 128)%nat) s.

(** The targets of an assignment that are plain names are written in
    ASCII. *)
Definition ascii_names (targets : list ast) : bool :=
  forallb (fun target =>
             match target with
             | Name id _ => isascii id
             | _ => true
             end) targets.

(** The suggestion about a mutable default of function [name], and the
    test that tells such suggestions from the others. *)
Definition mutable_default_suggestion (name : string) (lineno : Z) : Suggestion :=
  mkSuggestion "best_practice" "high"
    ("Avoid mutable default arguments in function '" ++ name ++ "'. Use None instead.")
    (Some lineno)
    (Some ("def function_name(param=None):" ++ nl ++
           "    if param is None:" ++ nl ++ "        param = []")).

Definition is_mutable_default_suggestion (s : Suggestion) : bool :=
  String.eqb (type s) "best_practice" &&
  startswith "Avoid mutable default arguments" (message s).

(** The list, dict and set literals among the defaults of the positional
    parameters of a function defined with [def]. *)
Definition mutable_defaults (node : ast) : list ast :=
  match node with
  | FunctionDef _ a _ _ _ _ _ => filter isinstance_mutable_literal (defaults a)
  | _ => []
  end.

(** A text without its white space. *)
Fixpoint remove_spaces (s : string) : string :=
  match s with
  | EmptyString => EmptyString
  | String c r => if is_space c then remove_spaces r else String c (remove_spaces r)
  end.

(** The last character of a text. *)
Fixpoint last_char (s : string) : option ascii :=
  match s with
  | EmptyString => None
  | String c EmptyString => Some c
  | String _ r => last_char r
  end.

(** A name that is one letter of [[a-z]]. *)
Definition is_single_lowercase (name : string) : bool :=
  match name with
  | String c EmptyString => is_az c
  | _ => false
  end.

(** An identifier written in ASCII: a letter or an underscore, then word
    characters. *)
Definition ascii_identifier (name : string) : bool :=
  match name with
  | EmptyString => false
  | String c r => (is_az c || is_AZ c || is_underscore c) && all_char is_word r
  end.

Definition suggestion_types : list string :=
  ["style"; "performance"; "complexity"; "best_practice"; "readability"; "syntax"].

Definition severities : list string := ["low"; "medium"; "high"].

(** [[_\s]], the separators of [re.split] in the class-name check. *)
Definition is_word_separator (c : ascii) : bool := is_underscore c || is_space c.

(** The PascalCase conversion of the class-name check. *)
Definition pascal_case_conversion (name : string) : string :=
  join "" (map capitalize (re_split_words false "" name)).

(** * The REST endpoints of [app/api/routes.py]

    The endpoints talk to a PostgreSQL database through [asyncpg].  The
    database is a parameter: it says what each call returns or raises,
    and the calls an endpoint makes are written down in order, so that
    one can tell which ones it makes.  What a call raises is an instance
    of [Exception] or of another class that derives from [BaseException],
    such as the [asyncio.CancelledError] that an [await] raises when the
    request is cancelled; the [except Exception] clauses of the endpoints
    catch the former only. *)

Module Routes.

Definition datetime := string.

(** The arguments of a query. *)
Inductive SqlArg : Type :=
| SqlText (s : string)
| SqlInt (n : Z)
| SqlTime (t : datetime).

(** A row of [analysis_history], with the column [suggestions_count] that
    the listing query adds. *)
Record Row : Type := mkRow {
  id : Z;
  code_snippet : string;
  suggestions : string;
  created_at : datetime;
  suggestions_count : Z
}.

Inductive DbCall : Type :=
| GetDbConnection
| Fetchrow (query : string) (arguments : list SqlArg)
| Fetchval (query : string)
| Fetch (query : string) (arguments : list SqlArg)
| Close.

(** What the database answers. *)
Record Database : Type := mkDatabase {
  get_db_connection_answer : outcome unit;
  fetchrow_answer : string -> list SqlArg -> outcome (option Row);
  fetchval_answer : string -> outcome Z;
  fetch_answer : string -> list SqlArg -> outcome (list Row);
  close_answer : outcome unit
}.

(** What an endpoint raises: an exception object of Python or of a
    library, or the [HTTPException] of FastAPI. *)
Inductive Raised : Type :=
| BaseException_ (e : PyException)
| HTTPException (status_code : Z) (detail : string).

(** The module-level [code_analyzer] and the calls made to the database
    so far. *)
Record Server : Type := mkServer {
  code_analyzer : World;
  calls : list DbCall
}.

Definition Handler (A : Type) : Type := Server -> (A + Raised) * Server.

Definition ret {A : Type} (a : A) : Handler A := fun sv => (inl a, sv).

Definition raise {A : Type} (e : Raised) : Handler A := fun sv => (inr e, sv).

Definition bind {A B : Type} (c : Handler A) (k : A -> Handler B) : Handler B :=
  fun sv =>
    match c sv with
    | (inl a, sv') => k a sv'
    | (inr e, sv') => (inr e, sv')
    end.

Notation "x <-- c ;;; k" := (bind c (fun x => k))
  (at level 61, c at next level, right associativity).
Notation "c ;;; k" := (bind c (fun _ => k))
  (at level 61, right associativity).

(** [try: body finally: final]: [final] runs whatever [body] does, and
    what it raises replaces the outcome of [body]. *)
Definition try_finally {A : Type} (body : Handler A) (final : Handler unit) : Handler A :=
  fun sv =>
    match body sv with
    | (r, sv') =>
        match final sv' with
        | (inl _, sv'') => (r, sv'')
        | (inr e, sv'') => (inr e, sv'')
        end
    end.

(** The built-in classes that derive from [BaseException] and not from
    [Exception]. *)
Definition outside_Exception : list string :=
  ["BaseException"; "BaseExceptionGroup"; "CancelledError"; "GeneratorExit";
   "KeyboardInterrupt"; "SystemExit"].

(** [isinstance(e, Exception)]: [SyntaxError] and [HTTPException] derive
    from [Exception]; an object of another class is told by the name of
    its class. *)
Definition isinstance_Exception (e : Raised) : bool :=
  match e with
  | HTTPException _ _ => true
  | BaseException_ (SyntaxError _ _) => true
  | BaseException_ (OtherException cls _) =>
      negb (existsb (String.eqb cls) outside_Exception)
  end.

(** [try: body except Exception as e: handler], where [handler] may start
    with the clause [except HTTPException]: what [body] raises goes to
    [handler] when it is an instance of [Exception], and through the
    statement otherwise. *)
Definition try_except {A : Type} (body : Handler A) (handler : Raised -> Handler A) :
    Handler A :=
  fun sv =>
    match body sv with
    | (inl a, sv') => (inl a, sv')
    | (inr e, sv') => if isinstance_Exception e then handler e sv' else (inr e, sv')
    end.

(** A call to the database: it is written down and the database
    answers. *)
Definition db_call {A : Type} (call : DbCall) (answer : outcome A) : Handler A :=
  fun sv =>
    (match answer with
     | Returns a => inl a
     | Raises e => inr (BaseException_ e)
     end,
     mkServer (code_analyzer sv) (calls sv ++ [call])).

(** [str(e)] of an exception of Python. *)
Definition exception_text (e : PyException) : string :=
  match e with
  | SyntaxError text _ => text
  | OtherException _ text => text
  end.

Definition HTTP_404_NOT_FOUND : Z := 404.
Definition HTTP_500_INTERNAL_SERVER_ERROR : Z := 500.

Record CodeAnalysisResponse : Type := mkCodeAnalysisResponse {
  analysis_id : Z;
  response_code_snippet : string;
  response_suggestions : list Suggestion;
  analyzed_at : datetime;
  summary : string;
  has_suggestions : bool
}.

Record HealthResponse : Type := mkHealthResponse {
  status : string;
  timestamp : datetime;
  database : string;
  version : string
}.

(** The dictionary [list_all_analyses] returns. *)
Record Listing : Type := mkListing {
  total : Z;
  limit : Z;
  offset : Z;
  count : Z;
  analyses : list Row
}.

(** The number of suggestions of a severity. *)
Definition count_severity (level : string) (suggestions : list Suggestion) : Z :=
  Z.of_nat (List.length (filter (fun s => String.eqb (severity s) level) suggestions)).

(** The summary [analyze_code] writes. *)
Definition make_summary (suggestions : list Suggestion) : string :=
  match suggestions with
  | [] => "Code looks good! No issues found."
  | _ =>
      let high_count := count_severity "high" suggestions in
      let medium_count := count_severity "medium" suggestions in
      let low_count := count_severity "low" suggestions in
      let summary :=
        "Found " ++ str_of_int (Z.of_nat (List.length suggestions)) ++ " suggestion(s): " in
      let parts : list string := [] in
      let parts :=
        if (0 <? high_count)%Z
        then (parts ++ [(str_of_int high_count ++ " high priority")%string])%list
        else parts in
      let parts :=
        if (0 <? medium_count)%Z
        then (parts ++ [(str_of_int medium_count ++ " medium priority")%string])%list
        else parts in
      let parts :=
        if (0 <? low_count)%Z
        then (parts ++ [(str_of_int low_count ++ " low priority")%string])%list
        else parts in
      summary ++ join ", " parts
  end.

Definition insert_query : string := "
                INSERT INTO analysis_history (code_snippet, suggestions, created_at)
                VALUES ($1, $2::jsonb, $3)
                RETURNING id, created_at
            ".

Definition count_query : string := "SELECT COUNT(*) FROM analysis_history".

Definition page_query (order_clause : string) : string := "
                SELECT
                    id,
                    code_snippet,
                    suggestions,
                    created_at,
                    jsonb_array_length(suggestions) as suggestions_count
                FROM analysis_history
                ORDER BY " ++ order_clause ++ "
                LIMIT $1 OFFSET $2
            ".

Definition select_query : string := "
                SELECT id, code_snippet, suggestions, created_at
                FROM analysis_history
                WHERE id = $1
            ".

Definition order_mapping : list (string * string) :=
  [ ("created_at_desc", "created_at DESC");
    ("created_at_asc", "created_at ASC");
    ("id_desc", "id DESC");
    ("id_asc", "id ASC") ].

(** [mapping.get(key, default)]. *)
Fixpoint dict_get (mapping : list (string * string)) (key default : string) : string :=
  match mapping with
  | [] => default
  | (k, v) :: rest => if String.eqb k key then v else dict_get rest key default
  end.

Section Endpoints.

Variable ast_parse : string -> outcome ast.
Variable db : Database.

(** [json.dumps([s.dict() for s in suggestions])]. *)
Variable json_dumps : list Suggestion -> string.

(** [datetime.utcnow()]. *)
Variable utcnow : datetime.

(** [str(e)] of an [HTTPException]. *)
Variable http_exception_text : Z -> string -> string.

Definition str (e : Raised) : string :=
  match e with
  | BaseException_ e => exception_text e
  | HTTPException status_code detail => http_exception_text status_code detail
  end.

(** [code_analyzer.analyze(code)], as the list it returns. *)
Definition code_analyzer_analyze (code : string) : Handler (list Suggestion) :=
  fun sv =>
    match analyze ast_parse code (code_analyzer sv) with
    | (Returns a, w) => (inl (nth a (store w) []), mkServer w (calls sv))
    | (Raises e, w) => (inr (BaseException_ e), mkServer w (calls sv))
    end.

(** [result['id']] and [result['created_at']] of a row that may be
    [None]. *)
Definition subscript {A : Type} (result : option Row) (column : Row -> A) : Handler A :=
  match result with
  | Some row => ret (column row)
  | None =>
      raise (BaseException_ (OtherException "TypeError"
                           "'NoneType' object is not subscriptable"))
  end.

Definition analyze_code (request_code_snippet : string) : Handler CodeAnalysisResponse :=
  try_except
    (suggestions <-- code_analyzer_analyze request_code_snippet ;;;
     db_call GetDbConnection (get_db_connection_answer db) ;;;
     try_finally
       (let suggestions_json := json_dumps suggestions in
        let arguments :=
          [SqlText request_code_snippet; SqlText suggestions_json; SqlTime utcnow] in
        result <-- db_call (Fetchrow insert_query arguments)
                     (fetchrow_answer db insert_query arguments) ;;;
        analysis_id <-- subscript result id ;;;
        created_at <-- subscript result created_at ;;;
        ret (mkCodeAnalysisResponse analysis_id request_code_snippet suggestions
               created_at (make_summary suggestions)
               (0 <? Z.of_nat (List.length suggestions))%Z))
       (db_call Close (close_answer db)))
    (fun e =>
       raise (HTTPException HTTP_500_INTERNAL_SERVER_ERROR
                ("Error analyzing code: " ++ str e))).

Definition health_check : Handler HealthResponse :=
  let db_status := "disconnected" in
  db_status <--
    try_except
      (db_call GetDbConnection (get_db_connection_answer db) ;;;
       db_call (Fetchval "SELECT 1") (fetchval_answer db "SELECT 1") ;;;
       let db_status := "connected" in
       db_call Close (close_answer db) ;;;
       ret db_status)
      (fun _ =>
         let db_status := "error" in
         ret db_status) ;;;
  ret (mkHealthResponse (if String.eqb db_status "connected" then "ok" else "degraded")
         utcnow db_status "1.0.0").

Definition list_all_analyses (limit offset : Z) (order_by : string) : Handler Listing :=
  try_except
    (let limit := if (100 <? limit)%Z then 100%Z else limit in
     let limit := if (limit <? 1)%Z then 1%Z else limit in
     let order_clause := dict_get order_mapping order_by "created_at DESC" in
     db_call GetDbConnection (get_db_connection_answer db) ;;;
     try_finally
       (total_count <-- db_call (Fetchval count_query) (fetchval_answer db count_query) ;;;
        let query := page_query order_clause in
        let arguments := [SqlInt limit; SqlInt offset] in
        results <-- db_call (Fetch query arguments) (fetch_answer db query arguments) ;;;
        let analyses := results in
        ret (mkListing total_count limit offset (Z.of_nat (List.length analyses)) analyses))
       (db_call Close (close_answer db)))
    (fun e =>
       raise (HTTPException HTTP_500_INTERNAL_SERVER_ERROR
                ("Error listing analyses: " ++ str e))).

Definition get_analysis_history (analysis_id : Z) : Handler Row :=
  try_except
    (db_call GetDbConnection (get_db_connection_answer db) ;;;
     try_finally
       (let arguments := [SqlInt analysis_id] in
        result <-- db_call (Fetchrow select_query arguments)
                     (fetchrow_answer db select_query arguments) ;;;
        match result with
        | None =>
            raise (HTTPException HTTP_404_NOT_FOUND
                     ("Analysis " ++ str_of_int analysis_id ++ " not found"))
        | Some row => ret row
        end)
       (db_call Close (close_answer db)))
    (fun e =>
       match e with
       | HTTPException _ _ => raise e
       | BaseException_ _ =>
           raise (HTTPException HTTP_500_INTERNAL_SERVER_ERROR
                    ("Error retrieving analysis: " ++ str e))
       end).

End Endpoints.

End Routes.

(** * The simulated Crew AI agent and workflow of [app/crew/integration.py]

    A task is a dictionary with fixed keys, to which [execute_task] adds
    the key [completed_at]; it is a record whose optional fields are the
    keys that may be absent or [None].  The dictionaries of [self.tasks]
    are changed in place and the list only grows, so that a task is named
    by its position in the list: that position is what the methods give
    back for "the task".  The clock is a parameter. *)

Module Integration.

Definition PENDING : string := "pending".
Definition IN_PROGRESS : string := "in_progress".
Definition COMPLETED : string := "completed".
Definition FAILED : string := "failed".

Record TaskResult : Type := mkTaskResult {
  result_status : string;
  result_message : string;
  suggestions_count : Z;
  endpoint_called : string
}.

Record Task : Type := mkTask {
  task_id : string;
  task_agent_id : string;
  description : string;
  code_snippet : string;
  expected_output : string;
  status : string;
  created_at : string;
  result : option TaskResult;
  completed_at : option string
}.

Record CrewAIAgent : Type := mkCrewAIAgent {
  agent_id : string;
  role : string;
  goal : string;
  backstory : string;
  tasks : list Task
}.

(** [CrewAIAgent(...)], with the default arguments when none is given. *)
Definition new_agent (agent_id role goal backstory : string) : CrewAIAgent :=
  mkCrewAIAgent agent_id role goal backstory [].

Definition default_agent : CrewAIAgent :=
  new_agent "code-advisor-001" "Code Quality Specialist"
    "Analyze Python code and provide optimization suggestions"
    "Expert Python developer with deep knowledge of PEP 8 and best practices".

Definition set_tasks (self : CrewAIAgent) (tasks : list Task) : CrewAIAgent :=
  mkCrewAIAgent (agent_id self) (role self) (goal self) (backstory self) tasks.

(** [create_task]; [now] is [datetime.utcnow().isoformat()]. *)
Definition create_task (now description code_snippet expected_output : string)
    (self : CrewAIAgent) : nat * CrewAIAgent :=
  let task :=
    mkTask ("task-" ++ str_of_int (Z.of_nat (List.length (tasks self)) + 1))
      (agent_id self) description code_snippet expected_output PENDING now None None in
  (List.length (tasks self), set_tasks self (tasks self ++ [task])).

(** [next((t for t in self.tasks if t["task_id"] == task_id), None)], as
    the position of the task found. *)
Fixpoint find_task (tasks : list Task) (wanted : string) : option nat :=
  match tasks with
  | [] => None
  | t :: rest =>
      if String.eqb (task_id t) wanted then Some 0%nat
      else option_map S (find_task rest wanted)
  end.

Definition set_status (value : string) (t : Task) : Task :=
  mkTask (task_id t) (task_agent_id t) (description t) (code_snippet t)
    (expected_output t) value (created_at t) (result t) (completed_at t).

Definition set_result (value : TaskResult) (t : Task) : Task :=
  mkTask (task_id t) (task_agent_id t) (description t) (code_snippet t)
    (expected_output t) (status t) (created_at t) (Some value) (completed_at t).

Definition set_completed_at (value : string) (t : Task) : Task :=
  mkTask (task_id t) (task_agent_id t) (description t) (code_snippet t)
    (expected_output t) (status t) (created_at t) (result t) (Some value).

Definition mock_result : TaskResult :=
  mkTaskResult "completed" "Code analysis completed successfully" 3 "POST /analyze-code".

(** The four assignments of [execute_task] to the task it has found. *)
Definition run_task (now : string) (t : Task) : Task :=
  set_completed_at now (set_status COMPLETED (set_result mock_result
                                                (set_status IN_PROGRESS t))).

Definition execute_task (now wanted : string) (self : CrewAIAgent) :
    outcome nat * CrewAIAgent :=
  match find_task (tasks self) wanted with
  | None => (Raises (OtherException "ValueError" ("Task " ++ wanted ++ " not found")), self)
  | Some position =>
      (Returns position, set_tasks self (alter_at position (run_task now) (tasks self)))
  end.

Definition get_task_status (wanted : string) (self : CrewAIAgent) : string :=
  match find_task (tasks self) wanted with
  | Some position =>
      match nth_error (tasks self) position with
      | Some task => status task
      | None => "not_found"
      end
  | None => "not_found"
  end.

(** The tasks of an agent are numbered in the order of their creation. *)
Definition numbered (tasks : list Task) : Prop :=
  forall position t, nth_error tasks position = Some t ->
                     task_id t = "task-" ++ str_of_int (Z.of_nat position + 1).

(** A task is waiting, or it has been run. *)
Definition settled (t : Task) : Prop :=
  (status t = "pending" /\ result t = None /\ completed_at t = None) \/
  (status t = "completed" /\ result t = Some mock_result /\ completed_at t <> None).

(** The agents one gets from a new agent by calling its methods. *)
Inductive reachable (start : CrewAIAgent) : CrewAIAgent -> Prop :=
| reachable_start : reachable start start
| reachable_create : forall self now description code_snippet expected_output,
    reachable start self ->
    reachable start (snd (create_task now description code_snippet expected_output self))
| reachable_execute : forall self now wanted,
    reachable start self ->
    reachable start (snd (execute_task now wanted self)).

(** ** [CrewWorkflow] *)

(** The values of a step dictionary. *)
Inductive pyvalue : Type :=
| PyNone
| PyBool (b : bool)
| PyInt (n : Z)
| PyStr (s : string).

Definition dict := list (string * pyvalue).

Fixpoint lookup_key (d : dict) (key : string) : option pyvalue :=
  match d with
  | [] => None
  | (k, v) :: rest => if String.eqb k key then Some v else lookup_key rest key
  end.

(** [d[key]], which raises [KeyError] when the key is missing; the text of
    that error is the key between quotes. *)
Definition subscript (d : dict) (key : string) : outcome pyvalue :=
  match lookup_key d key with
  | Some v => Returns v
  | None => Raises (OtherException "KeyError" ("'" ++ key ++ "'"))
  end.

(** [a.role == value]. *)
Definition role_is (value : pyvalue) (a : CrewAIAgent) : bool :=
  match value with
  | PyStr s => String.eqb (role a) s
  | _ => false
  end.

Record StepResult : Type := mkStepResult {
  step : pyvalue;
  agent_role : pyvalue;
  action : pyvalue;
  step_status : string;
  timestamp : string;
  step_agent_id : option string;
  output : option string
}.

Record Results : Type := mkResults {
  workflow_name_of : string;
  started_at : string;
  steps_results : list StepResult;
  results_status : string;
  results_completed_at : option string;
  error : option string
}.

Record CrewWorkflow : Type := mkCrewWorkflow {
  workflow_name : string;
  agents : list CrewAIAgent;
  workflow_steps : list dict
}.

Definition new_workflow (workflow_name : string) : CrewWorkflow :=
  mkCrewWorkflow workflow_name [] [].

Definition add_agent (agent : CrewAIAgent) (self : CrewWorkflow) : CrewWorkflow :=
  mkCrewWorkflow (workflow_name self) (agents self ++ [agent]) (workflow_steps self).

Definition define_workflow (steps : list dict) (self : CrewWorkflow) : CrewWorkflow :=
  mkCrewWorkflow (workflow_name self) (agents self) steps.

Section Workflow.

(** [datetime.utcnow().isoformat()] at the n-th reading of the clock. *)
Variable utcnow : nat -> string.

(** The body of the loop of [execute_workflow] for one step, at clock
    reading [tick]. *)
Definition run_step (self : CrewWorkflow) (tick : nat) (current : dict) :
    outcome StepResult :=
  match subscript current "step" with
  | Raises e => Raises e
  | Returns step_value =>
      match subscript current "agent_role" with
      | Raises e => Raises e
      | Returns role_value =>
          match subscript current "action" with
          | Raises e => Raises e
          | Returns action_value =>
              let step_result :=
                mkStepResult step_value role_value action_value "completed"
                  (utcnow tick) None None in
              match find (role_is role_value) (agents self) with
              | Some agent =>
                  Returns (mkStepResult step_value role_value action_value "completed"
                             (utcnow tick) (Some (agent_id agent))
                             (Some ("Simulated output from " ++ role agent)))
              | None => Returns step_result
              end
          end
      end
  end.

(** The loop: the results so far, the clock reading, and the exception
    that has ended the loop if any. *)
Fixpoint run_steps (self : CrewWorkflow) (steps : list dict) (tick : nat)
    (done : list StepResult) : list StepResult * nat * option PyException :=
  match steps with
  | [] => (done, tick, None)
  | current :: rest =>
      match run_step self tick current with
      | Returns step_result => run_steps self rest (S tick) (done ++ [step_result])
      | Raises e => (done, tick, Some e)
      end
  end.

Definition execute_workflow (self : CrewWorkflow) : Results :=
  let started_at := utcnow 0 in
  match run_steps self (workflow_steps self) 1 [] with
  | (done, tick, None) =>
      mkResults (workflow_name self) started_at done "completed" (Some (utcnow tick)) None
  | (done, _, Some e) =>
      mkResults (workflow_name self) started_at done "failed" None
        (Some (Routes.exception_text e))
  end.

End Workflow.

(** The first of the keys [step], [agent_role] and [action] that a step
    lacks. *)
Definition missing_key (d : dict) : option string :=
  find (fun key => match lookup_key d key with Some _ => false | None => true end)
       ["step"; "agent_role"; "action"].

(** [r] is the result of step [d] in workflow [self]: it repeats the
    three values of the step, it is "completed", and it names the first
    agent added to the workflow whose role is the one of the step, when
    there is one. *)
Definition result_of_step (self : CrewWorkflow) (d : dict) (r : StepResult) : Prop :=
  lookup_key d "step" = Some (step r) /\
  lookup_key d "agent_role" = Some (agent_role r) /\
  lookup_key d "action" = Some (action r) /\
  step_status r = "completed" /\
  step_agent_id r = option_map agent_id (find (role_is (agent_role r)) (agents self)) /\
  output r = option_map (fun a => "Simulated output from " ++ role a)
                        (find (role_is (agent_role r)) (agents self)).

End Integration.

(** * The tasks of [app/crew/tasks.py]

    The clock is a parameter: [stamp] is the text of
    [datetime.utcnow().timestamp()] and [now] the value of
    [datetime.utcnow()] at the reading concerned. *)

Module Tasks.

Inductive TaskStatus : Type := PENDING | IN_PROGRESS | COMPLETED | FAILED.

Definition value (s : TaskStatus) : string :=
  match s with
  | PENDING => "pending"
  | IN_PROGRESS => "in_progress"
  | COMPLETED => "completed"
  | FAILED => "failed"
  end.

(** [given or default] for an optional text: [None] and the empty text
    are false. *)
Definition or_else (given : option string) (default : string) : string :=
  match given with
  | Some (String c r) => String c r
  | _ => default
  end.

(** The truth of [include_docs] and [include_tests], which the route
    passes as [None], [True] or [False]. *)
Definition truthy (flag : option bool) : bool :=
  match flag with
  | Some true => true
  | _ => false
  end.

(** The dictionary [CodeAnalysisTask.execute] returns. *)
Record Execution : Type := mkExecution {
  execution_status : string;
  message : string;
  endpoint : string;
  data_code_snippet : string
}.

Record CodeAnalysisTask : Type := mkCodeAnalysisTask {
  task_id : string;
  description : string;
  code_snippet : string;
  expected_output : string;
  agent_role : string;
  status : TaskStatus;
  created_at : string;
  result : option Execution
}.

Definition new_CodeAnalysisTask (stamp now : string) (code_snippet : string)
    (task_id description : option string) : CodeAnalysisTask :=
  mkCodeAnalysisTask (or_else task_id ("task-" ++ stamp))
    (or_else description "Analyze Python code for improvements")
    code_snippet "List of code improvement suggestions with severity and fixes"
    "Code Quality Specialist" PENDING now None.

Definition set_status (s : TaskStatus) (t : CodeAnalysisTask) : CodeAnalysisTask :=
  mkCodeAnalysisTask (task_id t) (description t) (code_snippet t) (expected_output t)
    (agent_role t) s (created_at t) (result t).

Definition set_result (r : Execution) (t : CodeAnalysisTask) : CodeAnalysisTask :=
  mkCodeAnalysisTask (task_id t) (description t) (code_snippet t) (expected_output t)
    (agent_role t) (status t) (created_at t) (Some r).

(** [CodeAnalysisTask.execute]: what it returns and the task
    afterwards. *)
Definition execute (self : CodeAnalysisTask) : Execution * CodeAnalysisTask :=
  let self := set_status IN_PROGRESS self in
  let self :=
    set_result (mkExecution "completed" "Code analysis completed" "POST /analyze-code"
                  (code_snippet self)) self in
  let self := set_status COMPLETED self in
  (match result self with
   | Some r => r
   | None => mkExecution "" "" "" ""
   end, self).

Record DocumentationTask : Type := mkDocumentationTask {
  doc_task_id : string;
  doc_description : string;
  doc_code_snippet : string;
  doc_type : string;
  doc_expected_output : string;
  doc_agent_role : string;
  doc_status : TaskStatus
}.

Definition new_DocumentationTask (stamp : string) (code_snippet doc_type : string)
    (task_id : option string) : DocumentationTask :=
  mkDocumentationTask (or_else task_id ("task-" ++ stamp))
    ("Generate " ++ doc_type ++ " for provided code") code_snippet doc_type
    (doc_type ++ " documentation") "Documentation Specialist" PENDING.

Record TestGenerationTask : Type := mkTestGenerationTask {
  test_task_id : string;
  test_description : string;
  test_code_snippet : string;
  test_framework : string;
  test_expected_output : string;
  test_agent_role : string;
  test_status : TaskStatus
}.

Definition new_TestGenerationTask (stamp : string) (code_snippet test_framework : string)
    (task_id : option string) : TestGenerationTask :=
  mkTestGenerationTask (or_else task_id ("task-" ++ stamp))
    ("Generate " ++ test_framework ++ " tests for provided code") code_snippet
    test_framework "Comprehensive unit tests" "Test Automation Specialist" PENDING.

(** The objects a review keeps in [self.subtasks]. *)
Inductive Subtask : Type :=
| Analysis (t : CodeAnalysisTask)
| Documentation (t : DocumentationTask)
| TestGeneration (t : TestGenerationTask).

Definition subtask_id (t : Subtask) : string :=
  match t with
  | Analysis t => task_id t
  | Documentation t => doc_task_id t
  | TestGeneration t => test_task_id t
  end.

Definition subtask_status (t : Subtask) : TaskStatus :=
  match t with
  | Analysis t => status t
  | Documentation t => doc_status t
  | TestGeneration t => test_status t
  end.

Definition subtask_code_snippet (t : Subtask) : string :=
  match t with
  | Analysis t => code_snippet t
  | Documentation t => doc_code_snippet t
  | TestGeneration t => test_code_snippet t
  end.

Record CodeReviewTask : Type := mkCodeReviewTask {
  review_task_id : string;
  review_description : string;
  review_code_snippet : string;
  include_docs : option bool;
  include_tests : option bool;
  subtasks : list Subtask;
  review_status : TaskStatus
}.

(** [CodeReviewTask._create_subtasks]; the clock is read for the creation
    time of the analysis, the identifiers are given. *)
Definition _create_subtasks (now stamp : string) (self : CodeReviewTask) : CodeReviewTask :=
  let subtasks :=
    (subtasks self ++
     [Analysis (new_CodeAnalysisTask stamp now (review_code_snippet self)
                  (Some (review_task_id self ++ "-analysis")%string) None)])%list in
  let subtasks :=
    if truthy (include_docs self)
    then (subtasks ++
          [Documentation (new_DocumentationTask stamp (review_code_snippet self)
                            "docstring" (Some (review_task_id self ++ "-docs")%string))])%list
    else subtasks in
  let subtasks :=
    if truthy (include_tests self)
    then (subtasks ++
          [TestGeneration (new_TestGenerationTask stamp (review_code_snippet self)
                             "pytest" (Some (review_task_id self ++ "-tests")%string))])%list
    else subtasks in
  mkCodeReviewTask (review_task_id self) (review_description self)
    (review_code_snippet self) (include_docs self) (include_tests self) subtasks
    (review_status self).

Definition new_CodeReviewTask (now stamp : string) (code_snippet : string)
    (include_docs include_tests : option bool) (task_id : option string) : CodeReviewTask :=
  _create_subtasks now stamp
    (mkCodeReviewTask (or_else task_id ("review-" ++ stamp))
       "Complete code review with analysis, docs, and tests" code_snippet
       include_docs include_tests [] PENDING).

(** The loop of [execute_all]: only an analysis has the method
    [execute]. *)
Fixpoint execute_each (subtasks : list Subtask) : list Execution * list Subtask :=
  match subtasks with
  | [] => ([], [])
  | Analysis t :: rest =>
      let (result, t') := execute t in
      let (results, rest') := execute_each rest in
      (result :: results, Analysis t' :: rest')
  | other :: rest =>
      let (results, rest') := execute_each rest in
      (results, other :: rest')
  end.

Definition execute_all (self : CodeReviewTask) : list Execution * CodeReviewTask :=
  let (results, subtasks) := execute_each (subtasks self) in
  (results,
   mkCodeReviewTask (review_task_id self) (review_description self)
     (review_code_snippet self) (include_docs self) (include_tests self) subtasks
     COMPLETED).

End Tasks.

(** ** More sample snippets *)

(** The long line of [test_analyzer_line_length]. *)
Definition long_line_code : string := "x = " ++ String.concat "" (repeat "1" 150).
Definition long_line_tree : ast := Module_ [Assign [Name "x" Store] Constant 1].

Definition trailing_code : string := "total = 1 ".
Definition trailing_tree : ast := Module_ [Assign [Name "total" Store] Constant 1].

Definition semicolon_code : string := "total = 1; count = 2".
Definition semicolon_tree : ast :=
  Module_ [Assign [Name "total" Store] Constant 1; Assign [Name "count" Store] Constant 1].

Definition class_code : string := "class my_class:" ++ nl ++ "    pass".
Definition class_tree : ast := Module_ [ClassDef "my_class" [] [] [Pass] [] 1].

(** The snippet of [test_analyzer_bare_except]. *)
Definition bare_except_code : string :=
  nl ++ "try:" ++ nl ++ "    risky_operation()" ++ nl ++ "except:" ++ nl ++ "    pass" ++ nl.
Definition bare_except_try : ast :=
  Other "Try" [Other "Expr" [Other "Call" [Name "risky_operation" Load]];
               ExceptHandler None [Pass] 4].
Definition bare_except_tree : ast := Module_ [bare_except_try].

Definition global_code : string :=
  "def f():" ++ nl ++ "    global counter" ++ nl ++ "    counter = 1".
Definition global_def : ast :=
  FunctionDef "f" no_arguments
    [Global ["counter"] 2; Assign [Name "counter" Store] Constant 3] [] None 1 (Some 3%Z).
Definition global_tree : ast := Module_ [global_def].

(** A coroutine with a name in PascalCase. *)
Definition async_name_code : string := "async def BadName():" ++ nl ++ "    pass".
Definition async_name_def : ast :=
  AsyncFunctionDef "BadName" no_arguments [Pass] [] None 1 (Some 2%Z).
Definition async_name_tree : ast := Module_ [async_name_def].

(** A coroutine with ten [if] statements. *)
Definition async_branches_code : string :=
  "async def f(a):" ++ String.concat "" (repeat (nl ++ "    if a: pass") 10).
Definition async_branches_def : ast :=
  AsyncFunctionDef "f" (positional [arg] []) (repeat (If (Name "a" Load) [Pass] []) 10)
    [] None 1 (Some 11%Z).
Definition async_branches_tree : ast := Module_ [async_branches_def].

(** A function that returns a chain of ten conditional expressions. *)
Fixpoint conditional_chain (n : nat) : ast :=
  match n with
  | O => Constant
  | S n' => Other "IfExp" [Name "a" Load; Constant; conditional_chain n']
  end.

Definition chain_code : string :=
  "def f(a):" ++ nl ++
  "    return (0 if a else 1 if a else 2 if a else 3 if a else 4 if a else" ++ nl ++
  "            5 if a else 6 if a else 7 if a else 8 if a else 9 if a else 10)".
Definition chain_def : ast :=
  FunctionDef "f" (positional [arg] []) [Other "Return" [conditional_chain 10]]
    [] None 1 (Some 3%Z).
Definition chain_tree : ast := Module_ [chain_def].

Definition more_samples : list (string * outcome ast) :=
  [ (long_line_code, Returns long_line_tree);
    (trailing_code, Returns trailing_tree);
    (semicolon_code, Returns semicolon_tree);
    (class_code, Returns class_tree);
    (bare_except_code, Returns bare_except_tree);
    (global_code, Returns global_tree);
    (async_name_code, Returns async_name_tree);
    (async_branches_code, Returns async_branches_tree);
    (chain_code, Returns chain_tree) ].

(** The sample parser, with these snippets too. *)
Definition sample_parse_more (code : string) : outcome ast :=
  lookup (more_samples ++ sample_table) code.

(** A database in which every call succeeds, and one that has no row and
    cannot insert. *)
Definition sample_row : Routes.Row :=
  Routes.mkRow 7 bad_name_code "[]" "2024-01-01T00:00:00" 0.

Definition sample_db : Routes.Database :=
  Routes.mkDatabase (Returns tt) (fun _ _ => Returns (Some sample_row))
    (fun _ => Returns 1%Z) (fun _ _ => Returns [sample_row]) (Returns tt).

Definition empty_db : Routes.Database :=
  Routes.mkDatabase (Returns tt) (fun _ _ => Returns None)
    (fun _ => Returns 0%Z) (fun _ _ => Returns []) (Returns tt).

Definition sample_json (l : list Suggestion) : string := "[...]".

Definition new_server : Routes.Server := Routes.mkServer new_analyzer [].

(** The workflow of the example in [integration.py], and one with a step
    that has no action. *)
Definition example_step : Integration.dict :=
  [ ("step", Integration.PyInt 1);
    ("agent_role", Integration.PyStr "Code Quality Specialist");
    ("action", Integration.PyStr "analyze_code");
    ("input", Integration.PyStr "code_snippet") ].

Definition incomplete_step : Integration.dict :=
  [ ("step", Integration.PyInt 2);
    ("agent_role", Integration.PyStr "Documentation Writer") ].

Definition example_workflow : Integration.CrewWorkflow :=
  Integration.define_workflow [example_step]
    (Integration.add_agent Integration.default_agent
       (Integration.new_workflow "Code Review Pipeline")).

Definition broken_workflow : Integration.CrewWorkflow :=
  Integration.define_workflow [example_step; incomplete_step; example_step]
    (Integration.add_agent Integration.default_agent
       (Integration.new_workflow "Code Review Pipeline")).

Definition sample_clock (n : nat) : string := "2024-01-01T00:00:0" ++ str_of_int (Z.of_nat n).

(** A database whose connection is cancelled while the endpoint waits
    for it. *)
Definition cancelled_db : Routes.Database :=
  Routes.mkDatabase (Raises (OtherException "CancelledError" ""))
    (fun _ _ => Returns None) (fun _ => Returns 0%Z) (fun _ _ => Returns []) (Returns tt).

(* ================================================================== *)
(** * Part II.  Properties *)
(* ================================================================== *)

(** ** Trees and [ast.walk] *)

Lemma sumZ_app (l1 l2 : list Z) : sumZ (l1 ++ l2) = (sumZ l1 + sumZ l2)%Z.
Proof.
  unfold sumZ. induction l1 as [|x l1 IH]; simpl; [reflexivity | rewrite IH; lia].
Qed.

Lemma subtree_sum_children (w : ast -> Z) (node : ast) :
  subtree_sum w node =
  (w node + sumZ (map (subtree_sum w) (iter_child_nodes node)))%Z.
Proof.
  assert (many : forall l : list ast,
    (fix many (l : list ast) : Z :=
       match l with
       | [] => 0%Z
       | x :: r => (subtree_sum w x + many r)%Z
       end) l = sumZ (map (subtree_sum w) l)).
  { induction l as [|x l IH]; simpl; [reflexivity | now rewrite IH]. }
  assert (opt : forall o : option ast,
    match o with Some x => subtree_sum w x | None => 0%Z end =
    sumZ (map (subtree_sum w) (opt_node o))).
  { intros [x|]; simpl; lia. }
  assert (many_opt : forall l : list (option ast),
    (fix many_opt (l : list (option ast)) : Z :=
       match l with
       | [] => 0%Z
       | o :: r =>
           (match o with Some x => subtree_sum w x | None => 0%Z end + many_opt r)%Z
       end) l = sumZ (map (subtree_sum w) (opt_nodes l))).
  { induction l as [|o l IH]; simpl; [reflexivity|].
    rewrite IH, map_app, sumZ_app, <- opt. reflexivity. }
  assert (below : forall a : arguments_of ast,
    subtree_sum w (arguments a) =
    (w (arguments a) + sumZ (map (subtree_sum w) (arguments_children a)))%Z).
  { intros [p ar v ko kd kw d]. unfold arguments_children.
    cbn [subtree_sum posonlyargs args vararg kwonlyargs kw_defaults kwarg defaults].
    rewrite !many, many_opt, !opt, !map_app, !sumZ_app. reflexivity. }
  destruct node as [body | name a body decos returns ln eln
                   | name a body decos returns ln eln | a
                   | name bases kws body decos ln
                   | targets value ln | target op value | target iter body orelse ln
                   | test body orelse ln | test body orelse | exc_type body ln | names ln
                   | op values | id ctx | elts ctx | keys values | elts | | cls children];
    try apply below.
  2,3: cbn [iter_child_nodes map sumZ fold_right]; fold sumZ; rewrite below;
       destruct a as [p ar v ko kd kw d]; unfold arguments_children;
       cbn [subtree_sum posonlyargs args vararg kwonlyargs kw_defaults kwarg defaults];
       rewrite !many, many_opt, !opt, !map_app, !sumZ_app; lia.
  all: cbn [subtree_sum iter_child_nodes];
    rewrite ?many, ?many_opt, ?opt;
    cbn [map sumZ fold_right];
    repeat (rewrite ?map_app, ?sumZ_app; cbn [map sumZ fold_right]);
    unfold sumZ; lia.
Qed.

Lemma node_count_positive (node : ast) : (1 <= subtree_sum (fun _ => 1) node)%Z.
Proof.
  induction node as [node IH] using ast_children_ind.
  rewrite subtree_sum_children.
  enough (0 <= sumZ (map (subtree_sum (fun _ => 1%Z)) (iter_child_nodes node)))%Z by lia.
  induction IH as [|c l Hc _ IHl]; simpl; lia.
Qed.

Lemma sum_sizes (l : list ast) :
  sumZ (map (subtree_sum (fun _ => 1%Z)) l) = Z.of_nat (total l).
Proof.
  unfold total, size. induction l as [|c l IH]; simpl; [reflexivity|].
  rewrite IH. pose proof (node_count_positive c). lia.
Qed.

Lemma size_children (node : ast) : size node = S (total (iter_child_nodes node)).
Proof.
  unfold size at 1. rewrite subtree_sum_children, sum_sizes. lia.
Qed.

Lemma total_app (l1 l2 : list ast) : total (l1 ++ l2) = total l1 + total l2.
Proof. unfold total. now rewrite map_app, list_sum_app. Qed.

Lemma total_cons (node : ast) (rest : list ast) :
  total (node :: rest) = S (total (rest ++ iter_child_nodes node)).
Proof.
  rewrite total_app. unfold total at 1. simpl. fold (total rest).
  rewrite size_children. lia.
Qed.

(** With enough fuel for every node of the queue, the walk yields exactly
    the nodes of the queued trees. *)
Lemma walk_queue_in (fuel : nat) : forall todo, total todo <= fuel ->
  forall x, In x (walk_queue fuel todo) <-> exists t, In t todo /\ in_subtree x t.
Proof.
  induction fuel as [|fuel IH]; intros todo Hfuel x.
  - destruct todo as [|node rest].
    + simpl. split; [tauto | intros (t & [] & _)].
    + rewrite total_cons in Hfuel. lia.
  - destruct todo as [|node rest].
    + simpl. split; [tauto | intros (t & [] & _)].
    + rewrite total_cons in Hfuel. simpl.
      rewrite (IH (rest ++ iter_child_nodes node)%list) by lia. split.
      * intros [<- | (t & Ht & Hx)].
        { exists node. split; [now left | constructor]. }
        apply in_app_or in Ht. destruct Ht as [Ht | Ht].
        { exists t. split; [now right | exact Hx]. }
        exists node. split; [now left | econstructor; eassumption].
      * intros (t & [<- | Ht] & Hx).
        { inversion Hx as [|node' child Hc Hx']; subst.
          - now left.
          - right. exists child. split; [apply in_or_app; now right | exact Hx']. }
        right. exists t. split; [apply in_or_app; now left | exact Hx].
Qed.

(** ... and a weight summed along the walk is the weight summed over the
    queued trees. *)
Lemma walk_queue_sum (w : ast -> Z) (fuel : nat) : forall todo, total todo <= fuel ->
  sumZ (map w (walk_queue fuel todo)) = sumZ (map (subtree_sum w) todo).
Proof.
  induction fuel as [|fuel IH]; intros todo Hfuel.
  - destruct todo as [|node rest]; [reflexivity|].
    rewrite total_cons in Hfuel. lia.
  - destruct todo as [|node rest]; [reflexivity|].
    rewrite total_cons in Hfuel. simpl.
    rewrite (IH (rest ++ iter_child_nodes node)%list) by lia.
    rewrite map_app, sumZ_app, (subtree_sum_children w node). lia.
Qed.

Lemma total_single (node : ast) : total [node] = size node.
Proof. unfold total. simpl. lia. Qed.

Lemma walk_in (node x : ast) : In x (walk node) <-> in_subtree x node.
Proof.
  unfold walk. rewrite walk_queue_in by (rewrite total_single; lia). split.
  - intros (t & [<- | []] & Hx). exact Hx.
  - intros Hx. exists node. split; [now left | exact Hx].
Qed.

Lemma walk_sum (w : ast -> Z) (node : ast) :
  sumZ (map w (walk node)) = subtree_sum w node.
Proof.
  unfold walk. rewrite walk_queue_sum by (rewrite total_single; lia).
  simpl. lia.
Qed.

(** More fuel than the size of the queue changes nothing: the walk has
    stopped because the queue is empty. *)
Lemma walk_queue_fuel (fuel : nat) : forall todo extra, total todo <= fuel ->
  walk_queue (fuel + extra) todo = walk_queue fuel todo.
Proof.
  induction fuel as [|fuel IH]; intros todo extra Hfuel.
  - destruct todo as [|node rest]; [now destruct extra|].
    rewrite total_cons in Hfuel. lia.
  - destruct todo as [|node rest]; [reflexivity|].
    rewrite total_cons in Hfuel. simpl. now rewrite IH by lia.
Qed.

Lemma walk_starts_with_node (node : ast) : exists rest, walk node = node :: rest.
Proof.
  unfold walk. rewrite size_children. simpl. eauto.
Qed.

(** ** The store and the lists the checks append to *)

Lemma alter_at_ext {A : Type} (f g : A -> A) (i : nat) (l : list A) :
  (forall x, f x = g x) -> alter_at i f l = alter_at i g l.
Proof.
  intros Hfg. revert i. induction l as [|x l IH]; intros [|i]; simpl;
    rewrite ?Hfg, ?(IH i); reflexivity.
Qed.

Lemma alter_at_twice {A : Type} (f g : A -> A) (i : nat) (l : list A) :
  alter_at i g (alter_at i f l) = alter_at i (fun x => g (f x)) l.
Proof.
  revert i. induction l as [|x l IH]; intros [|i]; simpl; rewrite ?IH; reflexivity.
Qed.

Lemma alter_at_same {A : Type} (i : nat) (l : list A) : alter_at i (fun x => x) l = l.
Proof.
  revert i. induction l as [|x l IH]; intros [|i]; simpl; rewrite ?IH; reflexivity.
Qed.

Lemma alter_at_last {A : Type} (f : A -> A) (l : list A) (x : A) :
  alter_at (List.length l) f (l ++ [x]) = (l ++ [f x])%list.
Proof. induction l as [|y l IH]; simpl; rewrite ?IH; reflexivity. Qed.

Lemma nth_error_last {A : Type} (l : list A) (x : A) :
  nth_error (l ++ [x]) (List.length l) = Some x.
Proof. induction l as [|y l IH]; simpl; [reflexivity | exact IH]. Qed.

Lemma nth_error_before {A : Type} (l : list A) (x : A) (i : nat) (y : A) :
  nth_error l i = Some y -> nth_error (l ++ [x]) i = Some y.
Proof.
  intros H. rewrite nth_error_app1; [exact H|].
  apply nth_error_Some. congruence.
Qed.

Lemma push_all_nil (w : World) : push_all [] w = w.
Proof.
  destruct w as [st a]. unfold push_all. simpl.
  rewrite (alter_at_ext (fun old => (old ++ [])%list) (fun x => x)), alter_at_same;
    [reflexivity | intros x; apply app_nil_r].
Qed.

Lemma push_all_app (l1 l2 : list Suggestion) (w : World) :
  push_all l2 (push_all l1 w) = push_all (l1 ++ l2) w.
Proof.
  unfold push_all. simpl. rewrite alter_at_twice. f_equal.
  apply alter_at_ext. intros x. symmetry. apply app_assoc.
Qed.

Lemma push_all_fresh (l : list Suggestion) (st : list (list Suggestion)) (old : list Suggestion) :
  push_all l (mkWorld (st ++ [old]) (List.length st)) =
  mkWorld (st ++ [(old ++ l)%list]) (List.length st).
Proof. unfold push_all. simpl. now rewrite alter_at_last. Qed.

Lemma appends_pass : appends pass [].
Proof. intros w. now rewrite push_all_nil. Qed.

Lemma appends_one (s : Suggestion) : appends (self_suggestions_append s) [s].
Proof. intros w. reflexivity. Qed.

Lemma appends_seq (c1 c2 : Py unit) (l1 l2 : list Suggestion) :
  appends c1 l1 -> appends c2 l2 -> appends (c1 ;; c2) (l1 ++ l2).
Proof.
  intros H1 H2 w. unfold bind. now rewrite H1, H2, push_all_app.
Qed.

Lemma appends_when (b : bool) (c : Py unit) (l : list Suggestion) :
  appends c l -> appends (when b c) (if b then l else []).
Proof. destruct b; simpl; [tauto | intros _; apply appends_pass]. Qed.

Lemma appends_for {A : Type} (body : A -> Py unit) (out : A -> list Suggestion) (xs : list A) :
  (forall x, appends (body x) (out x)) -> appends (for_ xs body) (flat_map out xs).
Proof.
  intros Hbody. induction xs as [|x xs IH]; simpl.
  - apply appends_pass.
  - now apply appends_seq.
Qed.

(** A loop that appends [s] at the first item satisfying [p] and then
    breaks appends [s] once if some item satisfies [p], and nothing
    otherwise. *)
Lemma appends_for_break {A : Type} (p : A -> bool) (s : Suggestion) (xs : list A) :
  appends (for_break xs (fun x => if p x then self_suggestions_append s ;; ret true
                                  else ret false))
          (if existsb p xs then [s] else []).
Proof.
  induction xs as [|x xs IH]; simpl.
  - apply appends_pass.
  - destruct (p x); simpl.
    + intros w. reflexivity.
    + intros w. unfold bind, ret. apply IH.
Qed.

Lemma appends_emitted (c : Py unit) (l : list Suggestion) : appends c l -> emitted c = l.
Proof. intros H. unfold emitted. now rewrite H. Qed.

Lemma appends_is_emitted (c : Py unit) (l : list Suggestion) :
  appends c l -> appends c (emitted c).
Proof. intros H. now rewrite (appends_emitted H). Qed.

Lemma emits_only_emitted (P : Suggestion -> Prop) (c : Py unit) :
  emits_only P c -> appends c (emitted c) /\ Forall P (emitted c).
Proof.
  intros (l & H & HP). rewrite (appends_emitted H). now split.
Qed.

Lemma emits_only_pass (P : Suggestion -> Prop) : emits_only P pass.
Proof. exists []. split; [apply appends_pass | constructor]. Qed.

Lemma emits_only_one (P : Suggestion -> Prop) (s : Suggestion) :
  P s -> emits_only P (self_suggestions_append s).
Proof. intros H. exists [s]. split; [apply appends_one | now repeat constructor]. Qed.

Lemma emits_only_seq (P : Suggestion -> Prop) (c1 c2 : Py unit) :
  emits_only P c1 -> emits_only P c2 -> emits_only P (c1 ;; c2).
Proof.
  intros (l1 & H1 & P1) (l2 & H2 & P2). exists (l1 ++ l2)%list.
  split; [apply (appends_seq H1 H2) | apply Forall_app; now split].
Qed.

Lemma emits_only_when (P : Suggestion -> Prop) (b : bool) (c : Py unit) :
  emits_only P c -> emits_only P (when b c).
Proof. destruct b; [tauto | intros _; apply emits_only_pass]. Qed.

Lemma emits_only_if (P : Suggestion -> Prop) (b : bool) (c1 c2 : Py unit) :
  emits_only P c1 -> emits_only P c2 -> emits_only P (if b then c1 else c2).
Proof. now destruct b. Qed.

Lemma emits_only_for {A : Type} (P : Suggestion -> Prop) (body : A -> Py unit) (xs : list A) :
  (forall x, emits_only P (body x)) -> emits_only P (for_ xs body).
Proof.
  intros Hbody. exists (flat_map (fun x => emitted (body x)) xs). split.
  - apply appends_for. intros x. apply (emits_only_emitted (Hbody x)).
  - apply Forall_flat_map, Forall_forall. intros x _.
    apply (emits_only_emitted (Hbody x)).
Qed.

Lemma emits_only_for_break {A : Type} (P : Suggestion -> Prop) (p : A -> bool)
    (s : Suggestion) (xs : list A) :
  P s ->
  emits_only P (for_break xs (fun x => if p x then self_suggestions_append s ;; ret true
                                       else ret false)).
Proof.
  intros H. eexists. split; [apply appends_for_break|].
  destruct (existsb p xs); now repeat constructor.
Qed.

(** Case analysis on a method body; what is left is to show [P] of each
    item the body can append. *)
Ltac emits_cases :=
  repeat first
    [ apply emits_only_pass | apply emits_only_seq
    | apply emits_only_when | apply emits_only_if
    | apply emits_only_for; intros ?
    | apply emits_only_for_break | apply emits_only_one
    | match goal with
      | |- emits_only _ (match ?x with _ => _ end) => destruct x
      | |- emits_only _ (let (_, _) := ?x in _) => destruct x
      end ].

Ltac finding_leaf := unfold finding_of; simpl; split; [auto | discriminate].

Lemma naming_visit_emits (node : ast) :
  emits_only (finding_of ["style"; "readability"]) (naming_visit node).
Proof. unfold naming_visit. emits_cases; finding_leaf. Qed.

Lemma complexity_visit_emits (node : ast) :
  emits_only (finding_of ["complexity"]) (complexity_visit node).
Proof. unfold complexity_visit. emits_cases; finding_leaf. Qed.

Lemma best_practices_visit_emits (node : ast) :
  emits_only (finding_of ["best_practice"]) (best_practices_visit node).
Proof. unfold best_practices_visit. emits_cases; finding_leaf. Qed.

Lemma performance_visit_emits (node : ast) :
  emits_only (finding_of ["performance"]) (performance_visit node).
Proof. unfold performance_visit. emits_cases; finding_leaf. Qed.

Lemma style_visit_emits (il : Z * string) :
  emits_only (finding_of ["style"]) (style_visit il).
Proof. unfold style_visit. emits_cases; finding_leaf. Qed.

Lemma run_checks_appends (tree : ast) (code : string) :
  appends (run_checks tree code) (findings tree code).
Proof.
  unfold run_checks, findings, _check_naming_conventions, _check_code_complexity,
    _check_best_practices, _check_performance_issues, _check_style_issues.
  repeat apply appends_seq; apply appends_for; intros x.
  - apply (emits_only_emitted (naming_visit_emits x)).
  - apply (emits_only_emitted (complexity_visit_emits x)).
  - apply (emits_only_emitted (best_practices_visit_emits x)).
  - apply (emits_only_emitted (performance_visit_emits x)).
  - apply (emits_only_emitted (style_visit_emits x)).
Qed.

Lemma finding_of_weaken (types types' : list string) (s : Suggestion) :
  incl types types' -> finding_of types s -> finding_of types' s.
Proof. intros Hincl [Ht Hl]. split; [now apply Hincl | exact Hl]. Qed.

Lemma Forall_flat_map_all {A B : Type} (P : B -> Prop) (f : A -> list B) (xs : list A) :
  (forall x, Forall P (f x)) -> Forall P (flat_map f xs).
Proof. intros H. apply Forall_flat_map, Forall_forall. intros x _. apply H. Qed.

(** Every finding has one of the five types of the checks, and a line. *)
Lemma findings_are_findings (tree : ast) (code : string) :
  Forall (finding_of ["style"; "readability"; "complexity"; "best_practice"; "performance"])
         (findings tree code).
Proof.
  unfold findings. repeat (apply Forall_app; split); apply Forall_flat_map_all; intros x.
  - eapply Forall_impl; [|apply (emits_only_emitted (naming_visit_emits x))].
    intros s. apply finding_of_weaken. intros t [<-|[<-|[]]]; simpl; auto.
  - eapply Forall_impl; [|apply (emits_only_emitted (complexity_visit_emits x))].
    intros s. apply finding_of_weaken. intros t [<-|[]]; simpl; auto.
  - eapply Forall_impl; [|apply (emits_only_emitted (best_practices_visit_emits x))].
    intros s. apply finding_of_weaken. intros t [<-|[]]; simpl; auto.
  - eapply Forall_impl; [|apply (emits_only_emitted (performance_visit_emits x))].
    intros s. apply finding_of_weaken. intros t [<-|[]]; simpl; auto 6.
  - eapply Forall_impl; [|apply (emits_only_emitted (style_visit_emits x))].
    intros s. apply finding_of_weaken. intros t [<-|[]]; simpl; auto.
Qed.

(** ** What a call of [analyze] does *)

Section AnalyzeRuns.

Variable ast_parse : string -> outcome ast.

(** The call allocates a list object at the first free address and binds
    it to [self.suggestions]; what the list holds at the end depends on
    the parser's answer alone. *)
Lemma analyze_run (code : string) (w : World) :
  analyze ast_parse code w =
  match ast_parse code with
  | Returns tree =>
      (Returns (List.length (store w)),
       mkWorld (store w ++ [findings tree code]) (List.length (store w)))
  | Raises (SyntaxError text lineno) =>
      (Returns (List.length (store w)),
       mkWorld (store w ++ [[syntax_suggestion text lineno]]) (List.length (store w)))
  | Raises e =>
      (Raises e, mkWorld (store w ++ [[]]) (List.length (store w)))
  end.
Proof.
  unfold analyze, bind, new_list, set_self_suggestions, try_except_SyntaxError,
    call_ast_parse, get_self_suggestions, ret. simpl.
  destruct (ast_parse code) as [tree | [text lineno | cls text]]; simpl.
  - rewrite run_checks_appends, push_all_fresh. reflexivity.
  - now rewrite alter_at_last.
  - reflexivity.
Qed.

Lemma analyze_returned_list (code : string) (w : World) :
  returned_list (analyze ast_parse code w) =
  match ast_parse code with
  | Returns tree => Some (findings tree code)
  | Raises (SyntaxError text lineno) => Some [syntax_suggestion text lineno]
  | Raises _ => None
  end.
Proof.
  rewrite analyze_run.
  destruct (ast_parse code) as [tree | [text lineno | cls text]]; simpl;
    try apply nth_error_last; reflexivity.
Qed.

End AnalyzeRuns.

(** ** The orchestrator *)

Section Orchestrator.

Variable ast_parse : string -> outcome ast.

(** C1, amended.  On a text for which the parser returns a tree or raises
    [SyntaxError], a suggestion of type [syntax] is in the result exactly
    when the parser has raised [SyntaxError].  In that case the call has
    done nothing but allocate the list and append that one suggestion, of
    severity [high], whose message ends with the text of the error: no
    check has appended anything.  When the parser returns a tree, no
    suggestion of the result has type [syntax].  When the parser raises
    an exception of another class the text has failed to parse too, but
    there is no result, and so no suggestion of type [syntax]. *)
Theorem syntax_suggestion_iff_parse_failure (code : string) (w : World) :
  (forall text lineno, ast_parse code = Raises (SyntaxError text lineno) ->
     analyze ast_parse code w =
       (Returns (List.length (store w)),
        mkWorld (store w ++ [[mkSuggestion "syntax" "high" ("Syntax error: " ++ text)
                                           lineno None]])
                (List.length (store w)))) /\
  (forall tree, ast_parse code = Returns tree ->
     exists l, returned_list (analyze ast_parse code w) = Some l /\
               forall s, In s l -> type s <> "syntax") /\
  (forall l, returned_list (analyze ast_parse code w) = Some l ->
     ((exists s, In s l /\ type s = "syntax") <->
      (exists text lineno, ast_parse code = Raises (SyntaxError text lineno))) /\
     (forall s, In s l -> type s = "syntax" ->
        l = [s] /\ severity s = "high" /\
        exists text lineno, ast_parse code = Raises (SyntaxError text lineno) /\
                            message s = "Syntax error: " ++ text /\ line s = lineno)) /\
  (forall cls text, ast_parse code = Raises (OtherException cls text) ->
     fst (analyze ast_parse code w) = Raises (OtherException cls text) /\
     returned_list (analyze ast_parse code w) = None).
Proof.
  assert (Hclean : forall tree s, In s (findings tree code) -> type s <> "syntax").
  { intros tree s Hs.
    pose proof (proj1 (Forall_forall _ _) (findings_are_findings tree code) s Hs) as [Ht _].
    intros Heq. rewrite Heq in Ht. simpl in Ht.
    repeat (destruct Ht as [Ht | Ht]; [discriminate|]). exact Ht. }
  split; [|split; [|split]].
  4: { intros cls text Hparse. rewrite analyze_returned_list, analyze_run, Hparse.
       split; reflexivity. }
  - intros text lineno Hparse. rewrite analyze_run, Hparse. reflexivity.
  - intros tree Hparse. exists (findings tree code). split.
    + rewrite analyze_returned_list, Hparse. reflexivity.
    + apply Hclean.
  - intros l. rewrite analyze_returned_list.
    destruct (ast_parse code) as [tree | [text lineno | cls text]]; intros [= <-].
    + split.
      * split; [intros (s & Hs & Ht); now apply Hclean in Hs | intros (? & ? & [=])].
      * intros s Hs Ht. now apply Hclean in Hs.
    + split.
      * split; [eauto | intros _].
        exists (syntax_suggestion text lineno). split; [now left | reflexivity].
      * intros s [<- | []] _. repeat split. eauto.
Qed.

(** C3, amended.  On a text for which the parser returns a tree or
    raises [SyntaxError], a call of [analyze] returns: it raises nothing,
    and what it returns is the address of a list, the one bound to
    [self.suggestions]; a [SyntaxError] shows only as the suggestion of
    type [syntax] in that list.  An exception of another class that the
    parser raises is not caught: the call raises it. *)
Theorem analyze_raises_only_what_the_parser_does (code : string) (w : World) :
  ((exists tree, ast_parse code = Returns tree) \/
   (exists text lineno, ast_parse code = Raises (SyntaxError text lineno)) ->
   exists a w' l,
     analyze ast_parse code w = (Returns a, w') /\
     self_suggestions w' = a /\
     nth_error (store w') a = Some l /\
     (forall text lineno, ast_parse code = Raises (SyntaxError text lineno) ->
        l = [syntax_suggestion text lineno])) /\
  (forall cls text, ast_parse code = Raises (OtherException cls text) ->
     fst (analyze ast_parse code w) = Raises (OtherException cls text)).
Proof.
  rewrite analyze_run. split.
  - intros [(tree & Hparse) | (text & lineno & Hparse)]; rewrite Hparse;
      do 3 eexists; (repeat split; [apply nth_error_last|]);
      [discriminate | now intros ? ? [= <- <-]].
  - intros cls text Hparse. now rewrite Hparse.
Qed.

(** C9.  What a call of [analyze] returns or raises does not depend on
    the state of the analyzer it is called on.  In particular a second
    call on the same analyzer, after a first call that has returned list
    [a1], returns a list [a2] that did not exist before the second call,
    and that holds the same suggestions in the same order as [a1], which
    the second call has left as it was. *)
Theorem analyze_twice (code : string) (w : World) :
  (forall w' e, fst (analyze ast_parse code w) = Raises e ->
                fst (analyze ast_parse code w') = Raises e) /\
  (forall w', returned_list (analyze ast_parse code w') =
              returned_list (analyze ast_parse code w)) /\
  (forall a1 w1, analyze ast_parse code w = (Returns a1, w1) ->
     exists l a2 w2,
       nth_error (store w1) a1 = Some l /\
       analyze ast_parse code w1 = (Returns a2, w2) /\
       a2 = List.length (store w1) /\ a2 <> a1 /\
       self_suggestions w2 = a2 /\
       nth_error (store w2) a2 = Some l /\
       nth_error (store w2) a1 = Some l).
Proof.
  split; [|split].
  - intros w' e. rewrite !analyze_run.
    destruct (ast_parse code) as [tree | [text lineno | cls text]]; simpl;
      (discriminate || auto).
  - intros w'. now rewrite !analyze_returned_list.
  - intros a1 w1. rewrite !analyze_run.
    destruct (ast_parse code) as [tree | [text lineno | cls text]]; intros [= <- <-];
      simpl; do 3 eexists;
      (split; [apply nth_error_last|]); (split; [reflexivity|]);
      (split; [reflexivity|]); (split; [rewrite length_app; simpl; lia|]);
      (split; [reflexivity|]);
      (split; [apply nth_error_last | apply nth_error_before, nth_error_last]).
Qed.

(** C10.  Every suggestion of a result whose type is not [syntax] has a
    line number; a suggestion without one is the syntax suggestion. *)
Theorem findings_have_lines (code : string) (w : World) (l : list Suggestion)
    (s : Suggestion) :
  returned_list (analyze ast_parse code w) = Some l -> In s l ->
  (type s <> "syntax" -> exists n, line s = Some n) /\
  (line s = None -> type s = "syntax").
Proof.
  rewrite analyze_returned_list.
  destruct (ast_parse code) as [tree | [text lineno | cls text]]; intros [= <-] Hs.
  - pose proof (proj1 (Forall_forall _ _) (findings_are_findings tree code) s Hs) as [_ Hl].
    split; [intros _ | intros Hnone; contradiction].
    destruct (line s) as [n|]; [eauto | contradiction].
  - destruct Hs as [<- | []]. split; [intros Ht; now contradiction Ht | reflexivity].
Qed.

End Orchestrator.

(** ** What each check appends for the node or line it visits *)

Lemma naming_visit_function (name : string) (a : arguments_of ast) (body decos : list ast)
    (returns : option ast) (lineno : Z) (end_lineno : option Z) :
  emitted (naming_visit (FunctionDef name a body decos returns lineno end_lineno)) =
  if negb (re_match_snake name) && negb (startswith "__" name)
  then [mkSuggestion "style" "medium"
          ("Function '" ++ name ++ "' should use snake_case naming (PEP 8)")
          (Some lineno)
          (Some ("def " ++ lower (re_sub_boundary 0 name) ++ "("))]
  else [].
Proof.
  unfold emitted, naming_visit, bind. simpl.
  destruct (negb (re_match_snake name) && negb (startswith "__" name)); reflexivity.
Qed.

Lemma complexity_visit_function (name : string) (a : arguments_of ast) (body decos : list ast)
    (returns : option ast) (lineno : Z) (end_lineno : option Z) :
  let node := FunctionDef name a body decos returns lineno end_lineno in
  emitted (complexity_visit node) =
  ((if (10 <? _calculate_complexity node)%Z
    then [high_complexity_suggestion name (_calculate_complexity node) lineno]
    else []) ++
   match end_lineno with
   | Some e =>
       if (50 <? e - lineno)%Z
       then [mkSuggestion "complexity" "medium"
               ("Function '" ++ name ++ "' is too long (" ++ str_of_int (e - lineno) ++
                " lines). Consider breaking it down.")
               (Some lineno) None]
       else []
   | None => []
   end)%list.
Proof.
  intros node. apply appends_emitted. unfold complexity_visit, node.
  apply appends_seq; [apply appends_when, appends_one|].
  destruct end_lineno as [e|]; [apply appends_when, appends_one | apply appends_pass].
Qed.


Lemma best_practices_visit_function (name : string) (a : arguments_of ast)
    (body decos : list ast) (returns : option ast) (lineno : Z) (end_lineno : option Z) :
  emitted (best_practices_visit (FunctionDef name a body decos returns lineno end_lineno)) =
  flat_map (fun default =>
              if isinstance_mutable_literal default
              then [mkSuggestion "best_practice" "high"
                      ("Avoid mutable default arguments in function '" ++ name ++
                       "'. Use None instead.")
                      (Some lineno)
                      (Some ("def function_name(param=None):" ++ nl ++
                             "    if param is None:" ++ nl ++ "        param = []"))]
              else [])
           (defaults a).
Proof.
  apply appends_emitted. unfold best_practices_visit.
  rewrite <- (app_nil_r (flat_map _ _)).
  change (flat_map ?f ?l ++ [])%list with ([] ++ flat_map f l ++ [])%list.
  repeat apply appends_seq; try apply appends_pass.
  apply appends_for. intros default. apply appends_when, appends_one.
Qed.

Lemma performance_visit_loop (loop : ast) :
  isinstance_loop loop = true ->
  emitted (performance_visit loop) =
  if existsb is_augmented_add_to_name (walk loop)
  then [performance_suggestion (loop_lineno loop)] else [].
Proof.
  intros Hloop. apply appends_emitted.
  destruct loop; try discriminate; apply appends_for_break.
Qed.

Lemma performance_visit_other (node : ast) :
  isinstance_loop node = false -> emitted (performance_visit node) = [].
Proof. destruct node; simpl; (discriminate || reflexivity). Qed.

Lemma style_visit_line (i : Z) (line : string) :
  emitted (style_visit (i, line)) =
  ((if (120 <? len line)%Z
    then [mkSuggestion "style" "low"
            "Line exceeds 120 characters (PEP 8 recommends max 79-120)" (Some i) None]
    else []) ++
   (if endswith_char " " line || endswith_char "009" line
    then [mkSuggestion "style" "low" "Trailing whitespace detected"
            (Some i) (Some (rstrip line))]
    else []) ++
   (if contains "=" line && negb (existsb (fun x => contains x line) compound_operators)
    then if re_search_assign line
         then [mkSuggestion "style" "low"
                 "Missing spaces around assignment operator (PEP 8)" (Some i)
                 (Some (strip (re_sub_spaces not_eq_space is_word
                                 (re_sub_spaces is_word not_eq_space line))))]
         else []
    else []) ++
   (if contains ";" line && negb (startswith "#" (strip line))
    then [mkSuggestion "style" "medium"
            "Avoid multiple statements on one line (PEP 8)" (Some i)
            (Some (join nl (map strip
                     (filter (fun s => negb (String.eqb (strip s) "")) (split ";" line)))))]
    else []))%list.
Proof.
  apply appends_emitted. unfold style_visit.
  repeat apply appends_seq; repeat apply appends_when; apply appends_one.
Qed.

(** ** From a visit to the result *)

Lemma findings_of_naming (tree : ast) (code : string) (node : ast) (s : Suggestion) :
  in_subtree node tree -> In s (emitted (naming_visit node)) -> In s (findings tree code).
Proof.
  intros Hnode Hs. unfold findings. apply in_or_app. left.
  apply in_flat_map. exists node. split; [now apply walk_in | exact Hs].
Qed.

Lemma findings_of_complexity (tree : ast) (code : string) (node : ast) (s : Suggestion) :
  in_subtree node tree -> In s (emitted (complexity_visit node)) -> In s (findings tree code).
Proof.
  intros Hnode Hs. unfold findings. apply in_or_app. right. apply in_or_app. left.
  apply in_flat_map. exists node. split; [now apply walk_in | exact Hs].
Qed.

Lemma findings_of_best_practices (tree : ast) (code : string) (node : ast) (s : Suggestion) :
  in_subtree node tree -> In s (emitted (best_practices_visit node)) ->
  In s (findings tree code).
Proof.
  intros Hnode Hs. unfold findings. do 2 (apply in_or_app; right). apply in_or_app. left.
  apply in_flat_map. exists node. split; [now apply walk_in | exact Hs].
Qed.

Lemma findings_of_performance (tree : ast) (code : string) (node : ast) (s : Suggestion) :
  in_subtree node tree -> In s (emitted (performance_visit node)) ->
  In s (findings tree code).
Proof.
  intros Hnode Hs. unfold findings. do 3 (apply in_or_app; right). apply in_or_app. left.
  apply in_flat_map. exists node. split; [now apply walk_in | exact Hs].
Qed.

Lemma findings_of_style (tree : ast) (code : string) (il : Z * string) (s : Suggestion) :
  In il (numbered_lines code) -> In s (emitted (style_visit il)) ->
  In s (findings tree code).
Proof.
  intros Hline Hs. unfold findings. do 4 (apply in_or_app; right).
  apply in_flat_map. exists il. split; [exact Hline | exact Hs].
Qed.

(** ** Strings *)





(** The substitution of the source inserts the underscores the
    specification describes. *)
Lemma re_sub_boundary_inside (pos : nat) (s : string) :
  re_sub_boundary (S pos) s = underscore_uppercase s.
Proof.
  revert pos. induction s as [|c s IH]; intros pos; simpl; [reflexivity|].
  rewrite IH. reflexivity.
Qed.

Lemma snake_case_conversion_correct (name : string) :
  lower (re_sub_boundary 0 name) = snake_case_conversion name.
Proof.
  unfold snake_case_conversion. destruct name as [|c r]; simpl; [reflexivity|].
  now rewrite re_sub_boundary_inside.
Qed.

(** ** Taking a result apart *)

Lemma findings_inv (tree : ast) (code : string) (s : Suggestion) :
  In s (findings tree code) ->
  (exists node, In node (walk tree) /\ In s (emitted (naming_visit node))) \/
  (exists node, In node (walk tree) /\ In s (emitted (complexity_visit node))) \/
  (exists node, In node (walk tree) /\ In s (emitted (best_practices_visit node))) \/
  (exists node, In node (walk tree) /\ In s (emitted (performance_visit node))) \/
  (exists il, In il (numbered_lines code) /\ In s (emitted (style_visit il))).
Proof.
  unfold findings. rewrite !in_app_iff, !in_flat_map. tauto.
Qed.

Lemma emitted_type (types : list string) (c : Py unit) (s : Suggestion) :
  emits_only (finding_of types) c -> In s (emitted c) -> In (type s) types.
Proof.
  intros Hc Hs. destruct (emits_only_emitted Hc) as [_ Hall].
  apply (proj1 (Forall_forall _ _) Hall s Hs).
Qed.

Lemma filter_none {A : Type} (p : A -> bool) (l : list A) :
  (forall x, In x l -> p x = false) -> filter p l = [].
Proof.
  induction l as [|x l IH]; intros H; simpl; [reflexivity|].
  rewrite (H x) by now left. apply IH. intros y Hy. apply H. now right.
Qed.

Lemma filter_flat_map {A B : Type} (p : B -> bool) (f : A -> list B) (l : list A) :
  filter p (flat_map f l) = flat_map (fun x => filter p (f x)) l.
Proof.
  induction l as [|x l IH]; simpl; [reflexivity|]. now rewrite filter_app, IH.
Qed.

(** ** The complexity of a function *)

Lemma fold_left_add {A : Type} (f : A -> Z) (l : list A) (start : Z) :
  fold_left (fun total x => (total + f x)%Z) l start = (start + sumZ (map f l))%Z.
Proof.
  revert start. induction l as [|x l IH]; intros start; simpl; [lia|].
  rewrite IH. lia.
Qed.



Lemma accumulating_loop_spec (node : ast) :
  accumulating_loop node = true <-> isinstance_loop node = true /\ accumulates node.
Proof.
  unfold accumulating_loop, accumulates.
  rewrite andb_true_iff, existsb_exists.
  split; intros [Hloop (x & Hx & Hadd)]; (split; [exact Hloop|]); exists x;
    (split; [now apply walk_in | exact Hadd]).
Qed.

Lemma performance_visit_emitted (node : ast) :
  emitted (performance_visit node) =
  if accumulating_loop node then [performance_suggestion (loop_lineno node)] else [].
Proof.
  unfold accumulating_loop. destruct (isinstance_loop node) eqn:Hloop; simpl.
  - now apply performance_visit_loop.
  - now apply performance_visit_other.
Qed.

(** ** The naming check *)

Section Checks.

Variable ast_parse : string -> outcome ast.



(** C4.  A [for] or [while] loop of the parsed snippet whose subtree
    holds an augmented addition to a plain name gets exactly one
    suggestion of type [performance] and severity [medium], on the line
    of the loop, however many such additions it holds; the suggestions
    of type [performance] of the result are these, one for each such
    loop. *)
Theorem one_performance_suggestion_per_loop (code : string) (w : World) (tree : ast) :
  ast_parse code = Returns tree ->
  exists l,
    returned_list (analyze ast_parse code w) = Some l /\
    (forall loop,
       in_subtree loop tree -> isinstance_loop loop = true -> accumulates loop ->
       emitted (performance_visit loop) = [performance_suggestion (loop_lineno loop)] /\
       In (performance_suggestion (loop_lineno loop)) l /\
       type (performance_suggestion (loop_lineno loop)) = "performance" /\
       severity (performance_suggestion (loop_lineno loop)) = "medium") /\
    filter is_performance l =
    map (fun loop => performance_suggestion (loop_lineno loop))
        (filter accumulating_loop (walk tree)).
Proof.
  intros Hparse. exists (findings tree code). split; [|split].
  - rewrite analyze_returned_list, Hparse. reflexivity.
  - intros loop Hin Hloop Hacc.
    assert (Hemit : emitted (performance_visit loop) =
                    [performance_suggestion (loop_lineno loop)]).
    { rewrite performance_visit_emitted.
      now rewrite (proj2 (accumulating_loop_spec loop) (conj Hloop Hacc)). }
    repeat split; [exact Hemit|].
    eapply findings_of_performance; [exact Hin | rewrite Hemit; now left].
  - assert (Hnone : forall (A : Type) (visit : A -> Py unit) (types : list string) xs,
      (forall x, emits_only (finding_of types) (visit x)) ->
      ~ In "performance" types ->
      filter is_performance (flat_map (fun x => emitted (visit x)) xs) = []).
    { intros A visit types xs Hvisit Hnot. apply filter_none. intros s Hs.
      apply in_flat_map in Hs. destruct Hs as (x & _ & Hs).
      apply (@emitted_type _ _ _ (Hvisit x)) in Hs. unfold is_performance.
      apply String.eqb_neq. intros Heq. now rewrite Heq in Hs. }
    unfold findings. rewrite !filter_app.
    rewrite (Hnone _ _ _ _ naming_visit_emits), (Hnone _ _ _ _ complexity_visit_emits),
      (Hnone _ _ _ _ best_practices_visit_emits), (Hnone _ _ _ _ style_visit_emits)
      by (simpl; intuition discriminate).
    simpl. rewrite app_nil_r.
    induction (walk tree) as [|node nodes IH]; simpl; [reflexivity|].
    rewrite filter_app, IH, performance_visit_emitted.
    destruct (accumulating_loop node); reflexivity.
Qed.

End Checks.

(** ** Defaults, length and spacing *)


Section LineChecks.

Variable ast_parse : string -> outcome ast.

(** A mutable literal among the defaults of the positional parameters of
    a function is flagged. *)
Lemma mutable_default_is_flagged (code : string) (w : World) (tree : ast)
    (name : string) (a : arguments_of ast) (body decos : list ast)
    (returns : option ast) (lineno : Z) (end_lineno : option Z) (default : ast) :
  ast_parse code = Returns tree ->
  in_subtree (FunctionDef name a body decos returns lineno end_lineno) tree ->
  In default (defaults a) -> isinstance_mutable_literal default = true ->
  exists l s,
    returned_list (analyze ast_parse code w) = Some l /\ In s l /\
    type s = "best_practice" /\ severity s = "high" /\ line s = Some lineno /\
    message s = "Avoid mutable default arguments in function '" ++ name ++
                "'. Use None instead." /\
    suggested_fix s = Some ("def function_name(param=None):" ++ nl ++
                            "    if param is None:" ++ nl ++ "        param = []").
Proof.
  intros Hparse Hnode Hdefault Hmutable.
  exists (findings tree code). eexists. split; [|split].
  - rewrite analyze_returned_list, Hparse. reflexivity.
  - eapply findings_of_best_practices; [exact Hnode|].
    rewrite best_practices_visit_function. apply in_flat_map.
    exists default. split; [exact Hdefault|]. rewrite Hmutable. now left.
  - repeat split.
Qed.

(** A function whose [end_lineno] exceeds its [lineno] by more than 50
    is flagged, and the message gives that difference. *)
Lemma long_function_is_flagged (code : string) (w : World) (tree : ast)
    (name : string) (a : arguments_of ast) (body decos : list ast)
    (returns : option ast) (lineno last : Z) :
  ast_parse code = Returns tree ->
  in_subtree (FunctionDef name a body decos returns lineno (Some last)) tree ->
  (50 < last - lineno)%Z ->
  exists l s,
    returned_list (analyze ast_parse code w) = Some l /\ In s l /\
    type s = "complexity" /\ severity s = "medium" /\ line s = Some lineno /\
    message s = "Function '" ++ name ++ "' is too long (" ++
                str_of_int (last - lineno) ++ " lines). Consider breaking it down.".
Proof.
  intros Hparse Hnode Hlong.
  exists (findings tree code). eexists. split; [|split].
  - rewrite analyze_returned_list, Hparse. reflexivity.
  - eapply findings_of_complexity; [exact Hnode|].
    rewrite complexity_visit_function. apply in_or_app. right.
    rewrite (proj2 (Z.ltb_lt _ _) Hlong). now left.
  - repeat split.
Qed.


End LineChecks.

(** ** The analyzer on the sample snippets *)

(** C6.  A list literal that is the default of a keyword-only parameter
    brings no suggestion of type [best_practice]: the analyzer reads
    [args.defaults] and not [args.kw_defaults].  The only finding on
    [keyword_default_code] is about spacing, whereas the same default of a
    positional parameter, in [mutable_default_code], is flagged. *)
Theorem keyword_only_default_is_missed :
  kw_defaults (mk_arguments [] [] None [arg] [Some (List_ [] Load)] None []) =
    [Some (List_ [] Load)] /\
  returned_list (analyze sample_parse keyword_default_code new_analyzer) =
    Some [mkSuggestion "style" "low" "Missing spaces around assignment operator (PEP 8)"
            (Some 1%Z) (Some "def f(*, x = []):")] /\
  returned_list (analyze sample_parse mutable_default_code new_analyzer) =
    Some [mkSuggestion "best_practice" "high"
            "Avoid mutable default arguments in function 'f'. Use None instead."
            (Some 1%Z)
            (Some ("def function_name(param=None):" ++ nl ++
                   "    if param is None:" ++ nl ++ "        param = []"));
          mkSuggestion "style" "low" "Missing spaces around assignment operator (PEP 8)"
            (Some 1%Z) (Some "def f(x = []):")].
Proof. repeat split; vm_compute; reflexivity. Qed.

(** C8.  The analyzer takes [end_lineno - lineno] for the length of a
    function: a function that stands on 51 lines is not flagged, and one
    that stands on 52 lines is said to have 51. *)
Theorem function_length_is_one_short :
  List.length (split "010" (long_code 50)) = 51 /\
  returned_list (analyze sample_parse (long_code 50) new_analyzer) = Some [] /\
  List.length (split "010" (long_code 51)) = 52 /\
  returned_list (analyze sample_parse (long_code 51) new_analyzer) =
    Some [mkSuggestion "complexity" "medium"
            "Function 'f' is too long (51 lines). Consider breaking it down."
            (Some 1%Z) None].
Proof. repeat split; vm_compute; reflexivity. Qed.


(** C3 as stated fails: on a text with a null character the parser of
    CPython 3.11 raises [ValueError], and so does [analyze]. *)
Lemma stated_never_raises_fails :
  fst (analyze parse_311 null_byte new_analyzer) =
    Raises (OtherException "ValueError" "source code string cannot contain null bytes") /\
  ~ stated_never_raises parse_311.
Proof.
  split; [reflexivity|]. intros Hclaim.
  destruct (Hclaim null_byte new_analyzer) as (a & w' & Hrun). discriminate.
Qed.

(** C1 as stated fails: a text with a null character fails to parse with
    the parser of CPython 3.11, which raises [ValueError]; [analyze] then
    raises, there is no result and no suggestion of type [syntax]. *)
Lemma stated_syntax_claim_fails :
  parse_311 null_byte =
    Raises (OtherException "ValueError" "source code string cannot contain null bytes") /\
  returned_list (analyze parse_311 null_byte new_analyzer) = None /\
  ~ stated_syntax_claim parse_311.
Proof.
  split; [reflexivity|]. split; [reflexivity|]. intros Hclaim.
  destruct (proj1 (Hclaim null_byte new_analyzer)) as (l & s & Hl & _).
  - eexists. reflexivity.
  - discriminate.
Qed.

(** The analyzer does not examine a function defined with [async def]:
    the visits of the four checks on trees append nothing for the node
    itself, and its complexity is never computed. *)
Lemma async_function_is_not_examined (name : string) (a : arguments_of ast)
    (body decos : list ast) (returns : option ast) (lineno : Z) (end_lineno : option Z) :
  let function := AsyncFunctionDef name a body decos returns lineno end_lineno in
  emitted (naming_visit function) = [] /\
  emitted (complexity_visit function) = [] /\
  emitted (best_practices_visit function) = [] /\
  emitted (performance_visit function) = [].
Proof. repeat split. Qed.



(** ** The theorems at work *)


Ltac pick := repeat (first [left; reflexivity | right]).

Lemma syntax_suggestion_iff_parse_failure_witness :
  analyze sample_parse broken_code new_analyzer =
    (Returns 1,
     mkWorld [[]; [mkSuggestion "syntax" "high"
                     "Syntax error: '(' was never closed (<unknown>, line 1)"
                     (Some 1%Z) None]] 1) /\
  exists l, returned_list (analyze sample_parse bad_name_code new_analyzer) = Some l /\
            forall s, In s l -> type s <> "syntax".
Proof.
  destruct (syntax_suggestion_iff_parse_failure sample_parse broken_code new_analyzer)
    as (Hfails & _ & _).
  destruct (syntax_suggestion_iff_parse_failure sample_parse bad_name_code new_analyzer)
    as (_ & Hparses & _).
  split.
  - apply (Hfails "'(' was never closed (<unknown>, line 1)" (Some 1%Z)). reflexivity.
  - apply (Hparses bad_name_tree). reflexivity.
Defined.


Lemma analyze_raises_only_what_the_parser_does_witness :
  (exists a w' l,
     analyze sample_parse broken_code new_analyzer = (Returns a, w') /\
     self_suggestions w' = a /\ nth_error (store w') a = Some l /\
     (forall text lineno, sample_parse broken_code = Raises (SyntaxError text lineno) ->
        l = [syntax_suggestion text lineno])) /\
  fst (analyze parse_311 null_byte new_analyzer) =
    Raises (OtherException "ValueError" "source code string cannot contain null bytes").
Proof.
  split.
  - apply (analyze_raises_only_what_the_parser_does sample_parse broken_code new_analyzer).
    right. do 2 eexists. reflexivity.
  - apply (analyze_raises_only_what_the_parser_does parse_311 null_byte new_analyzer).
    reflexivity.
Defined.

Lemma one_performance_suggestion_per_loop_witness :
  exists l,
    returned_list (analyze sample_parse sum_code new_analyzer) = Some l /\
    emitted (performance_visit sum_loop) = [performance_suggestion 4] /\
    In (performance_suggestion 4) l /\
    filter is_performance l = [performance_suggestion 4].
Proof.
  destruct (@one_performance_suggestion_per_loop sample_parse sum_code new_analyzer
              sum_tree eq_refl) as (l & Hl & Hloop & Hall).
  exists l. split; [exact Hl|].
  destruct (Hloop sum_loop) as (Hone & Hin & _).
  - apply in_subtree_below with (child := sum_def); [simpl; pick|].
    apply in_subtree_below with (child := sum_loop); [simpl; pick | constructor].
  - reflexivity.
  - exists (AugAssign (Name "total" Store) Add (Name "num" Load)). split; [|reflexivity].
    apply in_subtree_below
      with (child := AugAssign (Name "total" Store) Add (Name "num" Load));
      [simpl; pick | constructor].
  - split; [exact Hone | split; [exact Hin | exact Hall]].
Defined.


Lemma analyze_twice_witness :
  exists l a1 w1 a2 w2,
    analyze sample_parse bad_name_code new_analyzer = (Returns a1, w1) /\
    analyze sample_parse bad_name_code w1 = (Returns a2, w2) /\
    a2 <> a1 /\
    nth_error (store w1) a1 = Some l /\
    nth_error (store w2) a2 = Some l /\
    nth_error (store w2) a1 = Some l.
Proof.
  destruct (analyze_twice sample_parse bad_name_code new_analyzer) as (_ & _ & Hsecond).
  destruct (analyze sample_parse bad_name_code new_analyzer) as [[a1|e] w1] eqn:Hfirst;
    [|discriminate].
  destruct (Hsecond a1 w1 eq_refl) as (l & a2 & w2 & H1 & Hrun & _ & Hnew & _ & H2 & H3).
  exists l, a1, w1, a2, w2. repeat split; assumption.
Defined.

Lemma findings_have_lines_witness :
  exists n, line (performance_suggestion 4) = Some n.
Proof.
  apply (@findings_have_lines sample_parse sum_code new_analyzer
           [performance_suggestion 4] (performance_suggestion 4)).
  - reflexivity.
  - left. reflexivity.
  - discriminate.
Defined.

(* ================================================================== *)
(** * Part III.  Further properties of the analyzer *)
(* ================================================================== *)

(** ** Types and severities *)

Lemma findings_forall (P : Suggestion -> Prop) (tree : ast) (code : string) :
  (forall node, emits_only P (naming_visit node)) ->
  (forall node, emits_only P (complexity_visit node)) ->
  (forall node, emits_only P (best_practices_visit node)) ->
  (forall node, emits_only P (performance_visit node)) ->
  (forall il, emits_only P (style_visit il)) ->
  Forall P (findings tree code).
Proof.
  intros H1 H2 H3 H4 H5. unfold findings.
  repeat (apply Forall_app; split); apply Forall_flat_map_all; intros x;
    [ apply (emits_only_emitted (H1 x)) | apply (emits_only_emitted (H2 x))
    | apply (emits_only_emitted (H3 x)) | apply (emits_only_emitted (H4 x))
    | apply (emits_only_emitted (H5 x)) ].
Qed.

Lemma findings_severities (tree : ast) (code : string) :
  Forall (fun s => In (severity s) severities) (findings tree code).
Proof.
  apply findings_forall; intros x;
    [ unfold naming_visit | unfold complexity_visit | unfold best_practices_visit
    | unfold performance_visit | unfold style_visit ];
    emits_cases; simpl; auto.
Qed.

Section Vocabulary.

Variable ast_parse : string -> outcome ast.

(** Every suggestion of a result has one of the six types and one of the
    three severities of the model. *)
Theorem suggestions_use_the_vocabulary (code : string) (w : World)
    (l : list Suggestion) (s : Suggestion) :
  returned_list (analyze ast_parse code w) = Some l -> In s l ->
  In (type s) suggestion_types /\ In (severity s) severities.
Proof.
  rewrite analyze_returned_list.
  destruct (ast_parse code) as [tree | [text lineno | cls text]]; intros [= <-] Hs.
  - split.
    + pose proof (proj1 (Forall_forall _ _) (findings_are_findings tree code) s Hs) as [Ht _].
      simpl in Ht. unfold suggestion_types. simpl. intuition.
    + apply (proj1 (Forall_forall _ _) (findings_severities tree code) s Hs).
  - destruct Hs as [<- | []]. simpl. auto 10.
Qed.

End Vocabulary.

Lemma suggestions_use_the_vocabulary_witness :
  In (type (performance_suggestion 4)) suggestion_types /\
  In (severity (performance_suggestion 4)) severities.
Proof.
  apply (@suggestions_use_the_vocabulary sample_parse sum_code new_analyzer
           [performance_suggestion 4] (performance_suggestion 4)).
  - reflexivity.
  - left. reflexivity.
Defined.

(** ** Lines and their numbers *)

Lemma enumerate_in {A : Type} (xs : list A) : forall (start i : Z) (x : A),
  In (i, x) (enumerate xs start) <->
  (start <= i)%Z /\ nth_error xs (Z.to_nat (i - start)) = Some x.
Proof.
  induction xs as [|y xs IH]; intros start i x; simpl.
  - split; [tauto|]. intros [_ H]. now destruct (Z.to_nat (i - start)).
  - rewrite IH. split.
    + intros [[= <- <-] | [Hle Hnth]].
      * split; [lia|]. now replace (start - start)%Z with 0%Z by lia.
      * split; [lia|].
        replace (Z.to_nat (i - start)) with (S (Z.to_nat (i - (start + 1)))) by lia.
        exact Hnth.
    + intros [Hle Hnth]. destruct (Z.eq_dec i start) as [-> | Hne].
      * left. replace (start - start)%Z with 0%Z in Hnth by lia.
        simpl in Hnth. now injection Hnth as ->.
      * right. split; [lia|].
        replace (Z.to_nat (i - start)) with (S (Z.to_nat (i - (start + 1)))) in Hnth by lia.
        exact Hnth.
Qed.

(** The numbered lines are the lines of the text, counted from 1. *)
Lemma numbered_lines_in (code : string) (i : Z) (text : string) :
  In (i, text) (numbered_lines code) <->
  (1 <= i <= Z.of_nat (List.length (split "010" code)))%Z /\
  nth_error (split "010" code) (Z.to_nat (i - 1)) = Some text.
Proof.
  unfold numbered_lines. rewrite enumerate_in. split.
  - intros [Hle Hnth]. split; [|exact Hnth]. split; [exact Hle|].
    assert (Z.to_nat (i - 1) < List.length (split "010" code))%nat
      by (apply nth_error_Some; congruence).
    lia.
  - intros [[Hle _] Hnth]. now split.
Qed.

Lemma naming_visit_style_is_medium (node : ast) :
  emits_only (fun s => type s = "style" -> severity s = "medium") (naming_visit node).
Proof. unfold naming_visit. emits_cases; simpl; (reflexivity || discriminate). Qed.

(** A suggestion of type [style] and severity [low] comes from the visit
    of a line of the text. *)
Lemma style_low_inv (tree : ast) (code : string) (s : Suggestion) :
  In s (findings tree code) -> type s = "style" -> severity s = "low" ->
  exists i text, In (i, text) (numbered_lines code) /\
                 In s (emitted (style_visit (i, text))).
Proof.
  intros Hs Htype Hsev.
  destruct (findings_inv _ _ _ Hs)
    as [(n & _ & Hn) | [(n & _ & Hn) | [(n & _ & Hn) | [(n & _ & Hn) | ([i text] & Hil & Hn)]]]].
  - destruct (emits_only_emitted (naming_visit_style_is_medium n)) as [_ Hall].
    pose proof (proj1 (Forall_forall _ _) Hall s Hn Htype). congruence.
  - apply (@emitted_type _ _ _ (complexity_visit_emits n)) in Hn. rewrite Htype in Hn.
    simpl in Hn. intuition discriminate.
  - apply (@emitted_type _ _ _ (best_practices_visit_emits n)) in Hn. rewrite Htype in Hn.
    simpl in Hn. intuition discriminate.
  - apply (@emitted_type _ _ _ (performance_visit_emits n)) in Hn. rewrite Htype in Hn.
    simpl in Hn. intuition discriminate.
  - eauto.
Qed.

Section Lines.

Variable ast_parse : string -> outcome ast.

(** For a snippet written in ASCII, the result holds a suggestion of type
    [style] and severity [low] about the length of line [i] exactly when
    line [i] of the text has more than 120 characters. *)
Theorem long_line_iff_flagged (code : string) (w : World) (tree : ast) (i : Z) :
  ast_parse code = Returns tree ->
  isascii code = true ->
  exists l,
    returned_list (analyze ast_parse code w) = Some l /\
    (In (mkSuggestion "style" "low"
           "Line exceeds 120 characters (PEP 8 recommends max 79-120)" (Some i) None) l <->
     exists text, nth_error (split "010" code) (Z.to_nat (i - 1)) = Some text /\
                  (1 <= i)%Z /\ (120 < len text)%Z).
Proof.
  intros Hparse _. exists (findings tree code). split.
  { rewrite analyze_returned_list, Hparse. reflexivity. }
  split.
  - intros Hs. destruct (style_low_inv _ _ _ Hs eq_refl eq_refl) as (j & text & Hline & Hin).
    rewrite style_visit_line in Hin. exists text.
    assert (Hlong : (120 <? len text)%Z = true /\ j = i).
    { repeat (apply in_app_or in Hin; destruct Hin as [Hin | Hin]);
        repeat match type of Hin with
               | In _ (if ?b then _ else _) => destruct b eqn:?
               end;
        try destruct Hin as [Heq | []]; try destruct Hin; try discriminate.
      injection Heq as ->. now split. }
    destruct Hlong as [Hlong ->]. apply numbered_lines_in in Hline.
    repeat split; try tauto; try lia.
  - intros (text & Hnth & Hle & Hlong).
    apply findings_of_style with (il := (i, text)).
    + apply numbered_lines_in. split; [|exact Hnth]. split; [exact Hle|].
      assert (Z.to_nat (i - 1) < List.length (split "010" code))%nat
        by (apply nth_error_Some; congruence).
      lia.
    + rewrite style_visit_line. apply in_or_app. left.
      rewrite (proj2 (Z.ltb_lt _ _) Hlong). now left.
Qed.

End Lines.

(** ** The fixes of the style check *)

Lemma rstrip_suffix (s : string) :
  exists ws, s = rstrip s ++ ws /\ all_char is_space ws = true.
Proof.
  induction s as [|c r (ws & Hr & Hws)]; [exists ""; now split|].
  cbn [rstrip]. destruct (rstrip r) as [|d r'] eqn:Hstrip.
  - destruct (is_space c) eqn:Hc.
    + exists (String c r). split; [reflexivity|]. simpl in Hr. subst ws.
      simpl. now rewrite Hc, Hws.
    + exists ws. split; [|exact Hws]. simpl in *. now rewrite <- Hr.
  - exists ws. split; [|exact Hws]. simpl in *. now rewrite <- Hr.
Qed.

Lemma rstrip_last (s : string) (c : ascii) :
  last_char (rstrip s) = Some c -> is_space c = false.
Proof.
  induction s as [|x r IH]; [discriminate|].
  cbn [rstrip]. destruct (rstrip r) as [|d r'] eqn:Hstrip.
  - destruct (is_space x) eqn:Hx; simpl; [discriminate | now intros [= <-]].
  - exact IH.
Qed.

Lemma endswith_char_last (c : ascii) (s : string) :
  endswith_char c s = true <-> last_char s = Some c.
Proof.
  induction s as [|d r IH]; simpl; [split; discriminate|].
  destruct r as [|e r'].
  - rewrite Ascii.eqb_eq. split; [now intros -> | now intros [= ->]].
  - exact IH.
Qed.

Lemma remove_spaces_app (a b : string) :
  remove_spaces (a ++ b) = remove_spaces a ++ remove_spaces b.
Proof.
  induction a as [|c a IH]; simpl; [reflexivity|].
  destruct (is_space c); simpl; now rewrite IH.
Qed.

Lemma remove_spaces_all (ws : string) :
  all_char is_space ws = true -> remove_spaces ws = "".
Proof.
  induction ws as [|c ws IH]; simpl; [reflexivity|].
  destruct (is_space c); simpl; [exact IH | discriminate].
Qed.

Lemma string_app_nil_r (s : string) : s ++ "" = s.
Proof. induction s as [|c s IH]; simpl; [reflexivity | now rewrite IH]. Qed.

Lemma remove_spaces_rstrip (s : string) : remove_spaces (rstrip s) = remove_spaces s.
Proof.
  destruct (rstrip_suffix s) as (ws & Hs & Hws).
  rewrite Hs at 2. now rewrite remove_spaces_app, (remove_spaces_all _ Hws), string_app_nil_r.
Qed.

Lemma remove_spaces_lstrip (s : string) : remove_spaces (lstrip s) = remove_spaces s.
Proof.
  induction s as [|c s IH]; simpl; [reflexivity|].
  destruct (is_space c) eqn:Hc; [exact IH|]. simpl. now rewrite Hc.
Qed.

Lemma remove_spaces_strip (s : string) : remove_spaces (strip s) = remove_spaces s.
Proof. unfold strip. now rewrite remove_spaces_rstrip, remove_spaces_lstrip. Qed.

(** The substitution puts spaces in and changes nothing else. *)
Lemma remove_spaces_re_sub_spaces (L R : ascii -> bool) (s : string) :
  remove_spaces (re_sub_spaces L R s) = remove_spaces s.
Proof.
  assert (H : forall n s, (String.length s <= n)%nat ->
                          remove_spaces (re_sub_spaces L R s) = remove_spaces s).
  { clear s. induction n as [|n IH]; intros s Hlen.
    - destruct s; [reflexivity | simpl in Hlen; lia].
    - destruct s as [|a r]; [reflexivity|]. simpl in Hlen.
      cbn [re_sub_spaces]. destruct r as [|e [|b r']].
      + reflexivity.
      + cbn [remove_spaces]. rewrite (IH (String e "")) by (simpl in *; lia). reflexivity.
      + destruct (L a && is_eq_sign e && R b) eqn:Hmatch.
        * apply andb_true_iff in Hmatch. destruct Hmatch as [Hmatch _].
          apply andb_true_iff in Hmatch. destruct Hmatch as [_ He].
          apply Ascii.eqb_eq in He. subst e.
          cbn [remove_spaces append]. simpl is_space.
          rewrite (IH r') by (simpl in *; lia). reflexivity.
        * cbn [remove_spaces]. rewrite (IH (String e (String b r'))) by (simpl in *; lia).
          reflexivity. }
  apply (H (String.length s)). lia.
Qed.

Lemma contains_char (c : ascii) (s : string) :
  contains (String c "") s = any_char (Ascii.eqb c) s.
Proof.
  induction s as [|d s IH]; [reflexivity|].
  cbn [contains any_char String.prefix]. rewrite IH.
  destruct (ascii_dec c d) as [-> | Hne].
  - rewrite Ascii.eqb_refl. now destruct s.
  - rewrite (proj2 (Ascii.eqb_neq c d) Hne). reflexivity.
Qed.

Lemma any_char_app (p : ascii -> bool) (a b : string) :
  any_char p (a ++ b) = any_char p a || any_char p b.
Proof.
  induction a as [|c a IH]; simpl; [reflexivity|]. now rewrite IH, orb_assoc.
Qed.

Lemma any_char_rstrip (p : ascii -> bool) (s : string) :
  any_char p s = false -> any_char p (rstrip s) = false.
Proof.
  intros Hs. destruct (rstrip_suffix s) as (ws & Heq & _).
  rewrite Heq, any_char_app in Hs. now apply orb_false_iff in Hs.
Qed.

Lemma any_char_lstrip (p : ascii -> bool) (s : string) :
  any_char p s = false -> any_char p (lstrip s) = false.
Proof.
  induction s as [|c s IH]; simpl; [reflexivity|].
  intros Hs. apply orb_false_iff in Hs. destruct Hs as [Hc Hs].
  destruct (is_space c); [now apply IH | simpl; now rewrite Hc, Hs].
Qed.

Lemma any_char_strip (p : ascii -> bool) (s : string) :
  any_char p s = false -> any_char p (strip s) = false.
Proof. intros H. now apply any_char_rstrip, any_char_lstrip. Qed.

(** No piece of a split holds the separator. *)
Lemma split_on_pieces (sep : ascii) (s : string) : forall cur,
  any_char (Ascii.eqb sep) cur = false ->
  Forall (fun piece => any_char (Ascii.eqb sep) piece = false) (split_on sep cur s).
Proof.
  induction s as [|c s IH]; intros cur Hcur; simpl.
  - now repeat constructor.
  - destruct (Ascii.eqb c sep) eqn:Hc.
    + constructor; [exact Hcur | now apply IH].
    + apply IH. rewrite any_char_app, Hcur. simpl.
      rewrite Ascii.eqb_sym, Hc. reflexivity.
Qed.

Lemma any_char_join (p : ascii -> bool) (sep : string) (parts : list string) :
  any_char p sep = false -> Forall (fun piece => any_char p piece = false) parts ->
  any_char p (join sep parts) = false.
Proof.
  intros Hsep Hparts. unfold join.
  induction Hparts as [|x parts Hx Hparts IH]; [reflexivity|].
  cbn [String.concat]. destruct parts as [|y parts]; [exact Hx|].
  rewrite !any_char_app, Hx, Hsep, IH. reflexivity.
Qed.

Section Fixes.

Variable ast_parse : string -> outcome ast.

(** A line written in ASCII that ends with a space or a tab is flagged,
    and the fix is the line without the white space at its end: the line
    is the fix followed by white space only, and the fix does not end
    with white space. *)
Theorem trailing_whitespace_is_stripped (code : string) (w : World) (tree : ast)
    (i : Z) (text : string) :
  ast_parse code = Returns tree ->
  In (i, text) (numbered_lines code) ->
  isascii text = true ->
  endswith_char " " text = true \/ endswith_char "009" text = true ->
  exists l fixed,
    returned_list (analyze ast_parse code w) = Some l /\
    In (mkSuggestion "style" "low" "Trailing whitespace detected" (Some i) (Some fixed)) l /\
    (exists ws, text = fixed ++ ws /\ all_char is_space ws = true /\ ws <> "") /\
    (forall c, last_char fixed = Some c -> is_space c = false).
Proof.
  intros Hparse Hline _ Hends. exists (findings tree code), (rstrip text).
  split; [rewrite analyze_returned_list, Hparse; reflexivity|]. split; [|split].
  - apply findings_of_style with (il := (i, text)); [exact Hline|].
    rewrite style_visit_line. apply in_or_app. right. apply in_or_app. left.
    replace (endswith_char " " text || endswith_char "009" text) with true; [now left|].
    symmetry. apply orb_true_iff. exact Hends.
  - destruct (rstrip_suffix text) as (ws & Heq & Hws).
    exists ws. repeat split; [exact Heq | exact Hws|].
    intros ->. rewrite string_app_nil_r in Heq.
    destruct Hends as [H | H]; apply endswith_char_last in H; rewrite Heq in H;
      apply rstrip_last in H; discriminate.
  - intros c Hc. now apply rstrip_last in Hc.
Qed.

(** In a snippet written in ASCII, a suggestion about the spaces around
    an assignment changes only the white space of the line it is about:
    the fix and the line are the same text once their white space is
    taken out. *)
Theorem spacing_fix_changes_white_space_only (code : string) (w : World) (tree : ast)
    (l : list Suggestion) (i : Z) (fixed : string) :
  ast_parse code = Returns tree ->
  isascii code = true ->
  returned_list (analyze ast_parse code w) = Some l ->
  In (mkSuggestion "style" "low" "Missing spaces around assignment operator (PEP 8)"
        (Some i) (Some fixed)) l ->
  exists text, nth_error (split "010" code) (Z.to_nat (i - 1)) = Some text /\
               remove_spaces fixed = remove_spaces text.
Proof.
  intros Hparse _. rewrite analyze_returned_list, Hparse. intros [= <-] Hs.
  destruct (style_low_inv _ _ _ Hs eq_refl eq_refl) as (j & text & Hline & Hin).
  rewrite style_visit_line in Hin. exists text.
  assert (Hfix : j = i /\
            fixed = strip (re_sub_spaces not_eq_space is_word
                           (re_sub_spaces is_word not_eq_space text))).
  { repeat (apply in_app_or in Hin; destruct Hin as [Hin | Hin]);
      repeat match type of Hin with
             | In _ (if ?b then _ else _) => destruct b eqn:?
             end;
      try destruct Hin as [Heq | []]; try destruct Hin; try discriminate.
    injection Heq as -> ->. now split. }
  destruct Hfix as [-> ->]. apply numbered_lines_in in Hline. split; [tauto|].
  now rewrite remove_spaces_strip, !remove_spaces_re_sub_spaces.
Qed.

(** A line written in ASCII that holds a semicolon and is not a comment
    line is flagged, and the fix holds no semicolon. *)
Theorem semicolons_are_split (code : string) (w : World) (tree : ast)
    (i : Z) (text : string) :
  ast_parse code = Returns tree ->
  In (i, text) (numbered_lines code) ->
  isascii text = true ->
  contains ";" text = true -> startswith "#" (strip text) = false ->
  exists l fixed,
    returned_list (analyze ast_parse code w) = Some l /\
    In (mkSuggestion "style" "medium" "Avoid multiple statements on one line (PEP 8)"
          (Some i) (Some fixed)) l /\
    contains ";" fixed = false.
Proof.
  intros Hparse Hline _ Hsemi Hcomment. exists (findings tree code). eexists.
  split; [rewrite analyze_returned_list, Hparse; reflexivity|]. split.
  - apply findings_of_style with (il := (i, text)); [exact Hline|].
    rewrite style_visit_line, Hsemi, Hcomment.
    do 3 (apply in_or_app; right). now left.
  - rewrite contains_char. apply any_char_join; [reflexivity|].
    apply Forall_forall. intros piece Hpiece. apply in_map_iff in Hpiece.
    destruct Hpiece as (raw & <- & Hraw). apply filter_In in Hraw.
    destruct Hraw as [Hraw _]. apply any_char_strip.
    pose proof (@split_on_pieces ";" text "" eq_refl) as Hall.
    apply (proj1 (Forall_forall _ _) Hall raw Hraw).
Qed.

End Fixes.

(** ** Names *)

Lemma lower_char_class (c : ascii) :
  is_word c = true ->
  is_az (lower_char c) || is_09 (lower_char c) || is_underscore (lower_char c) = true.
Proof.
  destruct c as [[] [] [] [] [] [] [] []]; vm_compute; (reflexivity || discriminate).
Qed.

Lemma lower_char_start (c : ascii) :
  is_az c || is_AZ c || is_underscore c = true ->
  is_az (lower_char c) || is_underscore (lower_char c) = true.
Proof.
  destruct c as [[] [] [] [] [] [] [] []]; vm_compute; (reflexivity || discriminate).
Qed.

Lemma skip_while_all (p : ascii -> bool) (s : string) :
  all_char p s = true -> skip_while p s = "".
Proof.
  induction s as [|c s IH]; simpl; [reflexivity|].
  intros H. apply andb_true_iff in H. destruct H as [-> H]. now apply IH.
Qed.

Lemma lower_underscore_uppercase_class (s : string) :
  all_char is_word s = true ->
  all_char (fun d => is_az d || is_09 d || is_underscore d)
           (lower (underscore_uppercase s)) = true.
Proof.
  induction s as [|c s IH]; simpl; [reflexivity|].
  intros H. apply andb_true_iff in H. destruct H as [Hc Hs].
  destruct (is_AZ c); simpl; rewrite (lower_char_class _ Hc), (IH Hs); reflexivity.
Qed.

(** The name that the naming check proposes for a function passes the
    check: for an identifier written in ASCII, the snake_case conversion
    matches the pattern of function names, and a function of that name is
    not flagged. *)
Theorem proposed_function_name_passes (name : string) (a : arguments_of ast)
    (body decos : list ast) (returns : option ast) (lineno : Z) (end_lineno : option Z) :
  ascii_identifier name = true ->
  re_match_snake (lower (re_sub_boundary 0 name)) = true /\
  emitted (naming_visit (FunctionDef (lower (re_sub_boundary 0 name)) a body decos
                                     returns lineno end_lineno)) = [].
Proof.
  intros Hname.
  assert (Hmatch : re_match_snake (lower (re_sub_boundary 0 name)) = true).
  { rewrite snake_case_conversion_correct. unfold snake_case_conversion.
    destruct name as [|c r]; [discriminate|]. simpl in Hname.
    apply andb_true_iff in Hname. destruct Hname as [Hc Hr].
    cbn [lower re_match_snake]. rewrite (lower_char_start _ Hc).
    now rewrite (skip_while_all _ _ (lower_underscore_uppercase_class _ Hr)). }
  split; [exact Hmatch|]. now rewrite naming_visit_function, Hmatch.
Qed.

Lemma proposed_function_name_passes_witness :
  re_match_snake "bad_function_name" = true /\
  emitted (naming_visit (FunctionDef "bad_function_name" no_arguments [Pass] [] None 1
                                     (Some 2%Z))) = [].
Proof.
  apply (@proposed_function_name_passes "BadFunctionName" no_arguments [Pass] [] None 1%Z
           (Some 2%Z)).
  reflexivity.
Defined.

Lemma naming_visit_class (name : string) (bases keywords body decos : list ast)
    (lineno : Z) :
  emitted (naming_visit (ClassDef name bases keywords body decos lineno)) =
  if negb (re_match_pascal name)
  then [mkSuggestion "style" "medium"
          ("Class '" ++ name ++ "' should use PascalCase naming (PEP 8)")
          (Some lineno)
          (Some ("class " ++ pascal_case_conversion name ++ ":"))]
  else [].
Proof.
  unfold emitted, naming_visit, bind. simpl.
  destruct (negb (re_match_pascal name)); reflexivity.
Qed.

Lemma re_split_words_pieces (s : string) : forall in_sep cur,
  any_char is_word_separator cur = false ->
  Forall (fun piece => any_char is_word_separator piece = false)
         (re_split_words in_sep cur s).
Proof.
  induction s as [|c s IH]; intros in_sep cur Hcur; simpl.
  - now repeat constructor.
  - fold (is_word_separator c). destruct (is_word_separator c) eqn:Hc.
    + destruct in_sep; [now apply IH|]. constructor; [exact Hcur | now apply IH].
    + apply IH. rewrite any_char_app, Hcur. simpl. now rewrite Hc.
Qed.

Lemma separator_case (c : ascii) :
  is_word_separator (lower_char c) = is_word_separator c /\
  is_word_separator (upper_char c) = is_word_separator c.
Proof. destruct c as [[] [] [] [] [] [] [] []]; vm_compute; split; reflexivity. Qed.

Lemma any_separator_lower (s : string) :
  any_char is_word_separator (lower s) = any_char is_word_separator s.
Proof.
  induction s as [|c s IH]; simpl; [reflexivity|].
  now rewrite IH, (proj1 (separator_case c)).
Qed.

Lemma any_separator_capitalize (s : string) :
  any_char is_word_separator (capitalize s) = any_char is_word_separator s.
Proof.
  destruct s as [|c s]; simpl; [reflexivity|].
  now rewrite any_separator_lower, (proj2 (separator_case c)).
Qed.

Section Names.

Variable ast_parse : string -> outcome ast.

(** A class definition of the parsed snippet whose name is written in
    ASCII and does not match [^[A-Z][a-zA-Z0-9]*$] gets a suggestion of type [style] and severity
    [medium] on its line; the fix is [class], the PascalCase conversion of
    the name and a colon, and the conversion holds no underscore and no
    white space. *)
Theorem bad_class_name_is_flagged (code : string) (w : World) (tree : ast)
    (name : string) (bases keywords body decos : list ast) (lineno : Z) :
  ast_parse code = Returns tree ->
  in_subtree (ClassDef name bases keywords body decos lineno) tree ->
  isascii name = true ->
  re_match_pascal name = false ->
  exists l,
    returned_list (analyze ast_parse code w) = Some l /\
    In (mkSuggestion "style" "medium"
          ("Class '" ++ name ++ "' should use PascalCase naming (PEP 8)")
          (Some lineno)
          (Some ("class " ++ pascal_case_conversion name ++ ":"))) l /\
    any_char is_word_separator (pascal_case_conversion name) = false.
Proof.
  intros Hparse Hnode _ Hmatch. exists (findings tree code).
  split; [rewrite analyze_returned_list, Hparse; reflexivity|]. split.
  - eapply findings_of_naming; [exact Hnode|].
    rewrite naming_visit_class, Hmatch. now left.
  - unfold pascal_case_conversion. apply any_char_join; [reflexivity|].
    apply Forall_forall. intros piece Hpiece. apply in_map_iff in Hpiece.
    destruct Hpiece as (raw & <- & Hraw). rewrite any_separator_capitalize.
    pose proof (@re_split_words_pieces name false "" eq_refl) as Hall.
    apply (proj1 (Forall_forall _ _) Hall raw Hraw).
Qed.

Lemma single_letter_condition (name : string) :
  (if isupper name && (1 <? len name)%Z then false
   else negb (contains "_" name) && islower name && (len name =? 1)%Z) =
  is_single_lowercase name.
Proof.
  destruct name as [|c [|d r]].
  - reflexivity.
  - destruct c as [[] [] [] [] [] [] [] []]; vm_compute; reflexivity.
  - unfold is_single_lowercase.
    replace (len (String c (String d r)) =? 1)%Z with false.
    + rewrite andb_false_r. now destruct (isupper _ && _).
    + symmetry. apply Z.eqb_neq. unfold len. simpl String.length. lia.
Qed.

(** The visit of an assignment flags exactly the targets that are plain
    names made of one lower-case letter: each one gets a suggestion of
    type [readability] and severity [low], in the order of the targets. *)
Lemma naming_visit_assign (targets : list ast) (value : ast) (lineno : Z) :
  emitted (naming_visit (Assign targets value lineno)) =
  flat_map (fun target =>
              match target with
              | Name name _ =>
                  if is_single_lowercase name
                  then [mkSuggestion "readability" "low"
                          ("Consider using a more descriptive name instead of '" ++
                           name ++ "'")
                          (Some lineno) (Some "descriptive_name = ...")]
                  else []
              | _ => []
              end) targets.
Proof.
  apply appends_emitted. unfold naming_visit.
  change (flat_map ?f targets) with ([] ++ [] ++ flat_map f targets)%list.
  repeat apply appends_seq; try apply appends_pass.
  apply appends_for. intros target.
  destruct target; try apply appends_pass.
  rewrite <- single_letter_condition.
  destruct (isupper id && (1 <? len id)%Z); [apply appends_pass|].
  destruct (negb (contains "_" id) && islower id && (len id =? 1)%Z);
    [apply appends_one | apply appends_pass].
Qed.

(** An assignment of the parsed snippet whose plain-name targets are
    written in ASCII, one of them being one lower-case letter, gets a
    suggestion of type [readability] and severity [low] on its line for
    that target; and what the visit of the assignment appends is one such
    suggestion for each target of that kind, in order, and nothing for any
    other target: longer names, upper-case names and underscores are never
    flagged. *)
Theorem single_letter_names_are_flagged (code : string) (w : World) (tree : ast)
    (targets : list ast) (value : ast) (lineno : Z) (name : string) (ctx : ast) :
  ast_parse code = Returns tree ->
  in_subtree (Assign targets value lineno) tree ->
  ascii_names targets = true ->
  In (Name name ctx) targets ->
  is_single_lowercase name = true ->
  exists l,
    returned_list (analyze ast_parse code w) = Some l /\
    In (mkSuggestion "readability" "low"
          ("Consider using a more descriptive name instead of '" ++ name ++ "'")
          (Some lineno) (Some "descriptive_name = ...")) l /\
    emitted (naming_visit (Assign targets value lineno)) =
    flat_map (fun target =>
                match target with
                | Name name _ =>
                    if is_single_lowercase name
                    then [mkSuggestion "readability" "low"
                            ("Consider using a more descriptive name instead of '" ++
                             name ++ "'")
                            (Some lineno) (Some "descriptive_name = ...")]
                    else []
                | _ => []
                end) targets.
Proof.
  intros Hparse Hnode _ Htarget Hsingle. exists (findings tree code).
  split; [rewrite analyze_returned_list, Hparse; reflexivity|].
  split; [|apply naming_visit_assign].
  eapply findings_of_naming; [exact Hnode|].
  rewrite naming_visit_assign. apply in_flat_map.
  exists (Name name ctx). split; [exact Htarget|]. rewrite Hsingle. now left.
Qed.

End Names.

(** ** Exception handlers, globals and defaults *)

Lemma best_practices_visit_handler (exc_type : option ast) (body : list ast) (lineno : Z) :
  emitted (best_practices_visit (ExceptHandler exc_type body lineno)) =
  match exc_type with
  | None => [mkSuggestion "best_practice" "high"
               "Avoid bare 'except:' clauses. Specify exception types."
               (Some lineno) (Some "except Exception as e:")]
  | Some _ => []
  end.
Proof. destruct exc_type; reflexivity. Qed.

Section BestPractices.

Variable ast_parse : string -> outcome ast.

(** An exception handler of the parsed snippet that names no exception
    type gets a suggestion of type [best_practice] and severity [high] on
    its line, whose message holds the word "bare"; a handler that names a
    type gets nothing from this check. *)
Theorem bare_except_is_flagged (code : string) (w : World) (tree : ast)
    (exc_type : option ast) (body : list ast) (lineno : Z) :
  ast_parse code = Returns tree ->
  in_subtree (ExceptHandler exc_type body lineno) tree ->
  let s := mkSuggestion "best_practice" "high"
             "Avoid bare 'except:' clauses. Specify exception types."
             (Some lineno) (Some "except Exception as e:") in
  exists l,
    returned_list (analyze ast_parse code w) = Some l /\
    (exc_type = None -> In s l) /\
    contains "bare" (lower (message s)) = true /\
    (exc_type <> None ->
     emitted (best_practices_visit (ExceptHandler exc_type body lineno)) = []).
Proof.
  intros Hparse Hnode s. exists (findings tree code).
  split; [rewrite analyze_returned_list, Hparse; reflexivity|].
  split; [|split; [reflexivity|]].
  - intros ->. eapply findings_of_best_practices; [exact Hnode | now left].
  - intros Hsome. rewrite best_practices_visit_handler.
    destruct exc_type; [reflexivity | contradiction].
Qed.

(** A [global] statement of the parsed snippet gets a suggestion of type
    [best_practice] and severity [medium] on its line. *)
Theorem global_is_flagged (code : string) (w : World) (tree : ast)
    (names : list string) (lineno : Z) :
  ast_parse code = Returns tree ->
  in_subtree (Global names lineno) tree ->
  exists l s,
    returned_list (analyze ast_parse code w) = Some l /\ In s l /\
    type s = "best_practice" /\ severity s = "medium" /\ line s = Some lineno /\
    message s =
      "Avoid using 'global'. Consider using function parameters or class attributes.".
Proof.
  intros Hparse Hnode. exists (findings tree code). eexists.
  split; [rewrite analyze_returned_list, Hparse; reflexivity|]. split.
  - eapply findings_of_best_practices; [exact Hnode | now left].
  - repeat split.
Qed.

End BestPractices.

Lemma best_practices_visit_defaults (name : string) (a : arguments_of ast)
    (body decos : list ast) (returns : option ast) (lineno : Z) (end_lineno : option Z) :
  emitted (best_practices_visit (FunctionDef name a body decos returns lineno end_lineno)) =
  repeat (mutable_default_suggestion name lineno)
         (List.length (filter isinstance_mutable_literal (defaults a))).
Proof.
  rewrite best_practices_visit_function.
  induction (defaults a) as [|d ds IH]; [reflexivity|].
  cbn [flat_map filter]. rewrite IH.
  destruct (isinstance_mutable_literal d); reflexivity.
Qed.

Lemma filter_repeat {A : Type} (p : A -> bool) (x : A) (n : nat) :
  p x = true -> filter p (repeat x n) = repeat x n.
Proof.
  intros Hx. induction n as [|n IH]; simpl; [reflexivity|]. now rewrite Hx, IH.
Qed.

(** What the best-practices visit of a node appends about mutable
    defaults. *)
Lemma best_practices_visit_mutable (node : ast) :
  filter is_mutable_default_suggestion (emitted (best_practices_visit node)) =
  match node with
  | FunctionDef name _ _ _ _ lineno _ =>
      repeat (mutable_default_suggestion name lineno) (List.length (mutable_defaults node))
  | _ => []
  end.
Proof.
  destruct node as [body | name a body decos returns ln eln
                   | name a body decos returns ln eln | a
                   | name bases kws body decos ln
                   | targets value ln | target op value | target iter body orelse ln
                   | test body orelse ln | test body orelse | [exc_type|] body ln | names ln
                   | op values | id ctx | elts ctx | keys values | elts | | cls children];
    try reflexivity.
  rewrite best_practices_visit_defaults. apply filter_repeat. reflexivity.
Qed.

Section MutableDefaults.

Variable ast_parse : string -> outcome ast.

(** In the result for a parsed snippet, the suggestions about mutable
    defaults are, in the order of the walk, those of the functions
    defined with [def]: each function gets as many as it has list, dict
    or set literals among the defaults of its positional parameters, all
    alike, on the line of the function and with its name; no other node
    and no other check brings one. *)
Theorem one_suggestion_per_mutable_default (code : string) (w : World) (tree : ast) :
  ast_parse code = Returns tree ->
  exists l,
    returned_list (analyze ast_parse code w) = Some l /\
    (forall name a body decos returns lineno end_lineno,
       in_subtree (FunctionDef name a body decos returns lineno end_lineno) tree ->
       filter isinstance_mutable_literal (defaults a) <> [] ->
       In (mutable_default_suggestion name lineno) l) /\
    filter is_mutable_default_suggestion l =
    flat_map (fun node =>
                match node with
                | FunctionDef name _ _ _ _ lineno _ =>
                    repeat (mutable_default_suggestion name lineno)
                           (List.length (mutable_defaults node))
                | _ => []
                end) (walk tree).
Proof.
  intros Hparse. exists (findings tree code). split; [|split].
  - rewrite analyze_returned_list, Hparse. reflexivity.
  - intros name a body decos returns lineno end_lineno Hnode Hsome.
    eapply findings_of_best_practices; [exact Hnode|].
    rewrite best_practices_visit_defaults.
    destruct (filter isinstance_mutable_literal (defaults a)); [contradiction|].
    now left.
  - assert (Hnone : forall (A : Type) (visit : A -> Py unit) (types : list string) xs,
      (forall x, emits_only (finding_of types) (visit x)) ->
      ~ In "best_practice" types ->
      filter is_mutable_default_suggestion (flat_map (fun x => emitted (visit x)) xs) = []).
    { intros A visit types xs Hvisit Hnot. apply filter_none. intros s Hs.
      apply in_flat_map in Hs. destruct Hs as (x & _ & Hs).
      apply (@emitted_type _ _ _ (Hvisit x)) in Hs. unfold is_mutable_default_suggestion.
      apply andb_false_iff. left.
      apply String.eqb_neq. intros Heq. now rewrite Heq in Hs. }
    unfold findings. rewrite !filter_app.
    rewrite (Hnone _ _ _ _ naming_visit_emits), (Hnone _ _ _ _ complexity_visit_emits),
      (Hnone _ _ _ _ performance_visit_emits), (Hnone _ _ _ _ style_visit_emits)
      by (simpl; intuition discriminate).
    simpl. rewrite app_nil_r, filter_flat_map.
    apply flat_map_ext. intros node. apply best_practices_visit_mutable.
Qed.

End MutableDefaults.

(** ** Complexity and nesting *)

Lemma _calculate_complexity_sum (node : ast) :
  _calculate_complexity node = (1 + subtree_sum complexity_step node)%Z.
Proof.
  unfold _calculate_complexity. now rewrite fold_left_add, walk_sum.
Qed.

(** The complexity of a node is made of its own step and of what its
    children add: the branches of a nested function count for the
    function around it. *)
Theorem complexity_of_children (node : ast) :
  _calculate_complexity node =
  (1 + complexity_step node +
   sumZ (map (fun child => _calculate_complexity child - 1) (iter_child_nodes node)))%Z.
Proof.
  rewrite _calculate_complexity_sum, subtree_sum_children.
  rewrite (map_ext (fun child => _calculate_complexity child - 1)%Z
                   (subtree_sum complexity_step)); [lia|].
  intros child. rewrite _calculate_complexity_sum. lia.
Qed.

Lemma subtree_sum_nonnegative (w : ast -> Z) (node : ast) :
  (forall x, in_subtree x node -> 0 <= w x)%Z -> (0 <= subtree_sum w node)%Z.
Proof.
  induction node as [node IH] using ast_children_ind. intros Hw.
  rewrite subtree_sum_children.
  assert (0 <= w node)%Z by (apply Hw; constructor).
  enough (0 <= sumZ (map (subtree_sum w) (iter_child_nodes node)))%Z by lia.
  assert (Hchildren : forall c, In c (iter_child_nodes node) ->
                                forall x, in_subtree x c -> (0 <= w x)%Z).
  { intros c Hc x Hx. apply Hw. econstructor; eassumption. }
  induction IH as [|c l Hc _ IHl]; simpl; [lia|].
  assert (0 <= subtree_sum w c)%Z by (apply Hc, Hchildren; now left).
  assert (0 <= sumZ (map (subtree_sum w) l))%Z
    by (apply IHl; intros c' Hc'; apply Hchildren; now right).
  lia.
Qed.

Lemma sumZ_member (w : ast -> Z) (l : list ast) (c : ast) :
  In c l -> (forall x, In x l -> 0 <= w x)%Z -> (w c <= sumZ (map w l))%Z.
Proof.
  induction l as [|y l IH]; intros Hc Hall; [destruct Hc|]. simpl.
  assert (0 <= w y)%Z by (apply Hall; now left).
  destruct Hc as [-> | Hc].
  - enough (0 <= sumZ (map w l))%Z by lia.
    clear -Hall. induction l as [|z l IHl]; simpl; [lia|].
    assert (0 <= w z)%Z by (apply Hall; right; now left).
    assert (0 <= sumZ (map w l))%Z
      by (apply IHl; intros x [<- | Hx]; apply Hall; [now left | right; now right]).
    lia.
  - assert (w c <= sumZ (map w l))%Z by (apply IH; [exact Hc | intros x Hx; apply Hall; now right]).
    lia.
Qed.

Lemma in_subtree_trans (x y z : ast) : in_subtree x y -> in_subtree y z -> in_subtree x z.
Proof.
  intros Hxy Hyz. induction Hyz as [|node child Hc _ IH]; [exact Hxy|].
  econstructor; [exact Hc | exact IH].
Qed.

(** When every boolean operation below a function has an operand, as the
    parser makes them, the complexity of a function is at least that of
    whatever is nested in it: a function around a function of high
    complexity has a high complexity too. *)
Theorem complexity_grows_outwards (outer inner : ast) :
  (forall op values, in_subtree (BoolOp op values) outer -> values <> []) ->
  in_subtree inner outer ->
  (1 <= _calculate_complexity inner <= _calculate_complexity outer)%Z.
Proof.
  intros Hbool Hin.
  assert (Hstep : forall x, in_subtree x outer -> (0 <= complexity_step x)%Z).
  { intros x Hx. destruct x; try (simpl; lia).
    specialize (Hbool _ _ Hx). destruct values as [|v vs]; [contradiction|].
    unfold complexity_step. cbn [List.length]. lia. }
  rewrite !_calculate_complexity_sum. split.
  - enough (0 <= subtree_sum complexity_step inner)%Z by lia.
    apply subtree_sum_nonnegative. intros x Hx. eapply Hstep, in_subtree_trans; eassumption.
  - enough (subtree_sum complexity_step inner <= subtree_sum complexity_step outer)%Z by lia.
    clear Hbool. induction Hin as [|node child Hc Hin IH]; [lia|].
    rewrite (subtree_sum_children complexity_step node).
    assert (0 <= complexity_step node)%Z by (apply Hstep; constructor).
    assert (Hbelow : forall x, in_subtree x child -> (0 <= complexity_step x)%Z)
      by (intros x Hx; apply Hstep; econstructor; eassumption).
    specialize (IH Hbelow).
    assert (subtree_sum complexity_step child <=
            sumZ (map (subtree_sum complexity_step) (iter_child_nodes node)))%Z.
    { apply sumZ_member; [exact Hc|]. intros c Hc'.
      apply subtree_sum_nonnegative. intros x Hx. apply Hstep.
      econstructor; eassumption. }
    lia.
Qed.

Lemma complexity_grows_outwards_witness :
  (1 <= _calculate_complexity sum_loop <= _calculate_complexity sum_def)%Z.
Proof.
  apply (@complexity_grows_outwards sum_def sum_loop).
  - intros op values Hin. apply walk_in in Hin. vm_compute in Hin.
    repeat (destruct Hin as [Hin | Hin]; [discriminate|]). destruct Hin.
  - apply in_subtree_below with (child := sum_loop); [simpl; pick | constructor].
Defined.

(* ================================================================== *)
(** * Part IV.  The REST endpoints *)
(* ================================================================== *)

Module RoutesFacts.

Import Routes.

Ltac run_handler :=
  unfold analyze_code, health_check, list_all_analyses, get_analysis_history,
    subscript, Routes.bind, try_except, try_finally, db_call, Routes.ret, raise;
  cbn [fst snd calls code_analyzer].

Lemma code_analyzer_analyze_run (ast_parse : string -> outcome ast) (code : string)
    (sv : Server) :
  code_analyzer_analyze ast_parse code sv =
  (match ast_parse code with
   | Returns tree => inl (findings tree code)
   | Raises (SyntaxError text lineno) => inl [syntax_suggestion text lineno]
   | Raises e => inr (BaseException_ e)
   end,
   mkServer (snd (analyze ast_parse code (code_analyzer sv))) (calls sv)).
Proof.
  unfold code_analyzer_analyze. rewrite analyze_run.
  destruct (ast_parse code) as [tree | [text lineno | cls text]]; cbn [store snd];
    rewrite ?nth_middle; reflexivity.
Qed.

Lemma count_severity_split (l : list Suggestion) :
  Forall (fun s => In (severity s) severities) l ->
  (count_severity "high" l + count_severity "medium" l + count_severity "low" l =
   Z.of_nat (List.length l))%Z.
Proof.
  unfold count_severity. induction 1 as [|s l Hs _ IH]; [reflexivity|].
  cbn [filter List.length]. simpl in Hs.
  destruct Hs as [<- | [<- | [<- | []]]]; cbn [String.eqb Ascii.eqb Bool.eqb];
    cbn [List.length]; lia.
Qed.

(** [mapping.get(key, default)] is a value kept under [key] when there is
    one, and [default] when [key] is not in the mapping. *)
Lemma dict_get_found (mapping : list (string * string)) (key default : string) :
  In (key, dict_get mapping key default) mapping \/
  (forall v, ~ In (key, v) mapping) /\ dict_get mapping key default = default.
Proof.
  induction mapping as [|[k v] rest IH]; cbn [dict_get].
  - right. split; [intros v [] | reflexivity].
  - destruct (String.eqb_spec k key) as [-> | Hne].
    + left. now left.
    + destruct IH as [Hin | [Hnone Heq]]; [left; now right|].
      right. split; [|exact Heq].
      intros v' [[= ? _] | Hin]; [congruence | now apply (Hnone v')].
Qed.

(** The tests [isinstance(e, Exception)] that a run meets: they are
    settled when [e] is an [HTTPException] or the [TypeError] of a
    subscript, and both answers are followed otherwise. *)
Ltac settle_except :=
  repeat match goal with
  | |- context [isinstance_Exception (HTTPException ?s ?d)] =>
      change (isinstance_Exception (HTTPException s d)) with true
  | |- context [isinstance_Exception
                  (BaseException_ (OtherException "TypeError" ?t))] =>
      change (isinstance_Exception (BaseException_ (OtherException "TypeError" t)))
        with true
  | |- context [isinstance_Exception (BaseException_ ?e)] =>
      let H := fresh "Hexc" in
      destruct (isinstance_Exception (BaseException_ e)) eqn:H
  end;
  cbn [fst snd calls code_analyzer].

Section Endpoints.

Variable ast_parse : string -> outcome ast.
Variable db : Database.
Variable json_dumps : list Suggestion -> string.
Variable utcnow : datetime.
Variable http_exception_text : Z -> string -> string.

(** The summary of a result of the analyzer accounts for every
    suggestion: the numbers of suggestions of high, medium and low
    priority add up to the number of suggestions it announces; and it is
    the sentence "Code looks good! No issues found." exactly when there is
    no suggestion. *)
Theorem summary_counts_every_suggestion (code : string) (w : World)
    (l : list Suggestion) :
  returned_list (analyze ast_parse code w) = Some l ->
  (count_severity "high" l + count_severity "medium" l + count_severity "low" l =
   Z.of_nat (List.length l))%Z /\
  (make_summary l = "Code looks good! No issues found." <-> l = []) /\
  (l <> [] ->
   (0 < count_severity "high" l \/ 0 < count_severity "medium" l \/
    0 < count_severity "low" l)%Z).
Proof.
  intros Hl.
  assert (Hall : Forall (fun s => In (severity s) severities) l).
  { rewrite analyze_returned_list in Hl.
    destruct (ast_parse code) as [tree | [text lineno | cls text]];
      [ | | discriminate]; injection Hl as <-.
    - apply findings_severities.
    - constructor; [simpl; auto | constructor]. }
  pose proof (count_severity_split Hall) as Hsum.
  split; [exact Hsum|]. split.
  - split; [|now intros ->]. destruct l; [reflexivity | simpl; discriminate].
  - intros Hne. destruct l as [|s l]; [contradiction|].
    cbn [List.length] in Hsum.
    assert (0 <= count_severity "high" (s :: l) /\ 0 <= count_severity "medium" (s :: l) /\
            0 <= count_severity "low" (s :: l))%Z by (unfold count_severity; lia).
    lia.
Qed.

(** [analyze_code] answers with a response, or with an [HTTPException] of
    status 500 whose detail is "Error analyzing code: " followed by the
    text of an instance of [Exception], or it lets out an exception that
    is not an instance of [Exception], which the parser or one of its
    calls to the database has raised: it never lets an instance of
    [Exception] other than that [HTTPException] out.  A response carries
    the list the analyzer has returned, its summary, and
    [has_suggestions] tells whether that list has an item. *)
Theorem analyze_code_answers (request : string) (sv : Server) :
  match fst (analyze_code ast_parse db json_dumps utcnow http_exception_text request sv) with
  | inl response =>
      returned_list (analyze ast_parse request (code_analyzer sv)) =
        Some (response_suggestions response) /\
      response_code_snippet response = request /\
      summary response = make_summary (response_suggestions response) /\
      (has_suggestions response = true <-> response_suggestions response <> [])
  | inr (HTTPException status_code detail) =>
      status_code = 500%Z /\
      exists e, isinstance_Exception (BaseException_ e) = true /\
                detail = "Error analyzing code: " ++ exception_text e
  | inr (BaseException_ e) =>
      isinstance_Exception (BaseException_ e) = false /\
      (ast_parse request = Raises e \/
       get_db_connection_answer db = Raises e \/
       (exists arguments, fetchrow_answer db insert_query arguments = Raises e) \/
       close_answer db = Raises e)
  end.
Proof.
  run_handler. rewrite analyze_returned_list, code_analyzer_analyze_run.
  destruct (ast_parse request) as [tree | [text lineno | cls text]] eqn:Hparse;
    cbn [fst snd code_analyzer calls].
  3: { settle_except; [split; [reflexivity | eauto] | split; [assumption | now left]]. }
  all: destruct (get_db_connection_answer db) as [[] | e1] eqn:Hconn;
    cbn [fst snd code_analyzer calls];
    [|settle_except; [split; [reflexivity | eauto] | split; [assumption | auto]]].
  all: destruct (fetchrow_answer db _ _) as [[row|] | e2] eqn:Hrow;
    cbn [fst snd code_analyzer calls];
    destruct (close_answer db) as [[] | e3] eqn:Hclose;
    cbn [fst snd code_analyzer calls response_suggestions response_code_snippet summary
         has_suggestions];
    settle_except;
    cbn [fst snd code_analyzer calls response_suggestions response_code_snippet summary
         has_suggestions];
    try (split; [reflexivity | eexists; split; [|reflexivity]; first [eassumption | reflexivity]]);
    try (split; [assumption | eauto 6]).
  - split; [reflexivity | split; [reflexivity | split; [reflexivity|]]].
    rewrite Z.ltb_lt. destruct (findings tree request); simpl; split;
      (discriminate || lia || congruence).
  - split; [reflexivity | split; [reflexivity | split; [reflexivity|]]].
    simpl. split; [discriminate | reflexivity].
Qed.

(** Once [analyze_code] has got a connection it makes one query, the
    insertion of the snippet with its suggestions, and then closes the
    connection, whether the query succeeds or not; without a connection
    it makes no query. *)
Theorem analyze_code_releases_the_connection (request : string) (sv : Server) :
  let sv' := snd (analyze_code ast_parse db json_dumps utcnow http_exception_text request sv) in
  forall l, returned_list (analyze ast_parse request (code_analyzer sv)) = Some l ->
  calls sv' =
  (calls sv ++
   match get_db_connection_answer db with
   | Returns _ =>
       [GetDbConnection;
        Fetchrow insert_query [SqlText request; SqlText (json_dumps l); SqlTime utcnow];
        Close]
   | Raises _ => [GetDbConnection]
   end)%list.
Proof.
  intros sv' l Hl. unfold sv'. clear sv'.
  run_handler. rewrite code_analyzer_analyze_run. rewrite analyze_returned_list in Hl.
  destruct (ast_parse request) as [tree | [text lineno | cls text]];
    [ | | discriminate]; injection Hl as <-; cbn [fst snd code_analyzer calls];
    (destruct (get_db_connection_answer db) as [[] | e1];
       cbn [fst snd code_analyzer calls]; [|settle_except; reflexivity]);
    (destruct (fetchrow_answer db _ _) as [[row|] | e2]);
    cbn [fst snd code_analyzer calls];
    (destruct (close_answer db) as [[] | e3]); cbn [fst snd code_analyzer calls];
    settle_except; rewrite <- !app_assoc; reflexivity.
Qed.

(** [list_all_analyses] puts no text of the request into its queries: the
    page query is written with one of four fixed [ORDER BY] clauses, the
    one that [order_by] names or [created_at DESC] for any other value;
    and the limit it passes lies between 1 and 100, and is the requested
    one when that lies between 1 and 100.  The listing it returns states
    the limit passed to the query and the number of rows fetched. *)
Theorem list_all_analyses_bounds_the_query (limit offset : Z) (order_by : string)
    (sv : Server) :
  exists clause bounded,
    In clause ["created_at DESC"; "created_at ASC"; "id DESC"; "id ASC"] /\
    (In (order_by, clause) order_mapping \/
     (forall c, ~ In (order_by, c) order_mapping) /\ clause = "created_at DESC") /\
    (1 <= bounded <= 100)%Z /\
    ((1 <= limit <= 100)%Z -> bounded = limit) /\
    (forall query arguments,
       In (Fetch query arguments)
          (calls (snd (list_all_analyses db http_exception_text limit offset order_by
                         (mkServer (code_analyzer sv) [])))) ->
       query = page_query clause /\ arguments = [SqlInt bounded; SqlInt offset]) /\
    (forall listing,
       fst (list_all_analyses db http_exception_text limit offset order_by sv) =
         inl listing ->
       Routes.limit listing = bounded /\ Routes.offset listing = offset /\
       count listing = Z.of_nat (List.length (analyses listing)) /\
       fetch_answer db (page_query clause) [SqlInt bounded; SqlInt offset] =
         Returns (analyses listing)).
Proof.
  clear ast_parse json_dumps utcnow.
  exists (dict_get order_mapping order_by "created_at DESC").
  exists (if ((if (100 <? limit)%Z then 100 else limit) <? 1)%Z then 1%Z
          else if (100 <? limit)%Z then 100%Z else limit).
  pose proof (dict_get_found order_mapping order_by "created_at DESC") as Hclause.
  split; [|split; [exact Hclause|split; [|split; [|split]]]].
  - destruct Hclause as [Hin | [_ ->]]; [|simpl; auto].
    revert Hin. generalize (dict_get order_mapping order_by "created_at DESC").
    intros clause [[= _ <-] | [[= _ <-] | [[= _ <-] | [[= _ <-] | []]]]]; simpl; auto.
  - destruct (Z.ltb_spec 100 limit); [simpl; lia|].
    destruct (Z.ltb_spec limit 1); lia.
  - intros Hrange. destruct (Z.ltb_spec 100 limit); [lia|].
    destruct (Z.ltb_spec limit 1); lia.
  - intros query arguments. run_handler.
    destruct (get_db_connection_answer db) as [[] | e1]; cbn [fst snd code_analyzer calls];
      [|settle_except; simpl; intuition discriminate].
    destruct (fetchval_answer db count_query) as [n | e2];
      cbn [fst snd code_analyzer calls];
      [destruct (fetch_answer db _ _) as [rows | e3]; cbn [fst snd code_analyzer calls]|];
      destruct (close_answer db) as [[] | e4]; cbn [fst snd code_analyzer calls app];
      settle_except; simpl; intros H;
      repeat (destruct H as [H | H]; [try discriminate|]); try contradiction;
      injection H as <- <-; split; reflexivity.
  - intros listing. run_handler.
    destruct (get_db_connection_answer db) as [[] | e1]; cbn [fst snd code_analyzer calls];
      [|settle_except; discriminate].
    destruct (fetchval_answer db count_query) as [n | e2];
      cbn [fst snd code_analyzer calls];
      [destruct (fetch_answer db _ _) as [rows | e3] eqn:Hfetch;
       cbn [fst snd code_analyzer calls]|];
      destruct (close_answer db) as [[] | e4]; cbn [fst snd code_analyzer calls];
      settle_except; try discriminate.
    intros [= <-]. cbn [Routes.limit Routes.offset count analyses].
    repeat split.
Qed.

(** [get_analysis_history] answers 404 with the detail "Analysis N not
    found" when the query finds no row and the connection closes well,
    and the row when it finds one.  An [HTTPException] it raises has
    status 404, or status 500 and the detail "Error retrieving
    analysis: " followed by the text of an instance of [Exception].  Any
    other exception it lets out is not an instance of [Exception] and was
    raised by one of its calls to the database.  Whenever it has got a
    connection it makes one query and closes the connection. *)
Theorem get_analysis_history_answers (analysis_id : Z) (sv : Server) :
  let run := get_analysis_history db http_exception_text analysis_id sv in
  (get_db_connection_answer db = Returns tt -> close_answer db = Returns tt ->
   forall result, fetchrow_answer db select_query [SqlInt analysis_id] = Returns result ->
   fst run =
   match result with
   | Some row => inl row
   | None => inr (HTTPException 404 ("Analysis " ++ str_of_int analysis_id ++ " not found"))
   end) /\
  (forall e, fst run = inr (BaseException_ e) ->
     isinstance_Exception (BaseException_ e) = false /\
     (get_db_connection_answer db = Raises e \/
      fetchrow_answer db select_query [SqlInt analysis_id] = Raises e \/
      close_answer db = Raises e)) /\
  (forall status_code detail, fst run = inr (HTTPException status_code detail) ->
     status_code = 404%Z \/
     status_code = 500%Z /\
     exists e, isinstance_Exception (BaseException_ e) = true /\
               detail = "Error retrieving analysis: " ++ exception_text e) /\
  calls (snd run) =
  (calls sv ++
   match get_db_connection_answer db with
   | Returns _ => [GetDbConnection; Fetchrow select_query [SqlInt analysis_id]; Close]
   | Raises _ => [GetDbConnection]
   end)%list.
Proof.
  clear ast_parse json_dumps utcnow.
  intros run. unfold run. clear run. run_handler.
  destruct (get_db_connection_answer db) as [[] | e1] eqn:Hconn;
    cbn [fst snd code_analyzer calls].
  - destruct (fetchrow_answer db _ _) as [[row|] | e2] eqn:Hrow;
      cbn [fst snd code_analyzer calls];
      destruct (close_answer db) as [[] | e3] eqn:Hclose;
      cbn [fst snd code_analyzer calls];
      settle_except; rewrite <- !app_assoc;
      (split; [intros _ Hcl result Hresult;
               try discriminate; injection Hresult as <-; reflexivity|]);
      (split; [intros e He; try discriminate; injection He as <-;
               (split; [assumption | auto])|]);
      (split; [|reflexivity]);
      intros status_code detail Hd; try discriminate; injection Hd as <- <-;
      first [now left |
       right; (split; [reflexivity | eexists; (split; [|reflexivity]); assumption])].
  - settle_except;
      (split; [discriminate|]);
      (split; [intros e He; try discriminate; injection He as <-;
               (split; [assumption | auto])|]);
      (split; [|reflexivity]);
      intros status_code detail Hd; try discriminate; injection Hd as <- <-;
      right; (split; [reflexivity | eexists; (split; [|reflexivity]); assumption]).
Qed.

(** [health_check] answers unless one of its three calls to the database
    raises an exception that is not an instance of [Exception], which it
    lets out.  An answer never has the database status "disconnected":
    the status is "connected" and the service "ok" when the three calls
    succeed, and otherwise the status is "error" and the service
    "degraded".  When the test query fails the connection it has got is
    not closed. *)
Theorem health_check_answers (sv : Server) :
  match fst (health_check db utcnow sv) with
  | inl response =>
      version response = "1.0.0" /\
      (database response = "connected" /\ status response = "ok" /\
       get_db_connection_answer db = Returns tt /\
       (exists n, fetchval_answer db "SELECT 1" = Returns n) /\
       close_answer db = Returns tt
       \/
       database response = "error" /\ status response = "degraded" /\
       exists e,
         isinstance_Exception (BaseException_ e) = true /\
         (get_db_connection_answer db = Raises e \/
          fetchval_answer db "SELECT 1" = Raises e \/
          close_answer db = Raises e))
  | inr raised =>
      exists e,
        raised = BaseException_ e /\ isinstance_Exception (BaseException_ e) = false /\
        (get_db_connection_answer db = Raises e \/
         fetchval_answer db "SELECT 1" = Raises e \/
         close_answer db = Raises e)
  end /\
  ((forall e, get_db_connection_answer db = Raises e \/
              fetchval_answer db "SELECT 1" = Raises e \/
              close_answer db = Raises e ->
              isinstance_Exception (BaseException_ e) = true) ->
   exists response sv', health_check db utcnow sv = (inl response, sv')) /\
  (get_db_connection_answer db = Returns tt ->
   (exists e, fetchval_answer db "SELECT 1" = Raises e) ->
   calls (snd (health_check db utcnow sv)) =
   (calls sv ++ [GetDbConnection; Fetchval "SELECT 1"])%list).
Proof.
  clear ast_parse json_dumps http_exception_text.
  run_handler.
  destruct (get_db_connection_answer db) as [[] | e1] eqn:H1;
    cbn [fst snd code_analyzer calls];
    [destruct (fetchval_answer db "SELECT 1") as [n | e2] eqn:H2;
     cbn [fst snd code_analyzer calls];
     [destruct (close_answer db) as [[] | e3] eqn:H3;
      cbn [fst snd code_analyzer calls]|]|];
    settle_except;
    cbn [database status version String.eqb Ascii.eqb Bool.eqb];
    (split; [|split]);
    try (intros _ (e & He); discriminate);
    try (intros He; discriminate);
    try (intros _ _; now rewrite <- app_assoc);
    try (intros _; do 2 eexists; reflexivity);
    try (intros Hall;
         match goal with
         | Hexc : isinstance_Exception (BaseException_ ?e) = false |- _ =>
             rewrite (Hall e) in Hexc by auto; discriminate
         end);
    try (split; [reflexivity|]);
    try (left; repeat split; eauto; fail);
    try (right; split; [reflexivity | split; [reflexivity|]]; eauto 6; fail);
    try (eexists; split; [reflexivity | split; [assumption | auto]]).
Qed.

End Endpoints.

End RoutesFacts.

(* ================================================================== *)
(** * Part V.  The simulated agent and workflow *)
(* ================================================================== *)

(** [str] gives different texts for different integers. *)
Lemma str_of_int_inj (a b : Z) : str_of_int a = str_of_int b -> a = b.
Proof.
  unfold str_of_int. intros H. apply DecimalZ.to_int_inj.
  assert (Hok : forall z, Z.to_int z <> Decimal.Pos Decimal.Nil /\
                          Z.to_int z <> Decimal.Neg Decimal.Nil).
  { intros [|p|p]; simpl; split; try discriminate;
      intros [= Hp]; now apply DecimalPos.Unsigned.to_uint_nonnil in Hp. }
  assert (Hsome : Some (Z.to_int a) = Some (Z.to_int b)).
  { rewrite <- (NilZero.isi (Z.to_int a)), <- (NilZero.isi (Z.to_int b));
      try apply Hok. now rewrite H. }
  now injection Hsome.
Qed.

Module IntegrationFacts.

Import Integration.

Lemma find_task_found (tasks : list Task) (wanted : string) (position : nat) :
  find_task tasks wanted = Some position ->
  exists t, nth_error tasks position = Some t /\ task_id t = wanted /\
            forall earlier t', (earlier < position)%nat ->
                               nth_error tasks earlier = Some t' -> task_id t' <> wanted.
Proof.
  revert position. induction tasks as [|t rest IH]; intros position; cbn [find_task];
    [discriminate|].
  destruct (String.eqb_spec (task_id t) wanted) as [Heq | Hne].
  - intros [= <-]. exists t. repeat split; [exact Heq|]. intros earlier t' Hlt. lia.
  - destruct (find_task rest wanted) as [p|]; [|discriminate].
    intros [= <-]. destruct (IH p eq_refl) as (t0 & Hnth & Hid & Hfirst).
    exists t0. repeat split; [exact Hnth | exact Hid|].
    intros [|earlier] t' Hlt; simpl.
    + now intros [= <-].
    + apply Hfirst. lia.
Qed.

Lemma find_task_none (tasks : list Task) (wanted : string) :
  find_task tasks wanted = None <-> forall t, In t tasks -> task_id t <> wanted.
Proof.
  induction tasks as [|t rest IH]; cbn [find_task].
  - split; [intros _ t [] | reflexivity].
  - destruct (String.eqb_spec (task_id t) wanted) as [Heq | Hne].
    + split; [discriminate|]. intros H. exfalso. apply (H t); [now left | exact Heq].
    + destruct (find_task rest wanted) as [p|]; simpl.
      * split; [discriminate|]. intros H.
        assert (Hnone : Some p = None); [|discriminate].
        apply (proj2 IH). intros t' Ht'. apply H. now right.
      * split; [|reflexivity]. intros _ t' [<- | Ht']; [exact Hne|].
        now apply (proj1 IH).
Qed.

Lemma run_task_id (now : string) (t : Task) : task_id (run_task now t) = task_id t.
Proof. reflexivity. Qed.

(** Changing tasks without changing their identifiers does not change
    which task an identifier finds. *)
Lemma find_task_alter (f : Task -> Task) (tasks : list Task) (wanted : string) :
  (forall t, task_id (f t) = task_id t) ->
  forall position, find_task (alter_at position f tasks) wanted = find_task tasks wanted.
Proof.
  intros Hf. induction tasks as [|t rest IH]; intros [|position]; cbn [alter_at find_task];
    rewrite ?Hf, ?IH; reflexivity.
Qed.

Lemma nth_error_alter_same {A : Type} (f : A -> A) (l : list A) (i : nat) (x : A) :
  nth_error l i = Some x -> nth_error (alter_at i f l) i = Some (f x).
Proof.
  revert i. induction l as [|y l IH]; intros [|i]; simpl; try discriminate.
  - now intros [= ->].
  - apply IH.
Qed.

Lemma nth_error_alter_other {A : Type} (f : A -> A) (l : list A) (i j : nat) :
  i <> j -> nth_error (alter_at i f l) j = nth_error l j.
Proof.
  revert i j. induction l as [|y l IH]; intros [|i] [|j] Hne; simpl; try reflexivity.
  - contradiction.
  - apply IH. lia.
Qed.

Lemma alter_at_length {A : Type} (f : A -> A) (l : list A) (i : nat) :
  List.length (alter_at i f l) = List.length l.
Proof. revert i. induction l as [|y l IH]; intros [|i]; simpl; rewrite ?IH; reflexivity. Qed.


Lemma nth_error_snoc {A : Type} (l : list A) (x y : A) (i : nat) :
  nth_error (l ++ [x]) i = Some y ->
  nth_error l i = Some y \/ i = List.length l /\ y = x.
Proof.
  intros H. destruct (Nat.lt_ge_cases i (List.length l)) as [Hlt | Hge].
  - left. now rewrite nth_error_app1 in H.
  - right. rewrite nth_error_app2 in H by exact Hge.
    destruct (i - List.length l)%nat as [|[|k]] eqn:Hk; simpl in H; try discriminate.
    injection H as <-. split; [lia | reflexivity].
Qed.

Lemma numbered_unique (tasks : list Task) (i j : nat) (t t' : Task) :
  numbered tasks -> nth_error tasks i = Some t -> nth_error tasks j = Some t' ->
  task_id t = task_id t' -> i = j.
Proof.
  intros Hnum Hi Hj Hid. rewrite (Hnum _ _ Hi), (Hnum _ _ Hj) in Hid.
  injection Hid as Hid. apply str_of_int_inj in Hid. lia.
Qed.

Section Agent.

Variable start : CrewAIAgent.
Hypothesis start_is_new : tasks start = [].

Lemma agent_invariant_aux (self : CrewAIAgent) :
  reachable start self ->
  numbered (tasks self) /\ Forall settled (tasks self) /\
  agent_id self = agent_id start /\ role self = role start.
Proof.
  intros Hreach.
  induction Hreach as [|self now d c e _ (Hnum & Hset & Hid & Hrole)
                       |self now wanted _ (Hnum & Hset & Hid & Hrole)].
  - rewrite start_is_new. repeat split; [|constructor].
    intros [|position] t; discriminate.
  - cbn [create_task snd set_tasks tasks agent_id role]. repeat split; try assumption.
    + intros position t Hnth. apply nth_error_snoc in Hnth.
      destruct Hnth as [Hnth | [-> ->]]; [now apply Hnum | reflexivity].
    + apply Forall_app. split; [exact Hset|]. repeat constructor.
  - unfold execute_task. destruct (find_task (tasks self) wanted) as [position|] eqn:Hfind;
      cbn [snd set_tasks tasks agent_id role]; [|now repeat split].
    repeat split; try assumption.
    + intros i t Hnth. destruct (Nat.eq_dec position i) as [<- | Hne].
      * destruct (find_task_found _ _ Hfind) as (t0 & Ht0 & _).
        rewrite (nth_error_alter_same _ _ _ Ht0) in Hnth. injection Hnth as <-.
        rewrite run_task_id. now apply Hnum.
      * rewrite nth_error_alter_other in Hnth by exact Hne. now apply Hnum.
    + apply Forall_forall. intros t Ht. apply In_nth_error in Ht.
      destruct Ht as [i Hnth]. destruct (Nat.eq_dec position i) as [<- | Hne].
      * destruct (find_task_found _ _ Hfind) as (t0 & Ht0 & _).
        rewrite (nth_error_alter_same _ _ _ Ht0) in Hnth. injection Hnth as <-.
        right. repeat split. discriminate.
      * rewrite nth_error_alter_other in Hnth by exact Hne.
        apply nth_error_In in Hnth.
        apply (proj1 (Forall_forall _ _) Hset _ Hnth).
Qed.

(** Whatever methods have been called on a new agent, its tasks are
    numbered [task-1], [task-2], ... in the order of their creation, so
    that no two of them have the same identifier; and each task is either
    pending, without result, or completed, with the result of the
    simulation and a completion time: no task is left in progress. *)
Theorem agent_invariant (self : CrewAIAgent) :
  reachable start self ->
  numbered (tasks self) /\
  NoDup (map task_id (tasks self)) /\
  Forall settled (tasks self) /\
  agent_id self = agent_id start /\ role self = role start.
Proof.
  intros Hreach. pose proof (agent_invariant_aux Hreach) as Hinv.
  destruct Hinv as (Hnum & Hset & Hid & Hrole). repeat split; try assumption.
  apply (proj2 (NoDup_nth_error _)). intros i j Hi Heq.
  rewrite length_map in Hi. rewrite !nth_error_map in Heq.
  destruct (nth_error (tasks self) i) as [t|] eqn:Hti;
    [|apply nth_error_None in Hti; lia].
  destruct (nth_error (tasks self) j) as [t'|] eqn:Htj; [|discriminate].
  injection Heq as Heq. exact (numbered_unique _ _ Hnum Hti Htj Heq).
Qed.

(** The task that [create_task] has just made is found again by its
    identifier: its status is "pending", and it is the task at the end of
    the list, with the description, the snippet and the expected output
    that were given. *)
Theorem created_task_is_pending (self : CrewAIAgent)
    (now description code expected : string) :
  reachable start self ->
  let position := fst (create_task now description code expected self) in
  let self' := snd (create_task now description code expected self) in
  exists t,
    nth_error (tasks self') position = Some t /\
    find_task (tasks self') (task_id t) = Some position /\
    get_task_status (task_id t) self' = "pending" /\
    task_id t = "task-" ++ str_of_int (Z.of_nat (List.length (tasks self)) + 1) /\
    Integration.description t = description /\ code_snippet t = code /\
    expected_output t = expected /\ task_agent_id t = agent_id start.
Proof.
  intros Hreach position self'.
  assert (Hreach' : reachable start self') by now constructor.
  destruct (agent_invariant_aux Hreach') as (Hnum' & _).
  destruct (agent_invariant_aux Hreach) as (_ & _ & Hid & _).
  unfold position, self' in *. clear position self'.
  cbn [create_task fst snd set_tasks tasks] in *.
  set (t := mkTask ("task-" ++ str_of_int (Z.of_nat (List.length (tasks self)) + 1))
              (agent_id self) description code expected PENDING now None None) in *.
  exists t. split; [apply nth_error_last|].
  assert (Hfind : find_task (tasks self ++ [t]) (task_id t) =
                  Some (List.length (tasks self))).
  { destruct (find_task (tasks self ++ [t]) (task_id t)) as [p|] eqn:Hfind.
    - destruct (find_task_found _ _ Hfind) as (t0 & Ht0 & Hid0 & _).
      f_equal. exact (numbered_unique _ _ Hnum' Ht0 (nth_error_last _ _) Hid0).
    - exfalso.
      apply (proj1 (find_task_none _ _) Hfind t (nth_error_In _ _ (nth_error_last _ _))).
      reflexivity. }
  split; [exact Hfind|]. split.
  - unfold get_task_status, set_tasks. cbn [tasks]. rewrite Hfind, nth_error_last.
    reflexivity.
  - repeat split. exact Hid.
Qed.

End Agent.

(** [execute_task] on an identifier that no task has raises [ValueError]
    with the text "Task ... not found" and changes nothing.  On the
    identifier of a task it returns the first task with that identifier,
    whose status is "completed" afterwards; no other task is changed, and
    the status found under any other identifier is what it was. *)
Theorem execute_task_outcome (now wanted : string) (self : CrewAIAgent) :
  ((forall t, In t (tasks self) -> task_id t <> wanted) ->
   execute_task now wanted self =
     (Raises (OtherException "ValueError" ("Task " ++ wanted ++ " not found")), self) /\
   get_task_status wanted self = "not_found") /\
  ((exists t, In t (tasks self) /\ task_id t = wanted) ->
   exists position t self',
     execute_task now wanted self = (Returns position, self') /\
     nth_error (tasks self) position = Some t /\ task_id t = wanted /\
     nth_error (tasks self') position = Some (run_task now t) /\
     get_task_status wanted self' = "completed" /\
     List.length (tasks self') = List.length (tasks self) /\
     (forall other, other <> position ->
                    nth_error (tasks self') other = nth_error (tasks self) other) /\
     (forall other, other <> wanted ->
                    get_task_status other self' = get_task_status other self)).
Proof.
  split.
  - intros Hnone. apply find_task_none in Hnone.
    unfold execute_task, get_task_status. now rewrite Hnone.
  - intros (t0 & Hin & Hid).
    destruct (find_task (tasks self) wanted) as [position|] eqn:Hfind;
      [|exfalso; exact (proj1 (find_task_none _ _) Hfind t0 Hin Hid)].
    destruct (find_task_found _ _ Hfind) as (t & Hnth & Htid & _).
    exists position, t. eexists. unfold execute_task. rewrite Hfind.
    split; [reflexivity|]. split; [exact Hnth|]. split; [exact Htid|].
    unfold set_tasks, get_task_status. cbn [tasks].
    split; [now apply nth_error_alter_same|]. split; [|split; [|split]].
    + rewrite (find_task_alter _ _ _ (run_task_id now)), Hfind.
      now rewrite (nth_error_alter_same _ _ _ Hnth).
    + apply alter_at_length.
    + intros other Hne. apply nth_error_alter_other. congruence.
    + intros other Hne. rewrite (find_task_alter _ _ _ (run_task_id now)).
      destruct (find_task (tasks self) other) as [q|] eqn:Hother; [|reflexivity].
      rewrite nth_error_alter_other; [reflexivity|].
      intros <-. destruct (find_task_found _ _ Hother) as (t' & Hnth' & Hid' & _).
      congruence.
Qed.

Section WorkflowFacts.

Variable utcnow : nat -> string.
Variable self : CrewWorkflow.

Lemma missing_key_none (d : dict) :
  missing_key d = None ->
  exists s r a, lookup_key d "step" = Some s /\ lookup_key d "agent_role" = Some r /\
                lookup_key d "action" = Some a.
Proof.
  unfold missing_key. cbn [find].
  destruct (lookup_key d "step") as [s|]; [|discriminate].
  destruct (lookup_key d "agent_role") as [r|]; [|discriminate].
  destruct (lookup_key d "action") as [a|]; [|discriminate].
  intros _. do 3 eexists. repeat split.
Qed.

Lemma run_step_ok (tick : nat) (d : dict) :
  missing_key d = None ->
  exists r, run_step utcnow self tick d = Returns r /\ result_of_step self d r /\
            timestamp r = utcnow tick.
Proof.
  intros Hok. destruct (missing_key_none _ Hok) as (s & r & a & Hs & Hr & Ha).
  unfold run_step, subscript. rewrite Hs, Hr, Ha.
  destruct (find (role_is r) (agents self)) as [agent|] eqn:Hfind;
    eexists; (split; [reflexivity|]); unfold result_of_step;
    cbn [step agent_role action step_status step_agent_id output timestamp];
    rewrite Hfind; repeat split; assumption.
Qed.

Lemma run_step_missing (tick : nat) (d : dict) (key : string) :
  missing_key d = Some key ->
  run_step utcnow self tick d = Raises (OtherException "KeyError" ("'" ++ key ++ "'")).
Proof.
  unfold missing_key, run_step, subscript. cbn [find].
  destruct (lookup_key d "step") as [s|]; [|now intros [= <-]].
  destruct (lookup_key d "agent_role") as [r|]; [|now intros [= <-]].
  destruct (lookup_key d "action") as [a|]; [discriminate | now intros [= <-]].
Qed.

Lemma run_steps_ok (steps : list dict) : forall tick done,
  Forall (fun d => missing_key d = None) steps ->
  exists new,
    run_steps utcnow self steps tick done =
      ((done ++ new)%list, (tick + List.length steps)%nat, None) /\
    Forall2 (result_of_step self) steps new /\
    (forall i r, nth_error new i = Some r -> timestamp r = utcnow (tick + i)%nat).
Proof.
  induction steps as [|d steps IH]; intros tick done Hok.
  - exists []. cbn [run_steps List.length]. rewrite app_nil_r, Nat.add_0_r.
    repeat split; [constructor|]. intros [|i] r; discriminate.
  - inversion Hok as [|? ? Hd Hrest]; subst.
    destruct (run_step_ok tick _ Hd) as (r & Hrun & Hres & Htime).
    cbn [run_steps]. rewrite Hrun.
    destruct (IH (S tick) (done ++ [r])%list Hrest) as (new & Hsteps & Hall & Htimes).
    exists (r :: new). rewrite Hsteps, <- app_assoc. cbn [List.length app].
    replace (S tick + List.length steps)%nat with (tick + S (List.length steps))%nat by lia.
    repeat split; [now constructor|].
    intros [|i] r'; cbn [nth_error].
    + intros [= <-]. now rewrite Nat.add_0_r.
    + intros Hnth. rewrite (Htimes _ _ Hnth). f_equal. lia.
Qed.

(** A workflow whose steps all have the keys [step], [agent_role] and
    [action] ends "completed", with one result for each step, in order;
    the result of a step repeats its three values and names the first
    agent added to the workflow that has the role of the step, when there
    is one.  The times are successive readings of the clock. *)
Theorem execute_workflow_completes :
  Forall (fun d => missing_key d = None) (workflow_steps self) ->
  let results := execute_workflow utcnow self in
  results_status results = "completed" /\
  error results = None /\
  workflow_name_of results = workflow_name self /\
  started_at results = utcnow 0 /\
  results_completed_at results = Some (utcnow (S (List.length (workflow_steps self)))) /\
  Forall2 (result_of_step self) (workflow_steps self) (steps_results results) /\
  (forall i r, nth_error (steps_results results) i = Some r ->
               timestamp r = utcnow (S i)).
Proof.
  intros Hok results. unfold results, execute_workflow.
  destruct (run_steps_ok 1 [] Hok) as (new & -> & Hall & Htimes).
  cbn [results_status error workflow_name_of started_at results_completed_at steps_results
       app].
  repeat split; assumption.
Qed.

(** A workflow with a step that lacks one of the three keys ends
    "failed" at the first such step: the error is the name of the first
    missing key between quotes, the results of the steps before it are
    kept, those after it are not run, and there is no completion time. *)
Theorem execute_workflow_fails (before after : list dict) (bad : dict) (key : string) :
  workflow_steps self = (before ++ bad :: after)%list ->
  Forall (fun d => missing_key d = None) before ->
  missing_key bad = Some key ->
  let results := execute_workflow utcnow self in
  results_status results = "failed" /\
  error results = Some ("'" ++ key ++ "'") /\
  results_completed_at results = None /\
  Forall2 (result_of_step self) before (steps_results results).
Proof.
  intros Hsteps Hok Hbad results. unfold results, execute_workflow. rewrite Hsteps.
  assert (Hrun : forall tick done,
    exists new,
      run_steps utcnow self (before ++ bad :: after) tick done =
        ((done ++ new)%list, (tick + List.length before)%nat,
         Some (OtherException "KeyError" ("'" ++ key ++ "'"))) /\
      Forall2 (result_of_step self) before new).
  { clear Hsteps results. induction before as [|d before IH]; intros tick done.
    - exists []. cbn [app run_steps]. rewrite (run_step_missing _ _ Hbad).
      rewrite app_nil_r, Nat.add_0_r. split; [reflexivity | constructor].
    - inversion Hok as [|? ? Hd Hrest]; subst.
      destruct (run_step_ok tick _ Hd) as (r & Hrun & Hres & _).
      cbn [app run_steps]. rewrite Hrun.
      destruct (IH Hrest (S tick) (done ++ [r])%list) as (new & Hsteps & Hall).
      exists (r :: new). rewrite Hsteps, <- app_assoc. cbn [List.length app].
      replace (S tick + List.length before)%nat
        with (tick + S (List.length before))%nat by lia.
      split; [reflexivity | now constructor]. }
  destruct (Hrun 1%nat []) as (new & -> & Hall).
  cbn [results_status error results_completed_at steps_results app Routes.exception_text].
  repeat split. exact Hall.
Qed.

End WorkflowFacts.

End IntegrationFacts.

(* ================================================================== *)
(** * Part VI.  The tasks *)
(* ================================================================== *)

Module TasksFacts.

Import Tasks.

Lemma or_else_append (a b default : string) :
  b <> "" -> or_else (Some (a ++ b)) default = a ++ b.
Proof.
  intros Hb. unfold or_else. destruct (a ++ b) as [|c r] eqn:Heq; [|reflexivity].
  destruct a; simpl in Heq; [contradiction | discriminate].
Qed.

(** A review has the analysis as its first subtask, then the
    documentation task when [include_docs] is true, then the test task
    when [include_tests] is true, and nothing else; their identifiers are
    the one of the review followed by [-analysis], [-docs] and [-tests],
    they are all pending, and they all carry the snippet of the review.
    An empty identifier counts as none: the review gets a generated
    one. *)
Theorem review_subtasks (now stamp code : string) (docs tests : option bool)
    (given : option string) :
  let review := new_CodeReviewTask now stamp code docs tests given in
  map subtask_id (subtasks review) =
    ([(review_task_id review ++ "-analysis")%string] ++
     (if truthy docs then [(review_task_id review ++ "-docs")%string] else []) ++
     (if truthy tests then [(review_task_id review ++ "-tests")%string] else []))%list /\
  (exists analysis rest, subtasks review = Analysis analysis :: rest) /\
  Forall (fun t => subtask_status t = PENDING /\ subtask_code_snippet t = code)
         (subtasks review) /\
  review_status review = PENDING /\
  (given = None \/ given = Some "" -> review_task_id review = "review-" ++ stamp) /\
  (forall c r, given = Some (String c r) -> review_task_id review = String c r).
Proof.
  intros review. unfold review, new_CodeReviewTask, _create_subtasks.
  cbn [subtasks review_task_id review_code_snippet include_docs include_tests
       review_status app].
  set (id := or_else given ("review-" ++ stamp)).
  split; [|split; [|split; [|split; [|split]]]].
  - destruct (truthy docs), (truthy tests); cbn [app map subtask_id];
      unfold new_CodeAnalysisTask, new_DocumentationTask, new_TestGenerationTask;
      cbn [task_id doc_task_id test_task_id];
      rewrite ?or_else_append by discriminate; reflexivity.
  - destruct (truthy docs), (truthy tests); do 2 eexists; reflexivity.
  - destruct (truthy docs), (truthy tests); repeat constructor.
  - reflexivity.
  - unfold id. intros [-> | ->]; reflexivity.
  - unfold id. intros c r ->. reflexivity.
Qed.

Lemma execute_each_skips (rest : list Subtask) :
  Forall (fun t => match t with Analysis _ => False | _ => True end) rest ->
  execute_each rest = ([], rest).
Proof.
  induction 1 as [|t rest Ht _ IH]; [reflexivity|].
  destruct t; [contradiction | |]; cbn [execute_each]; now rewrite IH.
Qed.

(** [execute_all] on a review runs the analysis and nothing else: it
    returns one result, that of the analysis, whatever subtasks the review
    has; afterwards the review and its analysis are completed, while the
    documentation and test subtasks are still pending. *)
Theorem execute_all_runs_the_analysis_only (now stamp code : string)
    (docs tests : option bool) (given : option string) :
  let review := new_CodeReviewTask now stamp code docs tests given in
  let results := fst (execute_all review) in
  let review' := snd (execute_all review) in
  results = [mkExecution "completed" "Code analysis completed" "POST /analyze-code" code] /\
  review_status review' = COMPLETED /\
  map subtask_id (subtasks review') = map subtask_id (subtasks review) /\
  (forall t, In t (subtasks review') ->
     match t with
     | Analysis a =>
         status a = COMPLETED /\
         result a = Some (mkExecution "completed" "Code analysis completed"
                            "POST /analyze-code" code)
     | Documentation d => doc_status d = PENDING
     | TestGeneration g => test_status g = PENDING
     end).
Proof.
  intros review results review'. unfold results, review', review. clear.
  unfold new_CodeReviewTask, _create_subtasks, execute_all.
  cbn [subtasks review_task_id review_code_snippet include_docs include_tests
       review_status app].
  destruct (truthy docs), (truthy tests); cbn [app execute_each execute fst snd];
    cbn [subtasks review_status fst snd map];
    (split; [reflexivity|]); (split; [reflexivity|]); (split; [reflexivity|]);
    intros t Ht; repeat (destruct Ht as [<- | Ht]); try destruct Ht;
    (split; reflexivity) || reflexivity.
Qed.

(** A code analysis task takes the identifier and the description it is
    given, unless they are absent or empty: then the identifier is
    generated from the clock and the description is the standard one.
    It starts pending, without result, with the snippet, the creation
    time and the fixed expected output and role.  Running the task
    completes it and returns the result of the simulation, which carries
    its snippet; nothing but the status and the result of the task
    changes. *)
Theorem analysis_task_defaults_and_execution (stamp now code : string)
    (given_id given_description : option string) :
  let task := new_CodeAnalysisTask stamp now code given_id given_description in
  (given_id = None \/ given_id = Some "" -> task_id task = "task-" ++ stamp) /\
  (forall c r, given_id = Some (String c r) -> task_id task = String c r) /\
  (given_description = None \/ given_description = Some "" ->
   description task = "Analyze Python code for improvements") /\
  (forall c r, given_description = Some (String c r) -> description task = String c r) /\
  code_snippet task = code /\ created_at task = now /\
  expected_output task = "List of code improvement suggestions with severity and fixes" /\
  agent_role task = "Code Quality Specialist" /\
  status task = PENDING /\ result task = None /\
  let (execution, task') := execute task in
  execution = mkExecution "completed" "Code analysis completed" "POST /analyze-code" code /\
  data_code_snippet execution = code /\ execution_status execution = "completed" /\
  status task' = COMPLETED /\ result task' = Some execution /\
  task_id task' = task_id task /\ description task' = description task /\
  code_snippet task' = code /\ created_at task' = now /\
  expected_output task' = expected_output task /\ agent_role task' = agent_role task /\
  task' = mkCodeAnalysisTask (task_id task) (description task) (code_snippet task)
            (expected_output task) (agent_role task) COMPLETED (created_at task)
            (Some execution).
Proof.
  intros task. unfold task, new_CodeAnalysisTask.
  cbn [task_id description status result execute code_snippet created_at expected_output
       agent_role].
  split; [intros [-> | ->]; reflexivity|].
  split; [intros c r ->; reflexivity|].
  split; [intros [-> | ->]; reflexivity|].
  split; [intros c r ->; reflexivity|].
  repeat split.
Qed.

End TasksFacts.

(* ================================================================== *)
(** * Part VII.  The properties at work *)
(* ================================================================== *)

Lemma long_line_iff_flagged_witness :
  exists l,
    returned_list (analyze sample_parse_more long_line_code new_analyzer) = Some l /\
    (In (mkSuggestion "style" "low"
           "Line exceeds 120 characters (PEP 8 recommends max 79-120)" (Some 1%Z) None) l <->
     exists text, nth_error (split "010" long_line_code) (Z.to_nat (1 - 1)) = Some text /\
                  (1 <= 1)%Z /\ (120 < len text)%Z).
Proof.
  apply (@long_line_iff_flagged sample_parse_more long_line_code new_analyzer
           long_line_tree 1%Z).
  - reflexivity.
  - reflexivity.
Defined.

Lemma trailing_whitespace_is_stripped_witness :
  exists l fixed,
    returned_list (analyze sample_parse_more trailing_code new_analyzer) = Some l /\
    In (mkSuggestion "style" "low" "Trailing whitespace detected" (Some 1%Z) (Some fixed)) l /\
    (exists ws, "total = 1 " = fixed ++ ws /\ all_char is_space ws = true /\ ws <> "") /\
    (forall c, last_char fixed = Some c -> is_space c = false).
Proof.
  apply (@trailing_whitespace_is_stripped sample_parse_more trailing_code new_analyzer
           trailing_tree 1%Z "total = 1 ").
  - reflexivity.
  - left. reflexivity.
  - reflexivity.
  - left. reflexivity.
Defined.

Lemma spacing_fix_changes_white_space_only_witness :
  exists text, nth_error (split "010" tight_code) (Z.to_nat (1 - 1)) = Some text /\
               remove_spaces "total = 1" = remove_spaces text.
Proof.
  apply (@spacing_fix_changes_white_space_only sample_parse tight_code new_analyzer
           tight_tree
           [mkSuggestion "style" "low" "Missing spaces around assignment operator (PEP 8)"
              (Some 1%Z) (Some "total = 1")] 1%Z "total = 1").
  - reflexivity.
  - reflexivity.
  - reflexivity.
  - left. reflexivity.
Defined.

Lemma semicolons_are_split_witness :
  exists l fixed,
    returned_list (analyze sample_parse_more semicolon_code new_analyzer) = Some l /\
    In (mkSuggestion "style" "medium" "Avoid multiple statements on one line (PEP 8)"
          (Some 1%Z) (Some fixed)) l /\
    contains ";" fixed = false.
Proof.
  apply (@semicolons_are_split sample_parse_more semicolon_code new_analyzer
           semicolon_tree 1%Z "total = 1; count = 2").
  - reflexivity.
  - left. reflexivity.
  - reflexivity.
  - reflexivity.
  - reflexivity.
Defined.

Lemma bad_class_name_is_flagged_witness :
  exists l,
    returned_list (analyze sample_parse_more class_code new_analyzer) = Some l /\
    In (mkSuggestion "style" "medium" "Class 'my_class' should use PascalCase naming (PEP 8)"
          (Some 1%Z) (Some "class MyClass:")) l /\
    any_char is_word_separator "MyClass" = false.
Proof.
  apply (@bad_class_name_is_flagged sample_parse_more class_code new_analyzer class_tree
           "my_class" [] [] [Pass] [] 1%Z).
  - reflexivity.
  - apply in_subtree_below with (child := ClassDef "my_class" [] [] [Pass] [] 1);
      [simpl; pick | constructor].
  - reflexivity.
  - reflexivity.
Defined.

Lemma single_letter_names_are_flagged_witness :
  exists l,
    returned_list (analyze sample_parse conditional_code new_analyzer) = Some l /\
    In (mkSuggestion "readability" "low"
          "Consider using a more descriptive name instead of 'x'"
          (Some 1%Z) (Some "descriptive_name = ...")) l.
Proof.
  destruct (@single_letter_names_are_flagged sample_parse conditional_code new_analyzer
              conditional_tree [Name "x" Store]
              (Other "IfExp" [Other "Compare" [Name "a" Load; Other "Eq" []; Name "b" Load];
                              Constant; Constant]) 1%Z "x" Store)
    as (l & Hl & Hin & _).
  - reflexivity.
  - match goal with
    | |- in_subtree ?node _ => apply in_subtree_below with (child := node)
    end; [simpl; pick | constructor].
  - reflexivity.
  - left. reflexivity.
  - reflexivity.
  - exists l. split; assumption.
Defined.

Lemma bare_except_is_flagged_witness :
  exists l,
    returned_list (analyze sample_parse_more bare_except_code new_analyzer) = Some l /\
    In (mkSuggestion "best_practice" "high"
          "Avoid bare 'except:' clauses. Specify exception types."
          (Some 4%Z) (Some "except Exception as e:")) l.
Proof.
  destruct (@bare_except_is_flagged sample_parse_more bare_except_code new_analyzer
              bare_except_tree None [Pass] 4%Z) as (l & Hl & Hin & _).
  - reflexivity.
  - apply in_subtree_below with (child := bare_except_try); [simpl; pick|].
    apply in_subtree_below with (child := ExceptHandler None [Pass] 4);
      [simpl; pick | constructor].
  - exists l. split; [exact Hl | now apply Hin].
Defined.

Lemma global_is_flagged_witness :
  exists l s,
    returned_list (analyze sample_parse_more global_code new_analyzer) = Some l /\ In s l /\
    type s = "best_practice" /\ severity s = "medium" /\ line s = Some 2%Z /\
    message s =
      "Avoid using 'global'. Consider using function parameters or class attributes.".
Proof.
  apply (@global_is_flagged sample_parse_more global_code new_analyzer global_tree
           ["counter"] 2%Z).
  - reflexivity.
  - apply in_subtree_below with (child := global_def); [simpl; pick|].
    apply in_subtree_below with (child := Global ["counter"] 2); [simpl; pick | constructor].
Defined.

Lemma summary_counts_every_suggestion_witness :
  (Routes.count_severity "high" [performance_suggestion 4] +
   Routes.count_severity "medium" [performance_suggestion 4] +
   Routes.count_severity "low" [performance_suggestion 4] = 1)%Z /\
  (Routes.make_summary [performance_suggestion 4] = "Code looks good! No issues found." <->
   [performance_suggestion 4] = []).
Proof.
  destruct (@RoutesFacts.summary_counts_every_suggestion sample_parse sum_code new_analyzer
              [performance_suggestion 4] eq_refl) as (Hsum & Hgood & _).
  split; [exact Hsum | exact Hgood].
Defined.

Lemma analyze_code_releases_the_connection_witness :
  Routes.calls
    (snd (Routes.analyze_code sample_parse sample_db sample_json "2024-01-01T00:00:00"
            (fun _ detail => detail) sum_code new_server)) =
  [Routes.GetDbConnection;
   Routes.Fetchrow Routes.insert_query
     [Routes.SqlText sum_code; Routes.SqlText "[...]"; Routes.SqlTime "2024-01-01T00:00:00"];
   Routes.Close].
Proof.
  apply (@RoutesFacts.analyze_code_releases_the_connection sample_parse sample_db sample_json
           "2024-01-01T00:00:00" (fun _ detail => detail) sum_code new_server
           [performance_suggestion 4]).
  reflexivity.
Defined.

Lemma list_all_analyses_bounds_the_query_witness :
  exists clause bounded,
    In clause ["created_at DESC"; "created_at ASC"; "id DESC"; "id ASC"] /\
    (1 <= bounded <= 100)%Z /\
    forall query arguments,
      In (Routes.Fetch query arguments)
         (Routes.calls
            (snd (Routes.list_all_analyses sample_db (fun _ detail => detail) 500 0
                    "id; DROP TABLE analysis_history" new_server))) ->
      query = Routes.page_query clause.
Proof.
  destruct (@RoutesFacts.list_all_analyses_bounds_the_query sample_db
              (fun _ detail => detail) 500%Z 0%Z "id; DROP TABLE analysis_history"
              new_server) as (clause & bounded & Hclause & _ & Hbound & _ & Hquery & _).
  exists clause, bounded. split; [exact Hclause|]. split; [exact Hbound|].
  intros query arguments Hin. now apply Hquery in Hin.
Defined.

Lemma get_analysis_history_answers_witness :
  fst (Routes.get_analysis_history empty_db (fun _ detail => detail) 42 new_server) =
  inr (Routes.HTTPException 404 "Analysis 42 not found").
Proof.
  destruct (@RoutesFacts.get_analysis_history_answers empty_db (fun _ detail => detail)
              42%Z new_server) as (Hfound & _).
  apply (Hfound eq_refl eq_refl None eq_refl).
Defined.

Lemma health_check_answers_witness :
  exists response sv',
    Routes.health_check sample_db "2024-01-01T00:00:00" new_server = (inl response, sv').
Proof.
  destruct (@RoutesFacts.health_check_answers sample_db "2024-01-01T00:00:00" new_server)
    as (_ & Hanswers & _).
  apply Hanswers. intros e [H | [H | H]]; discriminate.
Defined.

Lemma agent_invariant_witness :
  let self :=
    snd (Integration.execute_task "t1" "task-1"
           (snd (Integration.create_task "t0" "review" bad_name_code "suggestions"
                   Integration.default_agent))) in
  Integration.numbered (Integration.tasks self) /\
  NoDup (map Integration.task_id (Integration.tasks self)) /\
  Forall Integration.settled (Integration.tasks self) /\
  Integration.agent_id self = Integration.agent_id Integration.default_agent /\
  Integration.role self = Integration.role Integration.default_agent.
Proof.
  apply (@IntegrationFacts.agent_invariant Integration.default_agent eq_refl).
  apply Integration.reachable_execute, Integration.reachable_create,
    Integration.reachable_start.
Defined.

Lemma created_task_is_pending_witness :
  let self' :=
    snd (Integration.create_task "t0" "review" bad_name_code "suggestions"
           Integration.default_agent) in
  exists t,
    nth_error (Integration.tasks self') 0 = Some t /\
    Integration.get_task_status (Integration.task_id t) self' = "pending" /\
    Integration.task_id t = "task-1".
Proof.
  destruct (@IntegrationFacts.created_task_is_pending Integration.default_agent eq_refl
              Integration.default_agent "t0" "review" bad_name_code "suggestions"
              (Integration.reachable_start _))
    as (t & Hnth & _ & Hstatus & Hid & _).
  exists t. split; [exact Hnth|]. split; [exact Hstatus | exact Hid].
Defined.

Lemma execute_task_outcome_witness :
  Integration.execute_task "t1" "task-9" Integration.default_agent =
    (Raises (OtherException "ValueError" "Task task-9 not found"),
     Integration.default_agent) /\
  exists position t self',
    Integration.execute_task "t1" "task-1"
      (snd (Integration.create_task "t0" "review" bad_name_code "suggestions"
              Integration.default_agent)) = (Returns position, self') /\
    Integration.task_id t = "task-1" /\
    Integration.get_task_status "task-1" self' = "completed".
Proof.
  split.
  - apply (@IntegrationFacts.execute_task_outcome "t1" "task-9" Integration.default_agent).
    intros t [].
  - destruct (@IntegrationFacts.execute_task_outcome "t1" "task-1"
                (snd (Integration.create_task "t0" "review" bad_name_code "suggestions"
                        Integration.default_agent))) as (_ & Hknown).
    destruct Hknown as (position & t & self' & Hrun & _ & Hid & _ & Hstatus & _).
    + eexists. split; [left; reflexivity | reflexivity].
    + exists position, t, self'. repeat split; assumption.
Defined.

Lemma execute_workflow_completes_witness :
  Integration.results_status (Integration.execute_workflow sample_clock example_workflow) =
    "completed" /\
  Forall2 (Integration.result_of_step example_workflow)
          (Integration.workflow_steps example_workflow)
          (Integration.steps_results
             (Integration.execute_workflow sample_clock example_workflow)).
Proof.
  destruct (@IntegrationFacts.execute_workflow_completes sample_clock example_workflow)
    as (Hstatus & _ & _ & _ & _ & Hall & _).
  - repeat constructor.
  - split; assumption.
Defined.

Lemma execute_workflow_fails_witness :
  Integration.results_status (Integration.execute_workflow sample_clock broken_workflow) =
    "failed" /\
  Integration.error (Integration.execute_workflow sample_clock broken_workflow) =
    Some "'action'" /\
  List.length (Integration.steps_results
                 (Integration.execute_workflow sample_clock broken_workflow)) = 1%nat.
Proof.
  destruct (@IntegrationFacts.execute_workflow_fails sample_clock broken_workflow
              [example_step] [example_step] incomplete_step "action")
    as (Hstatus & Herror & _ & Hall).
  - reflexivity.
  - repeat constructor.
  - reflexivity.
  - split; [exact Hstatus|]. split; [exact Herror|].
    apply Forall2_length in Hall. now rewrite <- Hall.
Defined.

Lemma review_subtasks_witness :
  Tasks.review_task_id
    (Tasks.new_CodeReviewTask "now" "123.4" bad_name_code (Some true) None (Some "")) =
  "review-123.4".
Proof.
  destruct (@TasksFacts.review_subtasks "now" "123.4" bad_name_code (Some true) None
              (Some "")) as (_ & _ & _ & _ & Hid & _).
  apply Hid. now right.
Defined.

Lemma analysis_task_defaults_and_execution_witness :
  Tasks.task_id (Tasks.new_CodeAnalysisTask "123.4" "now" bad_name_code (Some "") None) =
  "task-123.4".
Proof.
  destruct (@TasksFacts.analysis_task_defaults_and_execution "123.4" "now" bad_name_code
              (Some "") None) as (Hid & _).
  apply Hid. now right.
Defined.

Lemma one_suggestion_per_mutable_default_witness :
  exists l,
    returned_list (analyze sample_parse mutable_default_code new_analyzer) = Some l /\
    In (mutable_default_suggestion "f" 1) l /\
    filter is_mutable_default_suggestion l = [mutable_default_suggestion "f" 1].
Proof.
  destruct (@one_suggestion_per_mutable_default sample_parse mutable_default_code
              new_analyzer mutable_default_tree eq_refl) as (l & Hl & Hin & Hall).
  exists l. split; [exact Hl|]. split.
  - apply (Hin "f" (positional [arg] [List_ [] Load]) [Pass] [] None 1%Z (Some 2%Z)).
    + apply in_subtree_below with (child := mutable_default_def);
        [simpl; pick | constructor].
    + discriminate.
  - rewrite Hall. reflexivity.
Defined.

Lemma analyze_code_answers_witness :
  fst (Routes.analyze_code sample_parse cancelled_db sample_json "2024-01-01T00:00:00"
         (fun _ detail => detail) sum_code new_server) =
    inr (Routes.BaseException_ (OtherException "CancelledError" "")) /\
  Routes.isinstance_Exception (Routes.BaseException_ (OtherException "CancelledError" "")) =
    false.
Proof.
  split; [reflexivity|].
  exact (proj1 (@RoutesFacts.analyze_code_answers sample_parse cancelled_db sample_json
                  "2024-01-01T00:00:00" (fun _ detail => detail) sum_code new_server)).
Defined.
